(** * EC-GET restore engine, task factories and the blob-download CLI path

    A shallow embedding of

      - [ec/getx.go]       : [getFactory], [XactGet] (the EC restore engine),
      - [xact/xs/etl.go]   : [etlFactory],
      - the CLI blob-download handler ([blobDownloadHandler], [blobStartAll]),

    with the Go runtime pieces they rely on (errors with wrapping, buffered
    channels, panics, blocked goroutines) written out as data. *)

From Stdlib Require Import ZArith Ascii.
From stdpp Require Import gmap strings list fin_maps pretty.

Local Open Scope Z_scope.
Local Open Scope string_scope.

(** ** Go runtime: errors, outcomes of a call, channels *)

Module golang.

(** Go [error] values.  Sentinel errors are constructors; [fmt.Errorf]
    with a [%w] verb keeps the wrapped cause so that [errors.Is] can
    walk the chain. *)
Inductive error : Type :=
| io_EOF
| io_ErrUnexpectedEOF
| ErrorECDisabled
| errors_New (msg : string)
| fmt_Errorf (msg : string)
| fmt_ErrorfW (msg : string) (cause : error).

#[global] Instance error_eq_dec : EqDecision error.
Proof. solve_decision. Defined.

(** [errors.Is(err, target)]: [err == target] somewhere along the
    [Unwrap] chain. *)
Fixpoint errors_Is (err target : error) : bool :=
  bool_decide (err = target) ||
  match err with
  | fmt_ErrorfW _ cause => errors_Is cause target
  | _ => false
  end.

(** How a call ends: it returns, it panics, or the calling goroutine is
    parked for good on a channel or wait group.  Each case carries the
    state reached so far, so the effects before a panic stay visible. *)
Inductive outcome (S A : Type) : Type :=
| Ret (a : A) (s : S)
| Panic (msg : string) (s : S)
| Block (s : S).
Arguments Ret {S A} a s.
Arguments Panic {S A} msg s.
Arguments Block {S A} s.

Definition M (S A : Type) : Type := S -> outcome S A.

#[global] Instance M_ret {S} : MRet (M S) := λ A a s, Ret a s.
#[global] Instance M_bind {S} : MBind (M S) := λ A B f m s,
  match m s with
  | Ret a s' => f a s'
  | Panic msg s' => Panic msg s'
  | Block s' => Block s'
  end.

Definition get {S} : M S S := λ s, Ret s s.
Definition gets {S A} (f : S -> A) : M S A := λ s, Ret (f s) s.
Definition modify {S} (f : S -> S) : M S unit := λ s, Ret tt (f s).
Definition panic {S A} (msg : string) : M S A := λ s, Panic msg s.
Definition block {S A} : M S A := λ s, Block s.

(** [for _, x := range xs { body(x) }] *)
Fixpoint range {S A} (xs : list A) (body : A -> M S unit) : M S unit :=
  match xs with
  | [] => mret tt
  | x :: xs' => body x;; range xs' body
  end.

Lemma bind_Ret {S A B} (m : M S A) (k : A -> M S B) s a s' :
  m s = Ret a s' -> (m ≫= k) s = k a s'.
Proof. intros H. unfold mbind, M_bind. by rewrite H. Qed.

(** State reached by a call, whatever its outcome. *)
Definition final {S A} (o : outcome S A) : S :=
  match o with Ret _ s | Panic _ s | Block s => s end.

Definition returned {S A} (o : outcome S A) : option A :=
  match o with Ret a _ => Some a | _ => None end.

(** A buffered channel [make(chan A, cap)]. *)
Record chan (A : Type) : Type := Chan {
  buf : list A;
  cap : Z;
  closed : bool
}.
Arguments Chan {A} buf cap closed.
Arguments buf {A} c.
Arguments cap {A} c.
Arguments closed {A} c.

Definition make_chan {A} (n : Z) : chan A := Chan [] n false.

(** [len(ch)] *)
Definition chan_len {A} (c : chan A) : Z := Z.of_nat (length (buf c)).

Inductive sent (A : Type) : Type :=
| Sent (c : chan A)       (* the value is in the buffer *)
| SendBlocks              (* buffer full: the sender parks *)
| SendPanics.             (* send on closed channel *)
Arguments Sent {A} c.
Arguments SendBlocks {A}.
Arguments SendPanics {A}.

(** [ch <- v] with no receiver parked on [ch]. *)
Definition chan_send {A} (v : A) (c : chan A) : sent A :=
  if closed c then SendPanics
  else if bool_decide (chan_len c < cap c) then Sent (Chan (buf c ++ [v]) (cap c) false)
  else SendBlocks.

(** [close(ch)]; [None] is the panic on closing a closed channel. *)
Definition chan_close {A} (c : chan A) : option (chan A) :=
  if closed c then None else Some (Chan (buf c) (cap c) true).

End golang.
Export golang.

(** ** Package debug

    [debug.Assert] and [debug.Assertf] are no-ops unless the binary is built
    with the [debug] tag; with it a failed assertion panics. *)

Module debug.

Definition Assert {S} (ON : bool) (cond : bool) (msg : string) : M S unit :=
  if ON && negb cond then panic ("assertion failed: " ++ msg) else mret tt.

End debug.

(** ** Package xreg: what a factory answers when a previous instance runs *)

Module xreg.

Inductive WPR : Type :=
| WprAbort
| WprUse
| WprKeepAndStartNew.

#[global] Instance WPR_eq_dec : EqDecision WPR.
Proof. solve_decision. Defined.

(** An [xreg.Renewable] interface value, seen through what its methods
    return ([Kind], [UUID], [Bucket]). *)
Record Renewable : Type := {
  rn_Kind : string;
  rn_UUID : string;
  rn_Bck : option string
}.

End xreg.

(** ** Package xs: the inline-ETL factory ([xact/xs/etl.go]) *)

Module xs.
Import xreg.

Record xactETL : Type := {
  etl_msg : string;
  etl_uuid : string;
  etl_kind : string
}.

Record etlFactory : Type := {
  etl_Args_UUID : string;
  etl_Args_Custom : option string;
  etl_xctn : option xactETL
}.

(** [etlFactory.WhenPrevIsRunning]: the receiver and the previous
    instance are both unnamed in the source. *)
Definition etlFactory_WhenPrevIsRunning (_ : Renewable) : M etlFactory (WPR * option error) :=
  mret (WprKeepAndStartNew, None).

End xs.

(** ** Package ec: the EC-GET engine ([ec/getx.go]) *)

Module ec.
Import xreg.

(** *** Data *)

Record Bck : Type := { bck_Name : string; bck_Provider : string }.

(** [core.LOM], as far as the engine looks at it. *)
Record LOM : Type := {
  lom_Bck : Bck;
  lom_ObjName : string;
  lom_MountpathPath : string     (* lom.Mountpath().Path *)
}.

Record ObjAttrs : Type := {
  attrs_Size : Z;
  attrs_Cksum : option string;
  attrs_Version : string
}.

(** [transport.ObjHdr] *)
Record ObjHdr : Type := {
  SID : string;
  ObjName : string;
  hdr_ObjAttrs : ObjAttrs;
  Opcode : Z
}.

Record intraReq : Type := { exists_ : bool }.

(** An [io.Reader]: the bytes it yields, then how the stream ends
    ([None] is a clean [io.EOF]). *)
Record Reader : Type := {
  rd_bytes : list Z;
  rd_end : option error
}.

(** A pending slice writer ([*slice]). *)
Record slice : Type := {
  sl_data : list Z;          (* bytes received by [slice.writer] *)
  sl_n : Z;
  sl_cksum : option string;
  sl_version : string;
  sl_twg : Z                 (* transfers still awaited *)
}.

Record request : Type := {
  Action : string;
  ErrCh : option nat;        (* [nil], or the address of a [chan error] *)
  Callback : option nat      (* [nil], or an opaque closure *)
}.

Inductive httpClient : Type :=
| NewIntraClientTLS (timeout : Z)
| NewClient (timeout : Z).

Record getJogger : Type := {
  mpath : string;
  client : httpClient;
  workCh : chan request;
  stopCh : bool;             (* [stopCh] closed *)
  running : bool             (* [go jog.run()] issued *)
}.

Record Config : Type := {
  Client_Timeout : Z;
  Net_HTTP_UseHTTPS : bool;
  EC_Burst : Z;
  Periodic_StatsTime : Z;
  FastV4_EC : bool           (* cmn.Rom.FastV(4, cos.SmoduleEC) *)
}.

Record stats : Type := {
  st_queueLen : Z;
  st_queueCnt : Z
}.

Inductive level : Type := Info | Warning | Error.

(** [fs.MPI]: mountpath path to mountpath. *)
Record Mountpath : Type := { mp_Path : string; mp_enabled : bool }.
Abbreviation MPI := (gmap string Mountpath).

Record mpathReq : Type := { mp_action : string; mp_mpath : string }.
Record RequestsControlMsg : Type := { ctl_Action : string }.

(** The engine together with the objects it points to.  [XactGet] embeds
    [xactECBase] and [xactReqBase] (and through them [xact.DemandBase]);
    their fields are flattened here.  Joggers and error channels live in
    heaps and are referred to by address. *)
Record XactGet : Type := {
  (* xact.Base / xact.DemandBase *)
  xname : string;                        (* r.Name(), r.String() *)
  errs : list error;                     (* errors joined by AddErr *)
  abortErr : option error;               (* [Some]: ChanAbort() is closed *)
  finished : bool;
  idleStopped : bool;
  (* xactECBase *)
  config : Config;
  xstats : stats;
  slices : gmap string slice;            (* r.dOwner.slices *)
  (* xactReqBase *)
  ecEnabled : bool;
  (* XactGet *)
  getJoggers : gmap string (option nat); (* map[string]*getJogger *)
  (* heap and surroundings *)
  heap : list getJogger;
  errChans : list (chan error);
  log : list (level * string);
  active : Z;                            (* ECM's count of active xactions *)
  gowg : Z                               (* counter of the caller's wait group *)
}.

Definition set_errs v r : XactGet :=
  {| xname := xname r; errs := v; abortErr := abortErr r; finished := finished r;
     idleStopped := idleStopped r; config := config r; xstats := xstats r;
     slices := slices r; ecEnabled := ecEnabled r; getJoggers := getJoggers r;
     heap := heap r; errChans := errChans r; log := log r; active := active r;
     gowg := gowg r |}.
Definition set_abortErr v r : XactGet :=
  {| xname := xname r; errs := errs r; abortErr := v; finished := finished r;
     idleStopped := idleStopped r; config := config r; xstats := xstats r;
     slices := slices r; ecEnabled := ecEnabled r; getJoggers := getJoggers r;
     heap := heap r; errChans := errChans r; log := log r; active := active r;
     gowg := gowg r |}.
Definition set_finished v r : XactGet :=
  {| xname := xname r; errs := errs r; abortErr := abortErr r; finished := v;
     idleStopped := idleStopped r; config := config r; xstats := xstats r;
     slices := slices r; ecEnabled := ecEnabled r; getJoggers := getJoggers r;
     heap := heap r; errChans := errChans r; log := log r; active := active r;
     gowg := gowg r |}.
Definition set_idleStopped v r : XactGet :=
  {| xname := xname r; errs := errs r; abortErr := abortErr r; finished := finished r;
     idleStopped := v; config := config r; xstats := xstats r; slices := slices r;
     ecEnabled := ecEnabled r; getJoggers := getJoggers r; heap := heap r;
     errChans := errChans r; log := log r; active := active r; gowg := gowg r |}.
Definition set_xstats v r : XactGet :=
  {| xname := xname r; errs := errs r; abortErr := abortErr r; finished := finished r;
     idleStopped := idleStopped r; config := config r; xstats := v; slices := slices r;
     ecEnabled := ecEnabled r; getJoggers := getJoggers r; heap := heap r;
     errChans := errChans r; log := log r; active := active r; gowg := gowg r |}.
Definition set_slices v r : XactGet :=
  {| xname := xname r; errs := errs r; abortErr := abortErr r; finished := finished r;
     idleStopped := idleStopped r; config := config r; xstats := xstats r; slices := v;
     ecEnabled := ecEnabled r; getJoggers := getJoggers r; heap := heap r;
     errChans := errChans r; log := log r; active := active r; gowg := gowg r |}.
Definition set_ecEnabled v r : XactGet :=
  {| xname := xname r; errs := errs r; abortErr := abortErr r; finished := finished r;
     idleStopped := idleStopped r; config := config r; xstats := xstats r;
     slices := slices r; ecEnabled := v; getJoggers := getJoggers r; heap := heap r;
     errChans := errChans r; log := log r; active := active r; gowg := gowg r |}.
Definition set_getJoggers v r : XactGet :=
  {| xname := xname r; errs := errs r; abortErr := abortErr r; finished := finished r;
     idleStopped := idleStopped r; config := config r; xstats := xstats r;
     slices := slices r; ecEnabled := ecEnabled r; getJoggers := v; heap := heap r;
     errChans := errChans r; log := log r; active := active r; gowg := gowg r |}.
Definition set_heap v r : XactGet :=
  {| xname := xname r; errs := errs r; abortErr := abortErr r; finished := finished r;
     idleStopped := idleStopped r; config := config r; xstats := xstats r;
     slices := slices r; ecEnabled := ecEnabled r; getJoggers := getJoggers r;
     heap := v; errChans := errChans r; log := log r; active := active r;
     gowg := gowg r |}.
Definition set_errChans v r : XactGet :=
  {| xname := xname r; errs := errs r; abortErr := abortErr r; finished := finished r;
     idleStopped := idleStopped r; config := config r; xstats := xstats r;
     slices := slices r; ecEnabled := ecEnabled r; getJoggers := getJoggers r;
     heap := heap r; errChans := v; log := log r; active := active r;
     gowg := gowg r |}.
Definition set_log v r : XactGet :=
  {| xname := xname r; errs := errs r; abortErr := abortErr r; finished := finished r;
     idleStopped := idleStopped r; config := config r; xstats := xstats r;
     slices := slices r; ecEnabled := ecEnabled r; getJoggers := getJoggers r;
     heap := heap r; errChans := errChans r; log := v; active := active r;
     gowg := gowg r |}.
Definition set_active v r : XactGet :=
  {| xname := xname r; errs := errs r; abortErr := abortErr r; finished := finished r;
     idleStopped := idleStopped r; config := config r; xstats := xstats r;
     slices := slices r; ecEnabled := ecEnabled r; getJoggers := getJoggers r;
     heap := heap r; errChans := errChans r; log := log r; active := v;
     gowg := gowg r |}.
Definition set_gowg v r : XactGet :=
  {| xname := xname r; errs := errs r; abortErr := abortErr r; finished := finished r;
     idleStopped := idleStopped r; config := config r; xstats := xstats r;
     slices := slices r; ecEnabled := ecEnabled r; getJoggers := getJoggers r;
     heap := heap r; errChans := errChans r; log := log r; active := active r;
     gowg := v |}.

Definition set_stopCh v j : getJogger :=
  {| mpath := mpath j; client := client j; workCh := workCh j; stopCh := v;
     running := running j |}.
Definition set_running v j : getJogger :=
  {| mpath := mpath j; client := client j; workCh := workCh j; stopCh := stopCh j;
     running := v |}.
Definition set_workCh v j : getJogger :=
  {| mpath := mpath j; client := client j; workCh := v; stopCh := stopCh j;
     running := running j |}.

(** Two facts on sets of mountpaths. *)
Lemma union_shuffle (X Y : gset string) (k : string) :
  X ∪ ({[k]} ∪ Y) = {[k]} ∪ X ∪ Y.
Proof. by rewrite (assoc_L (∪)), (comm_L (∪) X). Qed.

Lemma union_absorb (X : gset string) (k : string) : k ∈ X → X = {[k]} ∪ X.
Proof. intros Hk. symmetry. apply subseteq_union_1_L. by apply singleton_subseteq_l. Qed.

Section Engine.

Set Default Proof Using "Type".

(** What the engine takes from files outside [ec/getx.go]. *)
Variable debug_ON : bool.                 (* built with the [debug] tag *)
Variable core_T : string.                 (* core.T, printed *)
Variable Cname : Bck -> string -> string. (* bck.Cname(objName) *)
Variable strconv_Quote : string -> string.          (* the [%q] verb *)
Variable unique : string -> Bck -> string -> string.
Variable respPut : Z.
Variable invalOpcode : string.
Variable getxBurstSize : nat.
Variable ActRestore ActEnableRequests ActClearRequests : string.
Variable ActMountpathAttach ActMountpathDetach : string.
Variable errLossMpath : string -> LOM -> error.
Variable _writerReceive : slice -> bool -> ObjAttrs -> Reader -> slice * option error.
Variable ECStats_String : stats -> string.

(** *** Methods inherited from [xact.Base], [xact.DemandBase],
    [xactReqBase] and the stats object *)

Definition nlog (lv : level) (msg : string) : M XactGet unit :=
  modify (λ r, set_log (log r ++ [(lv, msg)]) r).

(** Modelled from the spec: [xact.Base.AddErr] is outside [src/]; it
    joins the error to the errors the engine reports. *)
Definition AddErr (err : error) : M XactGet unit :=
  modify (λ r, set_errs (errs r ++ [err]) r).

(** Modelled from the spec: [xact.Base.Abort] is outside [src/]; the
    first abort of a live engine records the cause and closes the abort
    channel, later ones (and aborts of a finished engine) change
    nothing.  The result says whether this call did the abort. *)
Definition Abort (err : error) : M XactGet bool := λ r,
  if finished r || bool_decide (is_Some (abortErr r)) then Ret false r
  else Ret true (set_abortErr (Some err) r).

(** Modelled from the spec: [xact.Base.Finish] is outside [src/]; it
    marks the engine finished, the abort cause staying in place. *)
Definition Finish : M XactGet unit := modify (set_finished true).

(** Modelled from the spec: [xact.DemandBase.Stop] is outside [src/];
    it stops the idle timer. *)
Definition DemandBase_Stop : M XactGet unit := modify (set_idleStopped true).

(** Modelled from the spec: the admission flag of [xactReqBase] is
    outside [src/]. *)
Definition ecRequestsEnabled : M XactGet bool := gets ecEnabled.
Definition setEcRequestsEnabled : M XactGet unit := modify (set_ecEnabled true).
Definition setEcRequestsDisabled : M XactGet unit := modify (set_ecEnabled false).

(** Modelled from the spec: [stats.updateQueue] is outside [src/]; it
    accumulates one queue-length sample. *)
Definition updateQueue (l : Z) : M XactGet unit :=
  modify (λ r, set_xstats {| st_queueLen := st_queueLen (xstats r) + l;
                             st_queueCnt := st_queueCnt (xstats r) + 1 |} r).

(** *** Heap access *)

Definition deref (p : option nat) : M XactGet (nat * getJogger) := λ r,
  match p with
  | None => Panic "nil pointer dereference" r
  | Some l => match heap r !! l with
              | Some j => Ret (l, j) r
              | None => Panic "invalid address" r
              end
  end.

Definition store (l : nat) (j : getJogger) : M XactGet unit :=
  modify (λ r, set_heap (<[l := j]> (heap r)) r).

Definition alloc (j : getJogger) : M XactGet (option nat) := λ r,
  Ret (Some (length (heap r))) (set_heap (heap r ++ [j]) r).

(** [ch <- v] on an error channel *)
Definition send_err (ch : nat) (v : error) : M XactGet unit := λ r,
  match errChans r !! ch with
  | None => Panic "invalid address" r
  | Some c =>
      match chan_send v c with
      | Sent c' => Ret tt (set_errChans (<[ch := c']> (errChans r)) r)
      | SendBlocks => Block r
      | SendPanics => Panic "send on closed channel" r
      end
  end.

(** [close(ch)] on an error channel *)
Definition close_err (ch : nat) : M XactGet unit := λ r,
  match errChans r !! ch with
  | None => Panic "invalid address" r
  | Some c =>
      match chan_close c with
      | Some c' => Ret tt (set_errChans (<[ch := c']> (errChans r)) r)
      | None => Panic "close of closed channel" r
      end
  end.

(** Modelled from the spec: [getJogger.stop] and [getJogger.run] are
    outside [src/]; stopping closes the jogger's stop channel (once),
    running starts its loop. *)
Definition jog_stop (p : option nat) : M XactGet unit :=
  '(l, j) ← deref p; store l (set_stopCh true j).

Definition go_jog_run (p : option nat) : M XactGet unit :=
  '(l, j) ← deref p; store l (set_running true j).

(** *** [ec/getx.go] *)

Record getFactory : Type := {
  gf_Bck : Bck;
  gf_xctn : option XactGet
}.

Definition getFactory_WhenPrevIsRunning (xprev : Renewable) : M getFactory (WPR * option error) :=
  debug.Assert debug_ON false "xreg.usePrev() must've returned true";;
  mret (WprUse, None).

Definition newGetJogger (mpath : string) : M XactGet (option nat) :=
  r ← get;
  let cargs := Client_Timeout (config r) in
  let client :=
    if Net_HTTP_UseHTTPS (config r) then NewIntraClientTLS cargs else NewClient cargs in
  alloc {| mpath := mpath;
           client := client;
           workCh := make_chan (Z.max (Z.of_nat getxBurstSize) (EC_Burst (config r)));
           stopCh := false;
           running := false |}.

(** The engine after [xactECBase.init] and [xactReqBase.init], before
    any jogger exists.  Modelled from the spec: both [init]s are outside
    [src/]; admission starts enabled. *)
Definition init (name : string) (conf : Config) : XactGet :=
  {| xname := name; errs := []; abortErr := None; finished := false;
     idleStopped := false; config := conf;
     xstats := {| st_queueLen := 0; st_queueCnt := 0 |};
     slices := ∅; ecEnabled := true; getJoggers := ∅;
     heap := []; errChans := []; log := []; active := 0; gowg := 0 |}.

(** [xctn.getJoggers[mpath] = xctn.newGetJogger(mpath)] *)
Definition setJogger (mpath : string) : M XactGet unit :=
  j ← newGetJogger mpath;
  modify (λ r, set_getJoggers (<[mpath := j]> (getJoggers r)) r).

(** [newGetXact]; [avail] and [disabled] are what [fs.Get()] returns,
    [conf] what [cmn.GCO.Get()] returns. *)
Definition newGetXact (name : string) (conf : Config) (avail disabled : MPI) : XactGet :=
  final ((range [avail; disabled] (λ mpi,
            range (map_to_list mpi).*1 setJogger)) (init name conf)).

(** [dispatchResp]; the lookup under [r.dOwner.mtx] is one step here, and
    the writer found is updated in place under its name. *)
Definition dispatchResp (iReq : intraReq) (hdr : ObjHdr) (bck : Bck) (reader : Reader)
  : M XactGet unit :=
  let objName := ObjName hdr in
  let objAttrs := hdr_ObjAttrs hdr in
  let uname := unique (SID hdr) bck objName in
  if bool_decide (Opcode hdr = respPut) then
    r ← get;
    (if FastV4_EC (config r)
     then nlog Info ("response from " ++ SID hdr ++ " " ++ Cname bck objName)
     else mret tt);;
    r ← get;
    match slices r !! uname with
    | None =>
        let err := fmt_Errorf (core_T ++ ": no slice writer for " ++ Cname bck objName) in
        AddErr err
    | Some writer =>
        let '(writer', res) := _writerReceive writer (exists_ iReq) objAttrs reader in
        modify (λ r, set_slices (<[uname := writer']> (slices r)) r);;
        match res with
        | Some err =>
            let errN :=
              fmt_ErrorfW (core_T ++ ": failed to read " ++ Cname bck objName ++ " replica: ") err in
            AddErr errN;;
            if bool_decide (err = io_ErrUnexpectedEOF) || errors_Is err io_ErrUnexpectedEOF
            then Abort errN;; mret tt
            else mret tt
        | None => mret tt
        end
    end
  else
    debug.Assert debug_ON false (invalOpcode ++ " " ++ pretty (Opcode hdr));;
    r ← get;
    nlog Error (xname r ++ " " ++ invalOpcode ++ " " ++ pretty (Opcode hdr)).

Definition dispatchReq (req : request) (lom : LOM) : M XactGet (option error) :=
  enabled ← ecRequestsEnabled;
  if negb enabled then
    match ErrCh req with
    | Some ch => send_err ch ErrorECDisabled;; close_err ch
    | None => mret tt
    end;;
    mret (Some ErrorECDisabled)
  else
    debug.Assert debug_ON (bool_decide (Action req = ActRestore)) "req.Action == ActRestore";;
    r ← get;
    match getJoggers r !! lom_MountpathPath lom with
    | None =>
        let err := errLossMpath (xname r) lom in
        Abort err;;
        mret (Some err)
    | Some jogger =>
        '(l, j) ← deref jogger;
        updateQueue (chan_len (workCh j));;
        match chan_send req (workCh j) with
        | Sent c => store l (set_workCh c j)
        | SendBlocks => block
        | SendPanics => panic "send on closed channel"
        end;;
        mret None
    end.

Definition stop : M XactGet unit :=
  DemandBase_Stop;;
  r ← get;
  range (map_to_list (getJoggers r)).*2 jog_stop;;
  Finish.

Definition addMpath (mpath : string) : M XactGet unit :=
  r ← get;
  match getJoggers r !! mpath with
  | Some (Some _) =>
      nlog Warning ("Attempted to add already existing mountpath: " ++ mpath)
  | _ =>
      getJog ← newGetJogger mpath;
      modify (λ r, set_getJoggers (<[mpath := getJog]> (getJoggers r)) r);;
      go_jog_run getJog
  end.

Definition removeMpath (mpath : string) : M XactGet unit :=
  r ← get;
  match getJoggers r !! mpath with
  | None =>
      let err := fmt_Errorf (xname r ++ ": invalid or lost mountpath " ++ strconv_Quote mpath) in
      debug.Assert debug_ON false "invalid or lost mountpath";;
      Abort err;;
      mret tt
  | Some getJog =>
      jog_stop getJog;;
      modify (λ r, set_getJoggers (delete mpath (getJoggers r)) r)
  end.

(** What one [select] of the control loop received. *)
Inductive event : Type :=
| EvTick                                  (* <-ticker.C *)
| EvMpath (q : mpathReq)                  (* <-r.mpathReqCh *)
| EvIdle                                  (* <-r.IdleTimer() *)
| EvControl (msg : RequestsControlMsg)    (* <-r.controlCh *)
| EvAbort.                                (* <-r.ChanAbort() *)

(** The [for { select { ... } }] of [Run] over the events received, in
    order.  The abort channel can only be received from once it is
    closed; an [EvAbort] before that is not a case [select] could have
    taken and is passed over.  With no event left, [select] still takes
    [<-r.ChanAbort()] if the engine has been aborted (the channel is closed
    and stays ready); otherwise the loop stays parked. *)
Fixpoint Run_loop (evs : list event) : M XactGet unit :=
  match evs with
  | [] =>
      r ← get;
      if bool_decide (is_Some (abortErr r)) then stop else block
  | ev :: evs' =>
      match ev with
      | EvTick =>
          r ← get;
          (if FastV4_EC (config r) then
             let s := ECStats_String (xstats r) in
             if bool_decide (s ≠ "") then nlog Info s else mret tt
           else mret tt);;
          Run_loop evs'
      | EvMpath q =>
          (if bool_decide (mp_action q = ActMountpathAttach) then addMpath (mp_mpath q)
           else if bool_decide (mp_action q = ActMountpathDetach) then removeMpath (mp_mpath q)
           else mret tt);;
          Run_loop evs'
      | EvIdle => stop
      | EvControl msg =>
          if bool_decide (ctl_Action msg = ActEnableRequests) then
            setEcRequestsEnabled;;
            Run_loop evs'
          else
            debug.Assert debug_ON (bool_decide (ctl_Action msg = ActClearRequests))
              "msg.Action == ActClearRequests";;
            setEcRequestsDisabled;;
            stop
      | EvAbort =>
          r ← get;
          if bool_decide (is_Some (abortErr r)) then stop else Run_loop evs'
      end
  end.

(** [Run]; [evs] is what the loop's [select] receives.  [time.NewTicker]
    panics on a period that is not positive; after that the stats ticker
    shows only through its [EvTick] events. *)
Definition Run (evs : list event) : M XactGet unit :=
  r ← get;
  nlog Info (xname r);;
  range (map_to_list (getJoggers r)).*2 go_jog_run;;
  (if bool_decide (Periodic_StatsTime (config r) ≤ 0)%Z
   then panic "non-positive interval for NewTicker"
   else mret tt);;                                         (* time.NewTicker(...) *)
  modify (λ r, set_active (active r + 1) r);;              (* ECM.incActive(r) *)
  r ← get;
  (if bool_decide (gowg r - 1 < 0) then panic "sync: negative WaitGroup counter"
   else modify (set_gowg (gowg r - 1)));;                  (* gowg.Done() *)
  Run_loop evs.

(** Modelled from the spec: [xact.GoRunW], by which [getFactory.Start]
    starts the engine, is outside [src/]; it raises a fresh wait group by
    one and starts [Run], which lowers it again. *)
Definition GoRunW (evs : list event) : M XactGet unit :=
  modify (λ r, set_gowg (gowg r + 1) r);;
  Run evs.

(** [ClearRequests] and [EnableRequests] put a message on [controlCh];
    the loop sees it as an [EvControl]. *)
Definition ClearRequests : event := EvControl {| ctl_Action := ActClearRequests |}.
Definition EnableRequests : event := EvControl {| ctl_Action := ActEnableRequests |}.

(** *** Well-formed mount table

    Every entry of the table points to an allocated jogger made for that
    very mountpath; two mountpaths therefore never share a jogger. *)
Definition table_ok (r : XactGet) : Prop :=
  ∀ m p, getJoggers r !! m = Some p →
    ∃ l j, p = Some l ∧ heap r !! l = Some j ∧ mpath j = m.

(** The engine is live: neither finished nor aborted. *)
Definition live (r : XactGet) : Prop :=
  finished r = false ∧ abortErr r = None.

(** Heap after [jog.stop()] on every pointer of [ps]. *)
Definition stopped_heap (ps : list (option nat)) (h : list getJogger) : list getJogger :=
  imap (λ l j, if bool_decide (Some l ∈ ps) then set_stopCh true j else j) h.

(** Errors and log lines of [dispatchResp]. *)
Definition no_slice_writer (bck : Bck) (objName : string) : error :=
  fmt_Errorf (core_T ++ ": no slice writer for " ++ Cname bck objName).

Definition failed_to_read (bck : Bck) (objName : string) (err : error) : error :=
  fmt_ErrorfW (core_T ++ ": failed to read " ++ Cname bck objName ++ " replica: ") err.

(** The engine after the verbose "response from" line, if verbosity asks
    for it. *)
Definition traced (hdr : ObjHdr) (bck : Bck) (r : XactGet) : XactGet :=
  if FastV4_EC (config r)
  then set_log (log r ++ [(Info, "response from " ++ SID hdr ++ " " ++ Cname bck (ObjName hdr))]) r
  else r.

(** The jogger [newGetJogger] makes for [m] on engine [r]. *)
Definition fresh_jogger (r : XactGet) (m : string) : getJogger :=
  {| mpath := m;
     client := if Net_HTTP_UseHTTPS (config r)
               then NewIntraClientTLS (Client_Timeout (config r))
               else NewClient (Client_Timeout (config r));
     workCh := make_chan (Z.max (Z.of_nat getxBurstSize) (EC_Burst (config r)));
     stopCh := false;
     running := false |}.

(** A heap grows and updates joggers in place, without ever changing
    the mountpath a jogger was made for. *)
Definition heap_le (h h' : list getJogger) : Prop :=
  ∀ l j, h !! l = Some j → ∃ j', h' !! l = Some j' ∧ mpath j' = mpath j.

(** A computation that leaves the mount table alone. *)
Definition keeps_table {A} (c : M XactGet A) : Prop :=
  ∀ r, getJoggers (final (c r)) = getJoggers r ∧ heap_le (heap r) (heap (final (c r))).

(** A computation that preserves the well-formed table. *)
Definition keeps_ok {A} (c : M XactGet A) : Prop :=
  ∀ r, table_ok r → table_ok (final (c r)).

(** Without mount events the loop leaves the table alone. *)
Definition no_mount_event (ev : event) : bool :=
  match ev with EvMpath _ => false | _ => true end.

(** *** Basic facts *)

Ltac munfold :=
  unfold mbind, mret, M_bind, M_ret, get, gets, modify, panic, block,
    debug.Assert, nlog, AddErr, Finish, DemandBase_Stop, ecRequestsEnabled,
    setEcRequestsEnabled, setEcRequestsDisabled, updateQueue, store, alloc in *.

Lemma Abort_live err r :
  live r → Abort err r = Ret true (set_abortErr (Some err) r).
Proof.
  intros [Hf Ha]. unfold Abort. by rewrite Hf, Ha.
Qed.

Lemma Abort_frame err r :
  ∃ b r', Abort err r = Ret b r' ∧
    errs r' = errs r ∧ finished r' = finished r ∧ slices r' = slices r ∧
    getJoggers r' = getJoggers r ∧ heap r' = heap r ∧ xstats r' = xstats r ∧
    errChans r' = errChans r ∧ ecEnabled r' = ecEnabled r ∧ log r' = log r ∧
    (is_Some (abortErr r') ∨ finished r' = true).
Proof.
  unfold Abort. destruct (finished r) eqn:Hf; simpl.
  - exists false, r. repeat split; auto.
  - case_bool_decide as Ha.
    + exists false, r. repeat split; auto.
    + exists true, (set_abortErr (Some err) r). repeat split; simpl; eauto.
Qed.

Lemma stopped_heap_lookup ps h l :
  stopped_heap ps h !! l =
    (λ j, if bool_decide (Some l ∈ ps) then set_stopCh true j else j) <$> h !! l.
Proof. unfold stopped_heap. by rewrite list_lookup_imap. Qed.

Lemma stopped_heap_nil h : stopped_heap [] h = h.
Proof.
  apply list_eq. intros l. rewrite stopped_heap_lookup.
  destruct (h !! l); simpl; [|done].
  first [done | rewrite bool_decide_eq_false_2; [done|]; by intros ?%elem_of_nil].
Qed.

Lemma stopped_heap_cons l j ps h :
  h !! l = Some j →
  stopped_heap ps (<[l := set_stopCh true j]> h) = stopped_heap (Some l :: ps) h.
Proof.
  intros Hl. apply list_eq. intros k. rewrite !stopped_heap_lookup.
  destruct (decide (k = l)) as [->|Hne].
  - rewrite list_lookup_insert_eq by (by eapply lookup_lt_Some).
    rewrite Hl. simpl.
    rewrite (bool_decide_eq_true_2 (Some l ∈ Some l :: ps)) by apply list_elem_of_here.
    by case_bool_decide.
  - rewrite list_lookup_insert_ne by done.
    destruct (h !! k); simpl; [|done].
    assert (Some k ≠ Some l) as Hkl by congruence.
    rewrite (bool_decide_ext (Some k ∈ ps) (Some k ∈ Some l :: ps)); [done|].
    rewrite elem_of_cons. split; [by right|]. by intros [?|?].
Qed.

Lemma range_jog_stop ps r :
  (∀ p, p ∈ ps → ∃ l, p = Some l ∧ is_Some (heap r !! l)) →
  range ps jog_stop r = Ret tt (set_heap (stopped_heap ps (heap r)) r).
Proof.
  revert r. induction ps as [|p ps IH]; intros r Hps.
  - simpl. munfold. rewrite stopped_heap_nil. by destruct r.
  - destruct (Hps p) as (l & -> & [j Hj]); [apply list_elem_of_here|].
    simpl. unfold jog_stop, deref. munfold. rewrite Hj. simpl.
    rewrite IH.
    + simpl. by rewrite (stopped_heap_cons l j).
    + intros p Hp. destruct (Hps p) as (l' & -> & [j' Hj']); [by apply list_elem_of_further|].
      exists l'. split; [done|]. simpl.
      apply lookup_lt_is_Some. rewrite length_insert.
      by eapply lookup_lt_Some.
Qed.

Lemma table_ok_ptrs r p :
  table_ok r → p ∈ (map_to_list (getJoggers r)).*2 →
  ∃ l, p = Some l ∧ is_Some (heap r !! l).
Proof.
  intros Hok Hp. apply list_elem_of_fmap in Hp as ([m p'] & -> & Hin).
  apply elem_of_map_to_list in Hin. simpl.
  destruct (Hok m p' Hin) as (l & j & -> & Hj & _). eauto.
Qed.

Lemma stop_table_ok r :
  table_ok r →
  stop r = Ret tt (set_finished true
             (set_heap (stopped_heap (map_to_list (getJoggers r)).*2 (heap r))
                (set_idleStopped true r))).
Proof.
  intros Hok. unfold stop. munfold. simpl.
  rewrite range_jog_stop; [done|].
  intros p Hp. by apply (table_ok_ptrs r).
Qed.

(** After [stop] every jogger of the table has its stop channel closed. *)
Lemma stop_stops_all r m p :
  table_ok r → getJoggers r !! m = Some p →
  ∃ l j, p = Some l ∧
    stopped_heap (map_to_list (getJoggers r)).*2 (heap r) !! l = Some j ∧
    mpath j = m ∧ stopCh j = true.
Proof.
  intros Hok Hm. destruct (Hok m p Hm) as (l & j & -> & Hj & Hmp).
  exists l, (set_stopCh true j). split; [done|].
  rewrite stopped_heap_lookup, Hj. simpl.
  rewrite bool_decide_eq_true_2; [done|].
  apply list_elem_of_fmap. exists (m, Some l). split; [done|].
  by apply elem_of_map_to_list.
Qed.

(** *** Slice responses *)

Lemma dispatchResp_respPut iReq hdr bck reader r :
  Opcode hdr = respPut →
  dispatchResp iReq hdr bck reader r =
    match slices r !! unique (SID hdr) bck (ObjName hdr) with
    | None => AddErr (no_slice_writer bck (ObjName hdr)) (traced hdr bck r)
    | Some writer =>
        let '(writer', res) :=
          _writerReceive writer (exists_ iReq) (hdr_ObjAttrs hdr) reader in
        let r1 := set_slices (<[unique (SID hdr) bck (ObjName hdr) := writer']> (slices r))
                    (traced hdr bck r) in
        match res with
        | Some err =>
            let errN := failed_to_read bck (ObjName hdr) err in
            if bool_decide (err = io_ErrUnexpectedEOF) || errors_Is err io_ErrUnexpectedEOF
            then (Abort errN ≫= λ _, mret tt) (set_errs (errs r ++ [errN]) r1)
            else Ret tt (set_errs (errs r ++ [errN]) r1)
        | None => Ret tt r1
        end
    end.
Proof.
  intros Hop. unfold dispatchResp, traced. rewrite bool_decide_eq_true_2 by done.
  munfold. simpl.
  destruct (FastV4_EC (config r)); simpl;
    (destruct (slices r !! _) as [w|]; [|done]);
    (destruct (_writerReceive _ _ _ _) as [w' [err|]]; [|done]); simpl;
    by destruct (_ || _).
Qed.

(** C2.  A [respPut] response whose unique name has no registered writer
    is answered by joining a "no slice writer" error to the engine's
    errors and returning: the registration map, every writer in it, the
    abort state, the joggers and the statistics are as before, and the
    outcome is the same whatever the payload reader holds, so nothing
    was read from it. *)
Theorem dispatchResp_no_writer iReq hdr bck reader r :
  Opcode hdr = respPut →
  slices r !! unique (SID hdr) bck (ObjName hdr) = None →
  ∃ r',
    dispatchResp iReq hdr bck reader r = Ret tt r' ∧
    errs r' = (errs r ++ [no_slice_writer bck (ObjName hdr)])%list ∧
    slices r' = slices r ∧
    abortErr r' = abortErr r ∧ finished r' = finished r ∧
    getJoggers r' = getJoggers r ∧ heap r' = heap r ∧ xstats r' = xstats r ∧
    (∀ iReq' reader', dispatchResp iReq' hdr bck reader' r = Ret tt r').
Proof.
  intros Hop Hno.
  exists (set_errs (errs r ++ [no_slice_writer bck (ObjName hdr)]) (traced hdr bck r)).
  assert (∀ i rd, dispatchResp i hdr bck rd r =
            Ret tt (set_errs (errs r ++ [no_slice_writer bck (ObjName hdr)]) (traced hdr bck r))) as Heq.
  { intros i rd. rewrite dispatchResp_respPut by done. rewrite Hno.
    unfold AddErr, modify, traced. by destruct (FastV4_EC (config r)). }
  split; [apply Heq|].
  repeat split; try apply Heq; unfold traced; by destruct (FastV4_EC (config r)).
Qed.

Lemma table_ok_ext r r' :
  getJoggers r' = getJoggers r → heap r' = heap r → table_ok r → table_ok r'.
Proof. unfold table_ok. intros -> ->. done. Qed.

(** Once the abort channel is closed, the control loop that receives
    from it stops the joggers and finishes, the cause staying in place. *)
Lemma Run_loop_abort r evs err :
  table_ok r → abortErr r = Some err →
  ∃ r', Run_loop (EvAbort :: evs) r = Ret tt r' ∧
        finished r' = true ∧ abortErr r' = Some err ∧ errs r' = errs r.
Proof.
  intros Hok Ha. simpl. munfold. rewrite Ha. simpl.
  rewrite stop_table_ok by done. eexists. split; [done|]. by simpl.
Qed.

(** C1.  A [respPut] response for a registered writer whose transfer
    ends in an unexpected EOF: the read error (wrapping the cause) is
    joined to the engine's errors and [Abort] is called with it; on a
    live engine it becomes the abort cause, and the control loop, on
    receiving from the abort channel, finishes the engine with that
    cause.  For any opcode other than [respPut] no writer, error list or
    abort state changes; the violation is reported through the error log
    (and by the failed assertion of a debug build). *)
Theorem dispatchResp_truncated_aborts iReq hdr bck reader r :
  (∀ w w' err,
     Opcode hdr = respPut →
     slices r !! unique (SID hdr) bck (ObjName hdr) = Some w →
     _writerReceive w (exists_ iReq) (hdr_ObjAttrs hdr) reader = (w', Some err) →
     errors_Is err io_ErrUnexpectedEOF = true →
     let errN := failed_to_read bck (ObjName hdr) err in
     ∃ r0 b r',
       dispatchResp iReq hdr bck reader r = Ret tt r' ∧
       errs r0 = (errs r ++ [errN])%list ∧
       Abort errN r0 = Ret b r' ∧
       errs r' = (errs r ++ [errN])%list ∧
       (is_Some (abortErr r') ∨ finished r' = true) ∧
       (live r →
          abortErr r' = Some errN ∧
          (table_ok r → ∀ evs, ∃ r'',
             Run_loop (EvAbort :: evs) r' = Ret tt r'' ∧
             finished r'' = true ∧ abortErr r'' = Some errN))) ∧
  (Opcode hdr ≠ respPut →
     let o := dispatchResp iReq hdr bck reader r in
     slices (final o) = slices r ∧ errs (final o) = errs r ∧
     abortErr (final o) = abortErr r ∧
     o = if debug_ON
         then Panic ("assertion failed: " ++ invalOpcode ++ " " ++ pretty (Opcode hdr)) r
         else Ret tt (set_log (log r ++
                [(Error, xname r ++ " " ++ invalOpcode ++ " " ++ pretty (Opcode hdr))]) r)).
Proof.
  split.
  - intros w w' err Hop Hw Hrecv Heof errN.
    set (r1 := set_slices (<[unique (SID hdr) bck (ObjName hdr) := w']> (slices r))
                 (traced hdr bck r)).
    set (r0 := set_errs (errs r ++ [errN]) r1).
    assert (getJoggers r0 = getJoggers r ∧ heap r0 = heap r ∧
            finished r0 = finished r ∧ abortErr r0 = abortErr r) as (Hj & Hh & Hf & Ha).
    { unfold r0, r1, traced. by destruct (FastV4_EC (config r)). }
    destruct (Abort_frame errN r0) as (b & r' & HA & He & Hf' & _ & Hj' & Hh' & _ & _ & _ & _ & Hab).
    assert (dispatchResp iReq hdr bck reader r = Ret tt r') as Hrun.
    { rewrite dispatchResp_respPut by done. rewrite Hw, Hrecv. simpl.
      rewrite Heof, orb_true_r. fold errN. fold r1. fold r0.
      unfold mbind, M_bind. by rewrite HA. }
    exists r0, b, r'. split_and!; try done.
    intros [Hlf Hla].
    rewrite Abort_live in HA by (split; congruence).
    injection HA as _ <-. split; [done|].
    intros Hok evs.
    destruct (Run_loop_abort (set_abortErr (Some errN) r0) evs errN)
      as (r'' & ? & ? & ? & _); [|done|by exists r''].
    by apply (table_ok_ext r).
  - intros Hop o. subst o. unfold dispatchResp.
    rewrite bool_decide_eq_false_2 by done. munfold.
    by destruct debug_ON.
Qed.

(** *** The control loop *)

(** C6.  On a [ClearRequests] message the loop disables admission, stops
    every jogger of the table, finishes the engine and returns; what it
    leaves is the same whatever events would have followed (none is
    consumed, so nothing re-enables admission).  On an [EnableRequests]
    message it enables admission and goes on with the next event; with
    admission already enabled the engine is unchanged. *)
Theorem Run_loop_control r evs :
  table_ok r →
  ActClearRequests ≠ ActEnableRequests →
  (∃ r', (∀ evs', Run_loop (ClearRequests :: evs') r = Ret tt r') ∧
         ecEnabled r' = false ∧ finished r' = true ∧ idleStopped r' = true ∧
         getJoggers r' = getJoggers r ∧
         (∀ m p, getJoggers r !! m = Some p →
            ∃ l j, p = Some l ∧ heap r' !! l = Some j ∧ mpath j = m ∧ stopCh j = true)) ∧
  Run_loop (EnableRequests :: evs) r = Run_loop evs (set_ecEnabled true r) ∧
  (ecEnabled r = true → set_ecEnabled true r = r).
Proof.
  intros Hok Hne. split_and!.
  - eexists. split_and!.
    + intros evs'. simpl. rewrite bool_decide_eq_false_2 by done.
      rewrite bool_decide_eq_true_2 by done. munfold. simpl.
      rewrite andb_false_r. munfold. simpl.
      rewrite stop_table_ok; [done|]. by apply (table_ok_ext r).
    + done.
    + done.
    + done.
    + done.
    + intros m p Hm. simpl. by apply stop_stops_all.
  - simpl. by rewrite bool_decide_eq_true_2 by done.
  - intros He. destruct r; simpl in *. by subst.
Qed.

(** *** Dispatching a request *)

(** C4.  With admission disabled [dispatchReq] never reaches a jogger:
    whatever its outcome, the joggers, their queues, the mount table,
    the statistics, the error list and the abort state are as before.
    Without an error channel it returns [ErrorECDisabled] and changes
    nothing; with an open error channel that can take a value, the
    channel receives [ErrorECDisabled] and is closed, and the same error
    is returned.  The send is a plain one: on an open error channel that
    cannot take the value (unbuffered or full, no receiver parked) the
    call parks at the send with the engine unchanged, and on an error
    channel that is already closed it panics, again with the engine
    unchanged; in neither case is anything returned. *)
Theorem dispatchReq_disabled req lom r :
  ecEnabled r = false →
  let o := dispatchReq req lom r in
  (heap (final o) = heap r ∧ getJoggers (final o) = getJoggers r ∧
   xstats (final o) = xstats r ∧ errs (final o) = errs r ∧
   abortErr (final o) = abortErr r ∧ slices (final o) = slices r) ∧
  (ErrCh req = None → o = Ret (Some ErrorECDisabled) r) ∧
  (∀ ch c, ErrCh req = Some ch → errChans r !! ch = Some c →
     closed c = false → chan_len c < cap c →
     o = Ret (Some ErrorECDisabled)
           (set_errChans (<[ch := Chan (buf c ++ [ErrorECDisabled]) (cap c) true]> (errChans r)) r)) ∧
  (∀ ch c, ErrCh req = Some ch → errChans r !! ch = Some c →
     closed c = false → (cap c ≤ chan_len c)%Z → o = Block r) ∧
  (∀ ch c, ErrCh req = Some ch → errChans r !! ch = Some c →
     closed c = true → o = Panic "send on closed channel" r).
Proof.
  intros Hdis o. subst o. unfold dispatchReq. munfold. simpl. rewrite Hdis. simpl.
  split; [|split; [|split; [|split]]]; cycle 3.
  - intros ch c -> Hc Hopen Hfull.
    unfold send_err, chan_send. munfold.
    rewrite Hc, Hopen. by rewrite bool_decide_eq_false_2 by lia.
  - intros ch c -> Hc Hclosed.
    unfold send_err, chan_send. munfold. by rewrite Hc, Hclosed.
  - destruct (ErrCh req) as [ch|]; [|done].
    unfold send_err, close_err. munfold.
    destruct (errChans r !! ch) as [c|] eqn:Hc; [|done].
    destruct (chan_send ErrorECDisabled c) as [c'| |]; [|done..]. simpl.
    rewrite list_lookup_insert_eq by (by eapply lookup_lt_Some).
    by destruct (chan_close c').
  - by intros ->.
  - intros ch c -> Hc Hopen Hroom.
    unfold send_err, close_err, chan_send. munfold.
    rewrite Hc, Hopen. rewrite bool_decide_eq_true_2 by done. simpl.
    rewrite list_lookup_insert_eq by (by eapply lookup_lt_Some).
    unfold chan_close. simpl. by rewrite list_insert_insert_eq.
Qed.

(** C3.  An unknown mount is fatal.  [dispatchReq] (admission enabled;
    the request is a restore, or assertions are compiled out) on a
    mountpath without a table entry returns the lost-mountpath error
    after calling [Abort] with it, and touches no jogger, queue or
    statistic.  [removeMpath] (assertions compiled out) on a mountpath
    without a table entry calls [Abort] with an "invalid or lost
    mountpath" error and leaves table and joggers alone.  A live engine
    ends up aborted with that very error as the cause. *)
Theorem unknown_mount_is_fatal r :
  (∀ req lom,
     ecEnabled r = true →
     debug_ON = false ∨ Action req = ActRestore →
     getJoggers r !! lom_MountpathPath lom = None →
     let err := errLossMpath (xname r) lom in
     ∃ b r',
       dispatchReq req lom r = Ret (Some err) r' ∧
       Abort err r = Ret b r' ∧
       heap r' = heap r ∧ getJoggers r' = getJoggers r ∧ xstats r' = xstats r ∧
       (is_Some (abortErr r') ∨ finished r' = true) ∧
       (live r → abortErr r' = Some err)) ∧
  (∀ mpath,
     debug_ON = false →
     getJoggers r !! mpath = None →
     let err := fmt_Errorf (xname r ++ ": invalid or lost mountpath " ++ strconv_Quote mpath) in
     ∃ b r',
       removeMpath mpath r = Ret tt r' ∧
       Abort err r = Ret b r' ∧
       heap r' = heap r ∧ getJoggers r' = getJoggers r ∧ xstats r' = xstats r ∧
       (is_Some (abortErr r') ∨ finished r' = true) ∧
       (live r → abortErr r' = Some err)).
Proof.
  split.
  - intros req lom Hen Hdbg Hno err.
    destruct (Abort_frame err r) as (b & r' & HA & _ & _ & _ & Hj & Hh & Hs & _ & _ & _ & Hab).
    exists b, r'. split_and!; try done.
    + unfold dispatchReq. munfold. simpl. rewrite Hen. simpl.
      assert (debug_ON && negb (bool_decide (Action req = ActRestore)) = false) as ->.
      { destruct Hdbg as [->| ->]; [done|].
        rewrite bool_decide_eq_true_2 by done. apply andb_false_r. }
      munfold. simpl. rewrite Hno. fold err. by rewrite HA.
    + intros Hl. rewrite Abort_live in HA by done. by injection HA as _ <-.
  - intros mpath Hdbg Hno err.
    destruct (Abort_frame err r) as (b & r' & HA & _ & _ & _ & Hj & Hh & Hs & _ & _ & _ & Hab).
    exists b, r'. split_and!; try done.
    + unfold removeMpath. munfold. simpl. rewrite Hno, Hdbg. simpl. fold err. by rewrite HA.
    + intros Hl. rewrite Abort_live in HA by done. by injection HA as _ <-.
Qed.

(** *** The mount table *)

Lemma heap_le_refl h : heap_le h h.
Proof. intros l j ?. eauto. Qed.

Lemma heap_le_trans h1 h2 h3 : heap_le h1 h2 → heap_le h2 h3 → heap_le h1 h3.
Proof.
  intros H12 H23 l j Hj. destruct (H12 l j Hj) as (j' & Hj' & E1).
  destruct (H23 l j' Hj') as (j'' & Hj'' & E2). exists j''. split; congruence.
Qed.

Lemma heap_le_insert h l j j' :
  h !! l = Some j → mpath j' = mpath j → heap_le h (<[l := j']> h).
Proof.
  intros Hl Hm k jk Hk. destruct (decide (k = l)) as [->|Hne].
  - exists j'. rewrite list_lookup_insert_eq by (by eapply lookup_lt_Some).
    split; congruence.
  - exists jk. by rewrite list_lookup_insert_ne.
Qed.

Lemma heap_le_app h j : heap_le h (h ++ [j]).
Proof. intros l jl Hl. exists jl. split; [|done]. by apply lookup_app_l_Some. Qed.

Lemma table_ok_heap_le r r' :
  getJoggers r' = getJoggers r → heap_le (heap r) (heap r') → table_ok r → table_ok r'.
Proof.
  intros Ht Hh Hok m p Hm. rewrite Ht in Hm.
  destruct (Hok m p Hm) as (l & j & -> & Hj & Hmp).
  destruct (Hh l j Hj) as (j' & Hj' & E). exists l, j'. split_and!; congruence.
Qed.

Lemma keeps_table_ok {A} (c : M XactGet A) : keeps_table c → keeps_ok c.
Proof. intros Hc r Hok. destruct (Hc r). by apply (table_ok_heap_le r). Qed.

Lemma keeps_table_bind {A B} (c : M XactGet A) (k : A → M XactGet B) :
  keeps_table c → (∀ a, keeps_table (k a)) → keeps_table (c ≫= k).
Proof.
  intros Hc Hk r. specialize (Hc r). unfold mbind, M_bind.
  destruct (c r) as [a s| |]; simpl in *; try done.
  destruct (Hk a s) as [Ht Hh]. destruct Hc as [Ht' Hh'].
  split; [congruence|]. by eapply heap_le_trans.
Qed.

Lemma keeps_ok_bind {A B} (c : M XactGet A) (k : A → M XactGet B) :
  keeps_ok c → (∀ a, keeps_ok (k a)) → keeps_ok (c ≫= k).
Proof.
  intros Hc Hk r Hok. specialize (Hc r Hok). unfold mbind, M_bind.
  destruct (c r) as [a s| |]; simpl in *; try done. by apply Hk.
Qed.

Lemma keeps_table_ret {A} (a : A) : keeps_table (mret a).
Proof. intros r. split; [done|apply heap_le_refl]. Qed.

Lemma keeps_table_pure {A} (c : M XactGet A) :
  (∀ r, final (c r) = r) → keeps_table c.
Proof. intros Hc r. rewrite Hc. split; [done|apply heap_le_refl]. Qed.

Lemma keeps_table_modify (f : XactGet → XactGet) :
  (∀ r, getJoggers (f r) = getJoggers r ∧ heap (f r) = heap r) → keeps_table (modify f).
Proof.
  intros Hf r. unfold modify. simpl. destruct (Hf r) as [-> ->].
  split; [done|apply heap_le_refl].
Qed.

Lemma keeps_table_range {A} (xs : list A) (body : A → M XactGet unit) :
  (∀ x, keeps_table (body x)) → keeps_table (range xs body).
Proof.
  intros Hb. induction xs as [|x xs IH]; simpl.
  - apply keeps_table_ret.
  - apply keeps_table_bind; [apply Hb|done].
Qed.

Lemma keeps_table_deref p : keeps_table (deref p).
Proof.
  apply keeps_table_pure. intros r. unfold deref.
  destruct p as [l|]; [|done]. by destruct (heap r !! l).
Qed.

Lemma deref_Ret p r l j r' : deref p r = Ret (l, j) r' → r' = r ∧ heap r !! l = Some j.
Proof.
  unfold deref. destruct p as [l'|]; [|done].
  destruct (heap r !! l') eqn:E; [|done]. intros [= -> -> ->]. done.
Qed.

(** In-place update of a jogger that keeps its mountpath. *)
Lemma keeps_table_update p (f : getJogger → getJogger) :
  (∀ j, mpath (f j) = mpath j) →
  keeps_table ('(l, j) ← deref p; store l (f j)).
Proof.
  intros Hf r. unfold mbind, M_bind.
  destruct (deref p r) as [[l j] s| |] eqn:E.
  - apply deref_Ret in E as [-> Hj]. unfold store, modify. simpl.
    split; [done|]. by eapply heap_le_insert.
  - unfold deref in E. destruct p as [l|]; [destruct (heap r !! l)|]; simplify_eq; simpl;
      (split; [done|apply heap_le_refl]).
  - unfold deref in E. destruct p as [l|]; [destruct (heap r !! l)|]; simplify_eq.
Qed.

Lemma keeps_table_jog_stop p : keeps_table (jog_stop p).
Proof. by apply keeps_table_update. Qed.

Lemma keeps_table_go_jog_run p : keeps_table (go_jog_run p).
Proof. by apply keeps_table_update. Qed.

Lemma keeps_table_Abort err : keeps_table (Abort err).
Proof.
  intros r. destruct (Abort_frame err r) as (b & r' & -> & _ & _ & _ & Ht & Hh & _).
  simpl. rewrite Ht, Hh. split; [done|apply heap_le_refl].
Qed.

Lemma keeps_table_Assert c msg : keeps_table (debug.Assert (S:=XactGet) debug_ON c msg).
Proof. apply keeps_table_pure. intros r. unfold debug.Assert. by destruct (_ && _). Qed.

Lemma keeps_table_nlog lv msg : keeps_table (nlog lv msg).
Proof. by apply keeps_table_modify. Qed.

Lemma keeps_table_stop : keeps_table stop.
Proof.
  unfold stop. apply keeps_table_bind; [by apply keeps_table_modify|]. intros _.
  apply keeps_table_bind; [by apply keeps_table_pure|]. intros r.
  apply keeps_table_bind; [|intros _; by apply keeps_table_modify].
  apply keeps_table_range, keeps_table_jog_stop.
Qed.

Lemma keeps_table_dispatchResp iReq hdr bck reader :
  keeps_table (dispatchResp iReq hdr bck reader).
Proof.
  unfold dispatchResp. case_bool_decide.
  - apply keeps_table_bind; [by apply keeps_table_pure|]. intros r.
    apply keeps_table_bind.
    { destruct (FastV4_EC _); [apply keeps_table_nlog|apply keeps_table_ret]. }
    intros _. apply keeps_table_bind; [by apply keeps_table_pure|]. intros r'.
    destruct (slices r' !! _) as [w|]; [|by apply keeps_table_modify].
    destruct (_writerReceive _ _ _ _) as [w' res].
    apply keeps_table_bind; [by apply keeps_table_modify|]. intros _.
    destruct res as [err|]; [|apply keeps_table_ret].
    apply keeps_table_bind; [by apply keeps_table_modify|]. intros _.
    destruct (_ || _); [|apply keeps_table_ret].
    apply keeps_table_bind; [apply keeps_table_Abort|]. intros _. apply keeps_table_ret.
  - apply keeps_table_bind; [apply keeps_table_Assert|]. intros _.
    apply keeps_table_bind; [by apply keeps_table_pure|]. intros r.
    apply keeps_table_nlog.
Qed.

Lemma keeps_table_send_err ch v : keeps_table (send_err ch v).
Proof.
  intros r. unfold send_err. destruct (errChans r !! ch) as [c|];
    [destruct (chan_send v c)|]; simpl; (split; [done|apply heap_le_refl]).
Qed.

Lemma keeps_table_close_err ch : keeps_table (close_err ch).
Proof.
  intros r. unfold close_err. destruct (errChans r !! ch) as [c|];
    [destruct (chan_close c)|]; simpl; (split; [done|apply heap_le_refl]).
Qed.

Lemma keeps_table_dispatchReq req lom : keeps_table (dispatchReq req lom).
Proof.
  unfold dispatchReq.
  apply keeps_table_bind; [by apply keeps_table_pure|]. intros en.
  destruct en; simpl.
  - apply keeps_table_bind; [apply keeps_table_Assert|]. intros _.
    apply keeps_table_bind; [by apply keeps_table_pure|]. intros r.
    destruct (getJoggers r !! _) as [p|].
    + intros r0. unfold mbind, M_bind.
      destruct (deref p r0) as [[l j] s| |] eqn:E.
      * apply deref_Ret in E as [-> Hj]. unfold updateQueue, modify. simpl.
        destruct (chan_send req (workCh j)); unfold store, modify, block, panic; simpl;
          (split; [done|]); try apply heap_le_refl. by eapply heap_le_insert.
      * assert (s = r0) as -> by (unfold deref in E;
          destruct p as [l|]; [destruct (heap r0 !! l)|]; by simplify_eq).
        simpl. split; [done|apply heap_le_refl].
      * assert (s = r0) as -> by (unfold deref in E;
          destruct p as [l|]; [destruct (heap r0 !! l)|]; by simplify_eq).
        simpl. split; [done|apply heap_le_refl].
    + apply keeps_table_bind; [apply keeps_table_Abort|]. intros _. apply keeps_table_ret.
  - apply keeps_table_bind; [|intros _; apply keeps_table_ret].
    destruct (ErrCh req) as [ch|]; [|apply keeps_table_ret].
    apply keeps_table_bind; [apply keeps_table_send_err|]. intros _.
    apply keeps_table_close_err.
Qed.

Lemma newGetJogger_eq m r :
  newGetJogger m r =
    Ret (Some (length (heap r))) (set_heap (heap r ++ [fresh_jogger r m]) r).
Proof. done. Qed.

Lemma setJogger_eq m r :
  setJogger m r =
    Ret tt (set_getJoggers (<[m := Some (length (heap r))]> (getJoggers r))
              (set_heap (heap r ++ [fresh_jogger r m]) r)).
Proof. done. Qed.

Lemma table_ok_add r r' m j :
  getJoggers r' = <[m := Some (length (heap r))]> (getJoggers r) →
  heap r' = (heap r ++ [j])%list → mpath j = m →
  table_ok r → table_ok r'.
Proof.
  intros Ht Hh Hj Hok m' p Hm'. rewrite Ht in Hm'. rewrite Hh.
  apply lookup_insert_Some in Hm' as [[<- <-]|[Hne Hm']].
  - exists (length (heap r)), j. split_and!; [done| |done].
    by apply list_lookup_middle.
  - destruct (Hok m' p Hm') as (l & j' & -> & Hl & Hmp).
    exists l, j'. split_and!; [done| |done]. by apply lookup_app_l_Some.
Qed.

Lemma table_ok_remove r r' m l j :
  getJoggers r' = delete m (getJoggers r) →
  heap r' = <[l := set_stopCh true j]> (heap r) → heap r !! l = Some j →
  table_ok r → table_ok r'.
Proof.
  intros Ht Hh Hj Hok m' p Hm'. rewrite Ht in Hm'. rewrite Hh.
  apply lookup_delete_Some in Hm' as [Hne Hm'].
  destruct (Hok m' p Hm') as (l' & j' & -> & Hl & Hmp).
  destruct (heap_le_insert (heap r) l j (set_stopCh true j) Hj eq_refl l' j' Hl)
    as (j'' & ? & ?).
  exists l', j''. split_and!; congruence.
Qed.

Lemma addMpath_known m r l :
  getJoggers r !! m = Some (Some l) →
  addMpath m r =
    Ret tt (set_log (log r ++ [(Warning, "Attempted to add already existing mountpath: " ++ m)]) r).
Proof. intros Hm. unfold addMpath. munfold. simpl. by rewrite Hm. Qed.

Lemma go_jog_run_last s h j :
  heap s = (h ++ [j])%list →
  go_jog_run (Some (length h)) s = Ret tt (set_heap (h ++ [set_running true j]) s).
Proof.
  intros Hh. unfold go_jog_run, deref. munfold. rewrite Hh.
  rewrite list_lookup_middle by done. simpl. unfold modify.
  rewrite Hh, insert_app_r_alt by done. by rewrite Nat.sub_diag.
Qed.

Lemma addMpath_unfold m r :
  addMpath m r =
    match getJoggers r !! m with
    | Some (Some _) =>
        nlog Warning ("Attempted to add already existing mountpath: " ++ m) r
    | _ =>
        go_jog_run (Some (length (heap r)))
          (set_getJoggers (<[m := Some (length (heap r))]> (getJoggers r))
             (set_heap (heap r ++ [fresh_jogger r m]) r))
    end.
Proof. unfold addMpath. munfold. simpl. by destruct (getJoggers r !! m) as [[?|]|]. Qed.

Lemma addMpath_new m r :
  (∀ l, getJoggers r !! m ≠ Some (Some l)) →
  addMpath m r =
    Ret tt (set_getJoggers (<[m := Some (length (heap r))]> (getJoggers r))
              (set_heap (heap r ++ [set_running true (fresh_jogger r m)]) r)).
Proof.
  intros Hm. rewrite addMpath_unfold.
  destruct (getJoggers r !! m) as [[l|]|] eqn:E; [by destruct (Hm l)|..];
    by rewrite (go_jog_run_last _ (heap r) (fresh_jogger r m)).
Qed.

Lemma removeMpath_known m r l j :
  getJoggers r !! m = Some (Some l) → heap r !! l = Some j →
  removeMpath m r =
    Ret tt (set_getJoggers (delete m (getJoggers r))
              (set_heap (<[l := set_stopCh true j]> (heap r)) r)).
Proof.
  intros Hm Hj. unfold removeMpath, jog_stop, deref. munfold. simpl.
  rewrite Hm. simpl. by rewrite Hj.
Qed.

Lemma keeps_ok_addMpath m : keeps_ok (addMpath m).
Proof.
  intros r Hok. destruct (getJoggers r !! m) as [p|] eqn:E.
  - destruct (Hok m p E) as (l & j & -> & _ & _).
    rewrite (addMpath_known m r l) by done. by apply (table_ok_ext r).
  - rewrite addMpath_new by (intros l; congruence).
    by eapply (table_ok_add r).
Qed.

Lemma keeps_ok_removeMpath m : keeps_ok (removeMpath m).
Proof.
  intros r Hok. destruct (getJoggers r !! m) as [p|] eqn:E.
  - destruct (Hok m p E) as (l & j & -> & Hj & _).
    rewrite (removeMpath_known m r l j) by done. by eapply (table_ok_remove r).
  - unfold removeMpath. munfold. simpl. rewrite E.
    destruct debug_ON; simpl; [done|].
    destruct (Abort_frame (fmt_Errorf (xname r ++ ": invalid or lost mountpath " ++ strconv_Quote m)) r)
      as (b & r' & -> & _ & _ & _ & Ht & Hh & _).
    simpl. by apply (table_ok_ext r).
Qed.

Lemma keeps_ok_Run_loop evs : keeps_ok (Run_loop evs).
Proof.
  induction evs as [|ev evs IH]; simpl.
  - apply keeps_ok_bind; [by apply keeps_table_ok, keeps_table_pure|]. intros r.
    case_bool_decide; [apply keeps_table_ok, keeps_table_stop|by intros r' Hok].
  - destruct ev as [|q| |msg|].
    + apply keeps_ok_bind; [by apply keeps_table_ok, keeps_table_pure|]. intros r.
      apply keeps_ok_bind; [|done]. apply keeps_table_ok.
      destruct (FastV4_EC _); [|apply keeps_table_ret].
      case_bool_decide; [apply keeps_table_nlog|apply keeps_table_ret].
    + apply keeps_ok_bind; [|done].
      case_bool_decide; [apply keeps_ok_addMpath|].
      case_bool_decide; [apply keeps_ok_removeMpath|].
      apply keeps_table_ok, keeps_table_ret.
    + apply keeps_table_ok, keeps_table_stop.
    + case_bool_decide.
      * apply keeps_ok_bind; [by apply keeps_table_ok, keeps_table_modify|done].
      * apply keeps_ok_bind; [apply keeps_table_ok, keeps_table_Assert|]. intros _.
        apply keeps_ok_bind; [by apply keeps_table_ok, keeps_table_modify|]. intros _.
        apply keeps_table_ok, keeps_table_stop.
    + apply keeps_ok_bind; [by apply keeps_table_ok, keeps_table_pure|]. intros r.
      case_bool_decide; [apply keeps_table_ok, keeps_table_stop|done].
Qed.

Lemma keeps_ok_Run evs : keeps_ok (Run evs).
Proof.
  unfold Run.
  apply keeps_ok_bind; [by apply keeps_table_ok, keeps_table_pure|]. intros r.
  apply keeps_ok_bind; [apply keeps_table_ok, keeps_table_nlog|]. intros _.
  apply keeps_ok_bind.
  { apply keeps_table_ok, keeps_table_range, keeps_table_go_jog_run. }
  intros _. apply keeps_ok_bind.
  { apply keeps_table_ok. case_bool_decide; [by apply keeps_table_pure|apply keeps_table_ret]. }
  intros _. apply keeps_ok_bind; [by apply keeps_table_ok, keeps_table_modify|]. intros _.
  apply keeps_ok_bind; [by apply keeps_table_ok, keeps_table_pure|]. intros r'.
  apply keeps_ok_bind; [|intros _; apply keeps_ok_Run_loop].
  apply keeps_table_ok. case_bool_decide; [by apply keeps_table_pure|by apply keeps_table_modify].
Qed.

Lemma keeps_ok_GoRunW evs : keeps_ok (GoRunW evs).
Proof.
  unfold GoRunW.
  apply keeps_ok_bind; [by apply keeps_table_ok, keeps_table_modify|].
  intros _. apply keeps_ok_Run.
Qed.

(** Without mount events the loop leaves the table alone. *)
Lemma keeps_table_Run_loop evs :
  forallb no_mount_event evs = true → keeps_table (Run_loop evs).
Proof.
  induction evs as [|ev evs IH]; simpl.
  - intros _. apply keeps_table_bind; [by apply keeps_table_pure|]. intros r.
    case_bool_decide; [apply keeps_table_stop|by apply keeps_table_pure].
  - intros [Hev Hevs]%andb_true_iff. specialize (IH Hevs).
    destruct ev as [|q| |msg|]; try done.
    + apply keeps_table_bind; [by apply keeps_table_pure|]. intros r.
      apply keeps_table_bind; [|done].
      destruct (FastV4_EC _); [|apply keeps_table_ret].
      case_bool_decide; [apply keeps_table_nlog|apply keeps_table_ret].
    + apply keeps_table_stop.
    + case_bool_decide.
      * apply keeps_table_bind; [by apply keeps_table_modify|done].
      * apply keeps_table_bind; [apply keeps_table_Assert|]. intros _.
        apply keeps_table_bind; [by apply keeps_table_modify|]. intros _.
        apply keeps_table_stop.
    + apply keeps_table_bind; [by apply keeps_table_pure|]. intros r.
      case_bool_decide; [apply keeps_table_stop|done].
Qed.

Lemma range_setJogger ks r :
  ∃ r', range ks setJogger r = Ret tt r' ∧
        dom (getJoggers r') = list_to_set ks ∪ dom (getJoggers r) ∧
        (table_ok r → table_ok r').
Proof.
  revert r. induction ks as [|k ks IH]; intros r; simpl.
  - exists r. split_and!; [done|by rewrite (left_id_L ∅ (∪))|done].
  - unfold mbind, M_bind. rewrite setJogger_eq.
    destruct (IH (set_getJoggers (<[k := Some (length (heap r))]> (getJoggers r))
                    (set_heap (heap r ++ [fresh_jogger r k]) r)))
      as (r' & Hrun & Hdom & Hok).
    exists r'. split_and!; [done| |].
    + rewrite Hdom. simpl. rewrite dom_insert_L. apply union_shuffle.
    + intros Hr. apply Hok. by eapply (table_ok_add r).
Qed.

Lemma keys_dom (mpi : MPI) : list_to_set (map_to_list mpi).*1 = dom mpi.
Proof. apply leibniz_equiv. by rewrite <-dom_alt. Qed.

Lemma newGetXact_table name conf avail disabled :
  dom (getJoggers (newGetXact name conf avail disabled)) = dom avail ∪ dom disabled ∧
  table_ok (newGetXact name conf avail disabled).
Proof.
  unfold newGetXact. simpl. unfold mbind, M_bind.
  destruct (range_setJogger (map_to_list avail).*1 (init name conf))
    as (r1 & -> & Hd1 & Hok1).
  destruct (range_setJogger (map_to_list disabled).*1 r1) as (r2 & -> & Hd2 & Hok2).
  simpl. split.
  - rewrite Hd2, Hd1, !keys_dom. simpl. rewrite dom_empty_L.
    by rewrite (right_id_L ∅ (∪)), (comm_L (∪)).
  - apply Hok2, Hok1. intros m p Hm. simpl in Hm. by rewrite lookup_empty in Hm.
Qed.

(** C5.  One jogger per known mount.  Construction gives every
    mountpath that [fs.Get] reports, available or disabled, an entry of
    its own, and the table stays well formed (each entry points to a
    jogger made for that mountpath) through every run of the engine and of
    its control loop.  [addMpath] adds an entry, with a fresh running jogger, only
    for a mountpath not in the table; [removeMpath] of a known mountpath
    stops its jogger and deletes the entry.  Nothing else changes the
    table: not [dispatchResp], [dispatchReq] or [stop], and not the
    loop as long as it receives no mount event. *)
Theorem one_jogger_per_mount name conf avail disabled :
  (dom (getJoggers (newGetXact name conf avail disabled)) = dom avail ∪ dom disabled ∧
   table_ok (newGetXact name conf avail disabled) ∧
   ∀ evs, table_ok (final (GoRunW evs (newGetXact name conf avail disabled)))) ∧
  (∀ r evs, table_ok r → table_ok (final (Run_loop evs r))) ∧
  (∀ r m, table_ok r →
     ∃ r', addMpath m r = Ret tt r' ∧ table_ok r' ∧
       dom (getJoggers r') = {[m]} ∪ dom (getJoggers r) ∧
       (m ∈ dom (getJoggers r) → getJoggers r' = getJoggers r ∧ heap r' = heap r) ∧
       (m ∉ dom (getJoggers r) →
          getJoggers r' = <[m := Some (length (heap r))]> (getJoggers r) ∧
          heap r' = (heap r ++ [set_running true (fresh_jogger r m)])%list)) ∧
  (∀ r m, table_ok r → m ∈ dom (getJoggers r) →
     ∃ l j r', getJoggers r !! m = Some (Some l) ∧ heap r !! l = Some j ∧
       removeMpath m r = Ret tt r' ∧ table_ok r' ∧
       getJoggers r' = delete m (getJoggers r) ∧
       heap r' = <[l := set_stopCh true j]> (heap r)) ∧
  (∀ r iReq hdr bck reader req lom evs,
     getJoggers (final (dispatchResp iReq hdr bck reader r)) = getJoggers r ∧
     getJoggers (final (dispatchReq req lom r)) = getJoggers r ∧
     getJoggers (final (stop r)) = getJoggers r ∧
     (forallb no_mount_event evs = true →
        getJoggers (final (Run_loop evs r)) = getJoggers r)).
Proof.
  split_and!.
  - apply newGetXact_table.
  - apply newGetXact_table.
  - intros evs. apply keeps_ok_GoRunW, newGetXact_table.
  - intros r evs. apply keeps_ok_Run_loop.
  - intros r m Hok. destruct (getJoggers r !! m) as [p|] eqn:E.
    + destruct (Hok m p E) as (l & j & -> & _ & _).
      eexists. split; [by apply (addMpath_known m r l)|]. simpl.
      assert (m ∈ dom (getJoggers r)) by (apply elem_of_dom; eauto).
      split_and!; [by apply (table_ok_ext r)|by apply union_absorb|done|done].
    + eexists. split; [apply addMpath_new; intros l; congruence|]. simpl.
      split_and!.
      * by eapply (table_ok_add r).
      * apply dom_insert_L.
      * intros [? ?]%elem_of_dom. congruence.
      * done.
  - intros r m Hok [p Hp]%elem_of_dom.
    destruct (Hok m p Hp) as (l & j & -> & Hj & _).
    exists l, j. eexists. split_and!; [done|done|by apply removeMpath_known| |done|done].
    by eapply (table_ok_remove r).
  - intros r iReq hdr bck reader req lom evs. split_and!.
    + apply keeps_table_dispatchResp.
    + apply keeps_table_dispatchReq.
    + apply keeps_table_stop.
    + intros Hevs. by apply keeps_table_Run_loop.
Qed.

(** C8.  Attaching a mountpath that already has a jogger only logs a
    warning: table, joggers, error list and abort state are unchanged.
    Hence a second [addMpath] of the same mountpath always leaves the
    table and the joggers as the first one left them. *)
Theorem addMpath_idempotent m r :
  (∀ l, getJoggers r !! m = Some (Some l) →
     ∃ r', addMpath m r = Ret tt r' ∧
       getJoggers r' = getJoggers r ∧ heap r' = heap r ∧
       errs r' = errs r ∧ abortErr r' = abortErr r ∧ finished r' = finished r ∧
       log r' = (log r ++ [(Warning, ("Attempted to add already existing mountpath: " ++ m)%string)])%list) ∧
  (∃ r1 r2,
     addMpath m r = Ret tt r1 ∧ addMpath m r1 = Ret tt r2 ∧
     getJoggers r2 = getJoggers r1 ∧ heap r2 = heap r1 ∧
     errs r2 = errs r1 ∧ abortErr r2 = abortErr r1).
Proof.
  split.
  - intros l Hl. eexists. split; [by apply (addMpath_known m r l)|]. done.
  - destruct (getJoggers r !! m) as [[l|]|] eqn:E.
    + eexists. eexists. split; [by apply (addMpath_known m r l)|].
      split; [by apply (addMpath_known m _ l)|]. done.
    + eexists. eexists. split; [apply addMpath_new; intros l; congruence|].
      split; [apply (addMpath_known m _ (length (heap r))); simpl; apply lookup_insert_eq|].
      done.
    + eexists. eexists. split; [apply addMpath_new; intros l; congruence|].
      split; [apply (addMpath_known m _ (length (heap r))); simpl; apply lookup_insert_eq|].
      done.
Qed.

(** *** One turn of the control loop *)

(** What the loop does with one received event; the result says whether
    the loop returned. *)
Definition handle (ev : event) : M XactGet bool :=
  match ev with
  | EvTick =>
      r ← get;
      (if FastV4_EC (config r) then
         let s := ECStats_String (xstats r) in
         if bool_decide (s ≠ "") then nlog Info s else mret tt
       else mret tt);;
      mret false
  | EvMpath q =>
      (if bool_decide (mp_action q = ActMountpathAttach) then addMpath (mp_mpath q)
       else if bool_decide (mp_action q = ActMountpathDetach) then removeMpath (mp_mpath q)
       else mret tt);;
      mret false
  | EvIdle => stop;; mret true
  | EvControl msg =>
      if bool_decide (ctl_Action msg = ActEnableRequests) then
        setEcRequestsEnabled;;
        mret false
      else
        debug.Assert debug_ON (bool_decide (ctl_Action msg = ActClearRequests))
          "msg.Action == ActClearRequests";;
        setEcRequestsDisabled;;
        stop;;
        mret true
  | EvAbort =>
      r ← get;
      if bool_decide (is_Some (abortErr r)) then stop;; mret true else mret false
  end.

(** Events on which the loop goes on, for a table over the mountpaths
    [ms]: ticks, [EnableRequests], attaches, and detaches of a mountpath
    the table holds at that point.  (A detach of any other mountpath is
    the case [removeMpath] aborts on.) *)
Fixpoint goes_on (ms : gset string) (evs : list event) : bool :=
  match evs with
  | [] => true
  | EvTick :: evs => goes_on ms evs
  | EvMpath q :: evs =>
      if bool_decide (mp_action q = ActMountpathAttach)
      then goes_on ({[mp_mpath q]} ∪ ms) evs
      else if bool_decide (mp_action q = ActMountpathDetach)
           then bool_decide (mp_mpath q ∈ ms) && goes_on (ms ∖ {[mp_mpath q]}) evs
           else goes_on ms evs
  | EvControl msg :: evs =>
      bool_decide (ctl_Action msg = ActEnableRequests) && goes_on ms evs
  | EvIdle :: _ | EvAbort :: _ => false
  end.

(** While the loop runs, every mountpath of the table is served: its entry
    points to a jogger made for it that is running and not stopped. *)
Definition serving (r : XactGet) : Prop :=
  ∀ m p, getJoggers r !! m = Some p →
    ∃ l j, p = Some l ∧ heap r !! l = Some j ∧ mpath j = m ∧
           running j = true ∧ stopCh j = false.

(** Every jogger of the table is stopped. *)
Definition all_stopped (r : XactGet) : Prop :=
  ∀ m p, getJoggers r !! m = Some p →
    ∃ l j, p = Some l ∧ heap r !! l = Some j ∧ mpath j = m ∧ stopCh j = true.

Lemma bind_Ret_inv {S A B} (m : M S A) (k : A → M S B) s b s' :
  (m ≫= k) s = Ret b s' → ∃ a s1, m s = Ret a s1 ∧ k a s1 = Ret b s'.
Proof.
  unfold mbind, M_bind. destruct (m s) as [a s1| |]; [|done..]. intros H. by exists a, s1.
Qed.

Lemma bind_unit_r {S} (m : M S unit) s : (m ≫= λ _, mret tt) s = m s.
Proof. unfold mbind, M_bind, mret, M_ret. by destruct (m s) as [[] ?| |]. Qed.

Lemma Run_loop_cons ev evs r :
  Run_loop (ev :: evs) r =
    (handle ev ≫= λ ended, if ended : bool then mret tt else Run_loop evs) r.
Proof.
  destruct ev as [|q| |msg|]; cbn [Run_loop handle];
    try case_bool_decide; unfold mbind, M_bind, get; try case_bool_decide; try done;
    repeat (match goal with
            | |- match ?c with _ => _ end = _ => destruct c as [[] ?| |]; simpl
            end).
  all: try done.
  all: match goal with |- ?c = _ => by destruct c as [[] ?| |] end.
Qed.

Lemma keeps_ok_handle ev : keeps_ok (handle ev).
Proof.
  destruct ev as [|q| |msg|]; cbn [handle].
  - apply keeps_ok_bind; [by apply keeps_table_ok, keeps_table_pure|]. intros r.
    apply keeps_ok_bind; [|intros _; apply keeps_table_ok, keeps_table_ret].
    apply keeps_table_ok.
    destruct (FastV4_EC _); [|apply keeps_table_ret].
    case_bool_decide; [apply keeps_table_nlog|apply keeps_table_ret].
  - apply keeps_ok_bind; [|intros _; apply keeps_table_ok, keeps_table_ret].
    case_bool_decide; [apply keeps_ok_addMpath|].
    case_bool_decide; [apply keeps_ok_removeMpath|].
    apply keeps_table_ok, keeps_table_ret.
  - apply keeps_table_ok, keeps_table_bind; [apply keeps_table_stop|].
    intros _. apply keeps_table_ret.
  - case_bool_decide.
    + apply keeps_table_ok, keeps_table_bind; [by apply keeps_table_modify|].
      intros _. apply keeps_table_ret.
    + apply keeps_table_ok.
      apply keeps_table_bind; [apply keeps_table_Assert|]. intros _.
      apply keeps_table_bind; [by apply keeps_table_modify|]. intros _.
      apply keeps_table_bind; [apply keeps_table_stop|]. intros _. apply keeps_table_ret.
  - apply keeps_table_ok.
    apply keeps_table_bind; [by apply keeps_table_pure|]. intros r.
    case_bool_decide; [|apply keeps_table_ret].
    apply keeps_table_bind; [apply keeps_table_stop|]. intros _. apply keeps_table_ret.
Qed.

Lemma Assert_Ret {S} (on c : bool) msg (s s' : S) a :
  debug.Assert on c msg s = Ret a s' → s' = s.
Proof.
  unfold debug.Assert, panic, mret, M_ret. destruct (on && negb c); [done|]. by intros [= _ <-].
Qed.

Lemma stop_finishes r r' :
  table_ok r → stop r = Ret tt r' →
  finished r' = true ∧ idleStopped r' = true ∧ all_stopped r' ∧
  abortErr r' = abortErr r ∧ errs r' = errs r ∧ ecEnabled r' = ecEnabled r.
Proof.
  intros Hok. rewrite stop_table_ok by done. intros [= <-]. simpl.
  split_and!; try done.
  intros m p Hm. simpl in Hm. by apply stop_stops_all.
Qed.

(** A turn that ends the loop leaves the engine finished, its idle timer
    stopped and every jogger of the table stopped. *)
Lemma handle_ended ev r r' :
  table_ok r → handle ev r = Ret true r' →
  finished r' = true ∧ idleStopped r' = true ∧ all_stopped r' ∧ abortErr r' = abortErr r.
Proof.
  intros Hok. destruct ev as [|q| |msg|]; cbn [handle]; intros H.
  - apply bind_Ret_inv in H as (r0 & s0 & _ & H).
    by apply bind_Ret_inv in H as (? & ? & _ & [=]).
  - by apply bind_Ret_inv in H as (? & ? & _ & [=]).
  - apply bind_Ret_inv in H as ([] & s & Hs & [= <-]).
    by destruct (stop_finishes r s Hok Hs) as (? & ? & ? & ? & _).
  - case_bool_decide; [by apply bind_Ret_inv in H as (? & ? & _ & [=])|].
    apply bind_Ret_inv in H as ([] & s0 & Ha & H).
    apply Assert_Ret in Ha as ->.
    apply bind_Ret_inv in H as ([] & s1 & [= <-] & H).
    apply bind_Ret_inv in H as ([] & s & Hs & [= <-]).
    destruct (stop_finishes (set_ecEnabled false r) s) as (? & ? & ? & ? & _); [|done|done].
    by apply (table_ok_ext r).
  - apply bind_Ret_inv in H as (r0 & s0 & [= <- <-] & H).
    case_bool_decide; [|by injection H].
    apply bind_Ret_inv in H as ([] & s & Hs & [= <-]).
    by destruct (stop_finishes r s Hok Hs) as (? & ? & ? & ? & _).
Qed.

(** X1.  Whatever the loop received, when it returns the engine is
    finished, its idle timer is stopped and every jogger still in the
    mount table has been stopped. *)
Theorem Run_loop_returns_finished evs r r' :
  table_ok r →
  Run_loop evs r = Ret tt r' →
  finished r' = true ∧ idleStopped r' = true ∧ all_stopped r'.
Proof.
  revert r. induction evs as [|ev evs IH]; intros r Hok.
  { cbn [Run_loop]. unfold mbind, M_bind, get. case_bool_decide; [|done].
    intros Hstop. by destruct (stop_finishes r r' Hok Hstop) as (? & ? & ? & _). }
  rewrite Run_loop_cons. intros H.
  apply bind_Ret_inv in H as (ended & s & Hh & H).
  destruct ended.
  - injection H as <-. by destruct (handle_ended ev r s Hok Hh) as (? & ? & ? & _).
  - apply (IH s); [|done]. specialize (keeps_ok_handle ev r Hok). by rewrite Hh.
Qed.

(** An attach leaves a mountpath in the table whatever was there. *)
Lemma addMpath_calm m r :
  table_ok r →
  ∃ r', addMpath m r = Ret tt r' ∧ table_ok r' ∧
        dom (getJoggers r') = {[m]} ∪ dom (getJoggers r) ∧
        abortErr r' = abortErr r ∧ finished r' = finished r.
Proof.
  intros Hok. destruct (getJoggers r !! m) as [p|] eqn:E.
  - destruct (Hok m p E) as (l & j & -> & _ & _).
    rewrite (addMpath_known m r l) by done. eexists. split; [done|]. simpl.
    split_and!; [by apply (table_ok_ext r)| |done..].
    apply union_absorb, elem_of_dom. by eexists.
  - rewrite addMpath_new by (intros l; congruence). eexists. split; [done|]. simpl.
    split_and!; [by eapply (table_ok_add r)|by rewrite dom_insert_L|done..].
Qed.

(** A detach of a mountpath of the table takes it out and nothing else. *)
Lemma removeMpath_calm m r :
  table_ok r → m ∈ dom (getJoggers r) →
  ∃ r', removeMpath m r = Ret tt r' ∧ table_ok r' ∧
        dom (getJoggers r') = dom (getJoggers r) ∖ {[m]} ∧
        abortErr r' = abortErr r ∧ finished r' = finished r.
Proof.
  intros Hok [p E]%elem_of_dom.
  destruct (Hok m p E) as (l & j & -> & Hj & _).
  rewrite (removeMpath_known m r l j) by done. eexists. split; [done|]. simpl.
  split_and!; [by eapply (table_ok_remove r)|by rewrite dom_delete_L|done..].
Qed.

(** X3.  The loop ends only on the idle timer, a clear message or an abort.
    Over ticks, [EnableRequests] messages, attaches, and detaches of
    mountpaths the table holds, an engine that has not been aborted neither
    returns nor panics: it is parked in [select], still not aborted.  A
    detach of a mountpath the table does not hold (build without the debug
    tag, live engine) is different: [removeMpath] aborts the engine, the
    next [select] takes the abort case, and the loop returns with the
    engine finished and that error as the abort cause. *)
Theorem Run_loop_goes_on r :
  table_ok r →
  (∀ evs, abortErr r = None → goes_on (dom (getJoggers r)) evs = true →
          ∃ r', Run_loop evs r = Block r' ∧ abortErr r' = None ∧
                finished r' = finished r ∧ table_ok r') ∧
  (∀ m, debug_ON = false → live r → getJoggers r !! m = None →
        ActMountpathDetach ≠ ActMountpathAttach →
        ∃ r', Run_loop [EvMpath {| mp_action := ActMountpathDetach; mp_mpath := m |}] r
                = Ret tt r' ∧
              finished r' = true ∧ all_stopped r' ∧
              abortErr r' = Some (fmt_Errorf (xname r ++ ": invalid or lost mountpath "
                                                ++ strconv_Quote m))).
Proof.
  intros Hok. split.
  - intros evs. revert r Hok.
    induction evs as [|ev evs IH]; intros r Hok Ha Hgo.
    { exists r. cbn [Run_loop]. unfold mbind, M_bind, get. rewrite Ha.
      rewrite bool_decide_eq_false_2 by (by intros [? ?]). done. }
    destruct ev as [|q| |msg|]; cbn [goes_on] in Hgo; try done; cbn [Run_loop].
    + destruct (IH (if FastV4_EC (config r) && bool_decide (ECStats_String (xstats r) ≠ "")
                    then set_log (log r ++ [(Info, ECStats_String (xstats r))]) r else r))
        as (r' & Hrun & ? & Hf & ?).
      { destruct (_ && _); [by apply (table_ok_ext r)|done]. }
      { by destruct (_ && _). }
      { by destruct (_ && _). }
      exists r'. split_and!; try done.
      * rewrite <-Hrun. unfold mbind, M_bind, get, nlog, modify, mret, M_ret.
        destruct (FastV4_EC (config r)); [|done]. simpl. by case_bool_decide.
      * rewrite Hf. by destruct (_ && _).
    + case_bool_decide as Hatt.
      * destruct (addMpath_calm (mp_mpath q) r Hok) as (r1 & H1 & Hok1 & Hd1 & Ha1 & Hf1).
        destruct (IH r1 Hok1) as (r' & Hrun & ? & Hf & ?); [congruence|by rewrite Hd1|].
        exists r'. rewrite (bind_Ret _ _ _ _ _ H1). split_and!; try done. congruence.
      * case_bool_decide as Hdet.
        -- apply andb_true_iff in Hgo as [Hin%bool_decide_eq_true_1 Hgo].
           destruct (removeMpath_calm (mp_mpath q) r Hok Hin)
             as (r1 & H1 & Hok1 & Hd1 & Ha1 & Hf1).
           destruct (IH r1 Hok1) as (r' & Hrun & ? & Hf & ?); [congruence|by rewrite Hd1|].
           exists r'. rewrite (bind_Ret _ _ _ _ _ H1). split_and!; try done. congruence.
        -- destruct (IH r Hok Ha Hgo) as (r' & Hrun & ? & Hf & ?).
           exists r'. split_and!; try done.
    + apply andb_true_iff in Hgo as [Hen Hgo]. rewrite Hen.
      destruct (IH (set_ecEnabled true r)) as (r' & Hrun & ? & Hf & ?);
        [by apply (table_ok_ext r)|done|done|].
      exists r'. split_and!; try done.
  - intros m Hdbg [Hf Ha] Hm Hne. cbn [Run_loop].
    rewrite bool_decide_eq_false_2 by done. rewrite bool_decide_eq_true_2 by done.
    set (err := fmt_Errorf _).
    assert (removeMpath m r = Ret tt (set_abortErr (Some err) r)) as Hrem.
    { unfold removeMpath. munfold. simpl. rewrite Hm, Hdbg. simpl.
      unfold Abort. by rewrite Hf, Ha. }
    rewrite (bind_Ret _ _ _ _ _ Hrem).
    unfold mbind, M_bind, get. simpl.
    assert (table_ok (set_abortErr (Some err) r)) as Hok' by (by apply (table_ok_ext r)).
    rewrite stop_table_ok by done.
    eexists. split; [done|]. simpl. split_and!; try done.
    intros m' p Hm'. simpl in Hm'. by apply (stop_stops_all (set_abortErr (Some err) r)).
Qed.

(** *** Serving the mounts *)

(** Heap after an in-place update [f] of every jogger pointed to by [ps]. *)
Definition updated_heap (f : getJogger → getJogger) (ps : list (option nat))
    (h : list getJogger) : list getJogger :=
  imap (λ l j, if bool_decide (Some l ∈ ps) then f j else j) h.

(** Every jogger allocated so far is as [newGetJogger] made it: an empty
    open queue of the configured capacity, not started, not stopped. *)
Definition pristine (r : XactGet) : Prop :=
  ∀ l j, heap r !! l = Some j →
    workCh j = make_chan (Z.max (Z.of_nat getxBurstSize) (EC_Burst (config r))) ∧
    stopCh j = false ∧ running j = false.

Lemma updated_heap_lookup f ps h l :
  updated_heap f ps h !! l = (λ j, if bool_decide (Some l ∈ ps) then f j else j) <$> h !! l.
Proof. unfold updated_heap. by rewrite list_lookup_imap. Qed.

Lemma updated_heap_nil f h : updated_heap f [] h = h.
Proof.
  apply list_eq. intros l. rewrite updated_heap_lookup.
  destruct (h !! l); simpl; [|done].
  first [done | rewrite bool_decide_eq_false_2; [done|]; by intros ?%elem_of_nil].
Qed.

Lemma updated_heap_cons f l j ps h :
  (∀ j, f (f j) = f j) →
  h !! l = Some j →
  updated_heap f ps (<[l := f j]> h) = updated_heap f (Some l :: ps) h.
Proof.
  intros Hf Hl. apply list_eq. intros k. rewrite !updated_heap_lookup.
  destruct (decide (k = l)) as [->|Hne].
  - rewrite list_lookup_insert_eq by (by eapply lookup_lt_Some).
    rewrite Hl. simpl.
    rewrite (bool_decide_eq_true_2 (Some l ∈ Some l :: ps)) by apply list_elem_of_here.
    case_bool_decide; [by rewrite Hf|done].
  - rewrite list_lookup_insert_ne by done.
    destruct (h !! k); simpl; [|done].
    assert (Some k ≠ Some l) as Hkl by (by intros [=]).
    rewrite (bool_decide_ext (Some k ∈ ps) (Some k ∈ Some l :: ps)); [done|].
    rewrite elem_of_cons. split; [by right|]. by intros [?|?].
Qed.

Lemma range_go_jog_run ps r :
  (∀ p, p ∈ ps → ∃ l, p = Some l ∧ is_Some (heap r !! l)) →
  range ps go_jog_run r = Ret tt (set_heap (updated_heap (set_running true) ps (heap r)) r).
Proof.
  revert r. induction ps as [|p ps IH]; intros r Hps.
  - simpl. unfold mret, M_ret. rewrite updated_heap_nil. by destruct r.
  - destruct (Hps p) as (l & -> & [j Hj]); [apply list_elem_of_here|].
    simpl. unfold go_jog_run, deref, store, modify, mbind, M_bind. rewrite Hj. simpl.
    rewrite IH.
    + simpl. by rewrite (updated_heap_cons _ l j).
    + intros p Hp. destruct (Hps p) as (l' & -> & [j' Hj']); [by apply list_elem_of_further|].
      exists l'. split; [done|]. simpl.
      apply lookup_lt_is_Some. rewrite length_insert.
      by eapply lookup_lt_Some.
Qed.

Lemma serving_table_ok r : serving r → table_ok r.
Proof.
  intros Hs m p Hm. destruct (Hs m p Hm) as (l & j & ? & ? & ? & _). by exists l, j.
Qed.

Lemma serving_ext r r' :
  getJoggers r' = getJoggers r → heap r' = heap r → serving r → serving r'.
Proof. unfold serving. intros -> ->. done. Qed.

Lemma serving_add r r' m j :
  getJoggers r' = <[m := Some (length (heap r))]> (getJoggers r) →
  heap r' = (heap r ++ [j])%list →
  mpath j = m → running j = true → stopCh j = false →
  serving r → serving r'.
Proof.
  intros Ht Hh Hj Hrun Hst Hs m' p Hm'. rewrite Ht in Hm'. rewrite Hh.
  apply lookup_insert_Some in Hm' as [[<- <-]|[Hne Hm']].
  - exists (length (heap r)), j. split_and!; try done. by apply list_lookup_middle.
  - destruct (Hs m' p Hm') as (l & j' & -> & Hl & ? & ? & ?).
    exists l, j'. split_and!; try done. by apply lookup_app_l_Some.
Qed.

Lemma serving_remove r r' m l j :
  getJoggers r !! m = Some (Some l) → heap r !! l = Some j →
  getJoggers r' = delete m (getJoggers r) →
  heap r' = <[l := set_stopCh true j]> (heap r) →
  serving r → serving r'.
Proof.
  intros Hm Hj Ht Hh Hs m' p Hm'. rewrite Ht in Hm'. rewrite Hh.
  apply lookup_delete_Some in Hm' as [Hne Hm'].
  destruct (Hs m' p Hm') as (l' & j' & -> & Hl & Hmp & ? & ?).
  destruct (Hs m _ Hm) as (l0 & j0 & [= <-] & Hl0 & Hmp0 & _).
  assert (l ≠ l') as Hll.
  { intros ->. rewrite Hl in Hl0. injection Hl0 as ->. by rewrite Hmp in Hmp0. }
  exists l', j'. split_and!; try done. by rewrite list_lookup_insert_ne.
Qed.

(** In a build without assertions a turn of the loop always completes, and
    a turn after which the loop goes on leaves every mountpath served. *)
Lemma handle_serving ev r :
  debug_ON = false → serving r →
  ∃ ended s, handle ev r = Ret ended s ∧ (ended = false → serving s).
Proof.
  intros Hdbg Hs. pose proof (serving_table_ok r Hs) as Hok.
  destruct ev as [|q| |msg|]; cbn [handle].
  - exists false. unfold mbind, M_bind, get, mret, M_ret.
    destruct (FastV4_EC (config r)); [case_bool_decide|]; eexists; (split; [done|]);
      intros _; by apply (serving_ext r).
  - exists false. case_bool_decide; [|case_bool_decide].
    + destruct (getJoggers r !! mp_mpath q) as [p|] eqn:E.
      * destruct (Hok _ p E) as (l & j & -> & _ & _).
        eexists. rewrite (bind_Ret _ _ _ _ _ (addMpath_known _ r l E)).
        split; [done|]. intros _. by apply (serving_ext r).
      * eexists. erewrite bind_Ret; [|apply addMpath_new; intros l; by rewrite E].
        split; [done|]. intros _.
        by eapply (serving_add r _ (mp_mpath q) (set_running true (fresh_jogger r (mp_mpath q)))).
    + destruct (getJoggers r !! mp_mpath q) as [p|] eqn:E.
      * destruct (Hok _ p E) as (l & j & -> & Hj & _).
        eexists. rewrite (bind_Ret _ _ _ _ _ (removeMpath_known _ r l j E Hj)).
        split; [done|]. intros _. by eapply (serving_remove r _ (mp_mpath q) l j).
      * destruct (Abort_frame
                    (fmt_Errorf (xname r ++ ": invalid or lost mountpath "
                                   ++ strconv_Quote (mp_mpath q))) r)
          as (b & s & HA & _ & _ & _ & Ht & Hh & _).
        exists s. split; [|intros _; by apply (serving_ext r)].
        unfold removeMpath, mbind, M_bind, get, debug.Assert. rewrite E, Hdbg. simpl.
        unfold mret, M_ret. by rewrite HA.
    + exists r. done.
  - exists true. rewrite (bind_Ret _ _ _ _ _ (stop_table_ok r Hok)). eexists. by split.
  - case_bool_decide.
    + exists false. eexists. split; [done|]. intros _. by apply (serving_ext r).
    + exists true. unfold debug.Assert. rewrite Hdbg. simpl.
      unfold mbind, M_bind, mret, M_ret, setEcRequestsDisabled, modify.
      rewrite stop_table_ok by (by apply (table_ok_ext r)).
      eexists. by split.
  - unfold mbind, M_bind, get. case_bool_decide.
    + exists true. rewrite stop_table_ok by done. eexists. by split.
    + exists false, r. done.
Qed.

Lemma Run_loop_serves evs r :
  debug_ON = false → serving r →
  match Run_loop evs r with
  | Ret _ r' => finished r' = true ∧ all_stopped r'
  | Block r' => serving r'
  | Panic _ _ => False
  end.
Proof.
  intros Hdbg. revert r. induction evs as [|ev evs IH]; intros r Hs.
  { cbn [Run_loop]. unfold mbind, M_bind, get. case_bool_decide; [|done].
    destruct (stop r) as [[] r'| |] eqn:E;
      [|by rewrite stop_table_ok in E by (by apply serving_table_ok)..].
    by destruct (stop_finishes r r' (serving_table_ok r Hs) E) as (? & _ & ? & _). }
  destruct (handle_serving ev r Hdbg Hs) as (ended & s & Hh & Hgo).
  rewrite Run_loop_cons, (bind_Ret _ _ _ _ _ Hh).
  destruct ended.
  - by destruct (handle_ended ev r s (serving_table_ok r Hs) Hh) as (? & _ & ? & _).
  - by apply IH, Hgo.
Qed.

Lemma range_setJogger_pristine ks r :
  pristine r →
  ∃ r', range ks setJogger r = Ret tt r' ∧ pristine r' ∧
        gowg r' = gowg r ∧ config r' = config r ∧
        active r' = active r ∧ finished r' = finished r.
Proof.
  revert r. induction ks as [|k ks IH]; intros r Hp; simpl.
  - by exists r.
  - unfold mbind, M_bind. rewrite setJogger_eq.
    destruct (IH (set_getJoggers (<[k := Some (length (heap r))]> (getJoggers r))
                    (set_heap (heap r ++ [fresh_jogger r k]) r)))
      as (r' & Hrun & Hp' & Hg & Hc & Ha & Hf).
    { intros l j. simpl. intros [Hl|[_ Hl]]%lookup_app_Some.
      - exact (Hp l j Hl).
      - apply list_lookup_singleton_Some in Hl as [_ <-]. done. }
    by exists r'.
Qed.

Lemma newGetXact_pristine name conf avail disabled :
  pristine (newGetXact name conf avail disabled) ∧
  gowg (newGetXact name conf avail disabled) = 0 ∧
  config (newGetXact name conf avail disabled) = conf ∧
  active (newGetXact name conf avail disabled) = 0 ∧
  finished (newGetXact name conf avail disabled) = false.
Proof.
  unfold newGetXact. simpl. unfold mbind, M_bind.
  destruct (range_setJogger_pristine (map_to_list avail).*1 (init name conf))
    as (r1 & -> & Hp1 & Hg1 & Hc1 & Ha1 & Hf1).
  { intros l j Hl. simpl in Hl. by rewrite lookup_nil in Hl. }
  destruct (range_setJogger_pristine (map_to_list disabled).*1 r1 Hp1)
    as (r2 & -> & Hp2 & Hg2 & Hc2 & Ha2 & Hf2).
  simpl. split_and!; [done|by rewrite Hg2, Hg1|by rewrite Hc2, Hc1|by rewrite Ha2, Ha1|
                      by rewrite Hf2, Hf1].
Qed.

(** The engine with every jogger of the table started. *)
Definition started (r : XactGet) : XactGet :=
  set_heap (updated_heap (set_running true) (map_to_list (getJoggers r)).*2 (heap r))
    (set_log (log r ++ [(Info, xname r)]) r).

(** [Run] up to its loop: every jogger of the table is started. *)
Lemma Run_starts evs r :
  table_ok r → (0 < Periodic_StatsTime (config r))%Z → (0 ≤ gowg r - 1)%Z →
  Run evs r =
    Run_loop evs (set_gowg (gowg r - 1) (set_active (active r + 1) (started r))).
Proof.
  intros Hok Hper Hg. unfold Run, started, nlog, modify, mbind, M_bind, get. simpl.
  rewrite range_go_jog_run.
  - simpl. rewrite bool_decide_eq_false_2 by lia. simpl.
    rewrite bool_decide_eq_false_2 by lia. done.
  - intros p Hp. by apply (table_ok_ptrs r).
Qed.

(** With a stats period that is not positive, [Run] gets as far as
    starting the joggers. *)
Lemma Run_bad_period evs r :
  table_ok r → (Periodic_StatsTime (config r) ≤ 0)%Z →
  Run evs r = Panic "non-positive interval for NewTicker" (started r).
Proof.
  intros Hok Hper. unfold Run, started, nlog, modify, mbind, M_bind, get. simpl.
  rewrite range_go_jog_run.
  - simpl. by rewrite bool_decide_eq_true_2 by lia.
  - intros p Hp. by apply (table_ok_ptrs r).
Qed.

(** X4.  An engine built by [newGetXact] and started, in a build without
    the debug tag (and with queue sizes [make] accepts).  [Run] panics
    exactly when the configured stats period is not positive: that is
    [time.NewTicker] refusing the period, after the joggers were started
    and before the engine is counted active.  With a positive period the
    engine never panics, whatever its loop receives: while the loop waits
    for the next event every mountpath of the table has a running,
    unstopped jogger made for it, and when the loop has returned the
    engine is finished with all its joggers stopped. *)
Theorem engine_serves name conf avail disabled evs :
  debug_ON = false →
  match GoRunW evs (newGetXact name conf avail disabled) with
  | Ret _ r' => (0 < Periodic_StatsTime conf)%Z ∧ finished r' = true ∧ all_stopped r'
  | Block r' => (0 < Periodic_StatsTime conf)%Z ∧ serving r'
  | Panic msg r' =>
      (Periodic_StatsTime conf ≤ 0)%Z ∧ msg = "non-positive interval for NewTicker" ∧
      serving r' ∧ active r' = 0 ∧ finished r' = false
  end.
Proof.
  intros Hdbg.
  destruct (newGetXact_table name conf avail disabled) as [_ Hok].
  destruct (newGetXact_pristine name conf avail disabled) as (Hp & Hg & Hc & Ha & Hf).
  set (r0 := newGetXact name conf avail disabled) in *.
  assert (serving (started (set_gowg (gowg r0 + 1) r0))) as Hserv.
  { intros m p Hm. simpl in Hm. destruct (Hok m p Hm) as (l & j & -> & Hj & Hmp).
    destruct (Hp l j Hj) as (_ & Hst & _).
    exists l, (set_running true j). split_and!; try done. simpl.
    rewrite updated_heap_lookup, Hj. simpl.
    rewrite bool_decide_eq_true_2; [done|].
    apply list_elem_of_fmap. exists (m, Some l). split; [done|].
    by apply elem_of_map_to_list. }
  unfold GoRunW, modify, mbind, M_bind.
  destruct (decide (0 < Periodic_StatsTime conf)%Z) as [Hper|Hper].
  - rewrite Run_starts; [|by apply (table_ok_ext r0)|simpl; by rewrite Hc|simpl; lia].
    match goal with
    | |- match Run_loop evs ?r1 with _ => _ end =>
        pose proof (Run_loop_serves evs r1 Hdbg) as Hrun;
        destruct (Run_loop evs r1) as [[] r'| |]
    end.
    + split; [done|]. apply Hrun. by apply (serving_ext (started (set_gowg (gowg r0 + 1) r0))).
    + exfalso. apply Hrun. by apply (serving_ext (started (set_gowg (gowg r0 + 1) r0))).
    + split; [done|]. apply Hrun. by apply (serving_ext (started (set_gowg (gowg r0 + 1) r0))).
  - rewrite Run_bad_period; [|by apply (table_ok_ext r0)|simpl; rewrite Hc; lia].
    split_and!; [lia|done|done|simpl; by rewrite Ha|simpl; by rewrite Hf].
Qed.

(** *** Queueing requests *)

(** Dispatching requests one after the other, with what each call
    returned. *)
Fixpoint dispatch_seq (reqs : list request) (lom : LOM) : M XactGet (list (option error)) :=
  match reqs with
  | [] => mret []
  | req :: rest =>
      err ← dispatchReq req lom;
      errs ← dispatch_seq rest lom;
      mret (err :: errs)
  end.

(** The jogger at [l] with [reqs] added to the tail of its queue. *)
Definition queued (reqs : list request) (j : getJogger) : getJogger :=
  set_workCh (Chan (buf (workCh j) ++ reqs) (cap (workCh j)) false) j.

(** Sum of the queue lengths sampled while [n] requests join a queue that
    held [len] of them. *)
Fixpoint samples (n : nat) (len : Z) : Z :=
  match n with
  | O => 0
  | S n' => len + samples n' (len + 1)
  end.

Lemma dispatchReq_enqueue req lom r l j :
  ecEnabled r = true →
  debug_ON = false ∨ Action req = ActRestore →
  getJoggers r !! lom_MountpathPath lom = Some (Some l) →
  heap r !! l = Some j →
  closed (workCh j) = false →
  chan_len (workCh j) < cap (workCh j) →
  dispatchReq req lom r =
    Ret None
      (set_heap (<[l := queued [req] j]> (heap r))
         (set_xstats {| st_queueLen := st_queueLen (xstats r) + chan_len (workCh j);
                        st_queueCnt := st_queueCnt (xstats r) + 1 |} r)).
Proof.
  intros Hen Hdbg Hm Hj Hopen Hroom.
  unfold dispatchReq, ecRequestsEnabled, gets, mbind, M_bind. rewrite Hen. simpl.
  assert (debug_ON && negb (bool_decide (Action req = ActRestore)) = false) as Hassert.
  { destruct Hdbg as [->| ->]; [done|].
    rewrite bool_decide_eq_true_2 by done. apply andb_false_r. }
  unfold debug.Assert. rewrite Hassert. unfold mret, M_ret, get. rewrite Hm.
  unfold deref. rewrite Hj. unfold updateQueue, modify, chan_send. rewrite Hopen.
  rewrite bool_decide_eq_true_2 by done. done.
Qed.

(** A run of accepted requests ends up in the jogger's queue. *)
Lemma dispatch_seq_room reqs lom r l j :
  ecEnabled r = true →
  debug_ON = false ∨ Forall (λ req, Action req = ActRestore) reqs →
  getJoggers r !! lom_MountpathPath lom = Some (Some l) →
  heap r !! l = Some j →
  closed (workCh j) = false →
  (chan_len (workCh j) + Z.of_nat (length reqs) ≤ cap (workCh j))%Z →
  ∃ r',
    dispatch_seq reqs lom r = Ret (replicate (length reqs) None) r' ∧
    heap r' = <[l := queued reqs j]> (heap r) ∧
    getJoggers r' = getJoggers r ∧ ecEnabled r' = true.
Proof.
  revert r j. induction reqs as [|req reqs IH]; intros r j Hen Hdbg Hm Hj Hopen Hroom.
  - exists r. simpl. split_and!; try done.
    unfold queued. rewrite app_nil_r.
    rewrite list_insert_id; [done|]. rewrite Hj. f_equal.
    destruct j as [? ? [? ? c] ? ?]. simpl in *. by rewrite Hopen.
  - simpl in Hroom.
    assert (debug_ON = false ∨ Action req = ActRestore) as Hd1.
    { destruct Hdbg as [?|Hall]; [by left|right]. by inversion Hall. }
    assert (debug_ON = false ∨ Forall (λ req, Action req = ActRestore) reqs) as Hd2.
    { destruct Hdbg as [?|Hall]; [by left|right]. by inversion Hall. }
    pose proof (dispatchReq_enqueue req lom r l j Hen Hd1 Hm Hj Hopen) as H1.
    rewrite <-Z.lt_succ_r in Hroom. specialize (H1 ltac:(unfold chan_len in *; lia)).
    set (r1 := set_heap _ _) in H1.
    destruct (IH r1 (queued [req] j)) as (r' & Hrun & Hh & Ht & Hen');
      [done|done|done| |done| |].
    { simpl. apply list_lookup_insert_eq. by eapply lookup_lt_Some. }
    { simpl. unfold chan_len in *. simpl. rewrite length_app. simpl. lia. }
    exists r'. cbn [dispatch_seq]. rewrite (bind_Ret _ _ _ _ _ H1).
    rewrite (bind_Ret _ _ _ _ _ Hrun). split_and!; try done.
    rewrite Hh. simpl. rewrite list_insert_insert_eq. f_equal.
    unfold queued. simpl. by rewrite <-app_assoc.
Qed.

(** X5.  Requests dispatched one after the other to the same mountpath,
    while its queue has room for all of them, are all accepted (every call
    returns nil) and join the tail of that jogger's queue in the order of
    the calls; the other joggers, the mount table, the error list and the
    abort state are untouched, and one queue-length sample is taken per
    request. *)
Theorem dispatch_seq_fifo reqs lom r l j :
  ecEnabled r = true →
  debug_ON = false ∨ Forall (λ req, Action req = ActRestore) reqs →
  getJoggers r !! lom_MountpathPath lom = Some (Some l) →
  heap r !! l = Some j →
  closed (workCh j) = false →
  (chan_len (workCh j) + Z.of_nat (length reqs) ≤ cap (workCh j))%Z →
  ∃ r',
    dispatch_seq reqs lom r = Ret (replicate (length reqs) None) r' ∧
    heap r' = <[l := queued reqs j]> (heap r) ∧
    getJoggers r' = getJoggers r ∧ errs r' = errs r ∧ abortErr r' = abortErr r ∧
    ecEnabled r' = true ∧
    st_queueCnt (xstats r') = st_queueCnt (xstats r) + Z.of_nat (length reqs) ∧
    st_queueLen (xstats r') =
      st_queueLen (xstats r) + samples (length reqs) (chan_len (workCh j)).
Proof.
  revert r j. induction reqs as [|req reqs IH]; intros r j Hen Hdbg Hm Hj Hopen Hroom.
  - exists r. simpl. split_and!; try done; try lia.
    unfold queued. rewrite app_nil_r.
    rewrite list_insert_id; [done|]. rewrite Hj. f_equal.
    destruct j as [? ? [? ? c] ? ?]. simpl in *. by rewrite Hopen.
  - simpl in Hroom.
    assert (debug_ON = false ∨ Action req = ActRestore) as Hd1.
    { destruct Hdbg as [?|Hall]; [by left|right]. by inversion Hall. }
    assert (debug_ON = false ∨ Forall (λ req, Action req = ActRestore) reqs) as Hd2.
    { destruct Hdbg as [?|Hall]; [by left|right]. by inversion Hall. }
    pose proof (dispatchReq_enqueue req lom r l j Hen Hd1 Hm Hj Hopen) as H1.
    rewrite <-Z.lt_succ_r in Hroom. specialize (H1 ltac:(unfold chan_len in *; lia)).
    set (r1 := set_heap _ _) in H1.
    destruct (IH r1 (queued [req] j)) as (r' & Hrun & Hh & Ht & He & Ha & Hen' & Hc & Hq);
      [done|done|done| |done| |].
    { simpl. apply list_lookup_insert_eq. by eapply lookup_lt_Some. }
    { simpl. unfold chan_len in *. simpl. rewrite length_app. simpl. lia. }
    exists r'. cbn [dispatch_seq]. rewrite (bind_Ret _ _ _ _ _ H1).
    rewrite (bind_Ret _ _ _ _ _ Hrun). split_and!; try done.
    + rewrite Hh. simpl. rewrite list_insert_insert_eq. f_equal.
      unfold queued. simpl. by rewrite <-app_assoc.
    + rewrite Hc. simpl. lia.
    + rewrite Hq. simpl. unfold chan_len. simpl. rewrite length_app. simpl.
      replace (Z.of_nat (length (buf (workCh j)) + 1)) with (Z.of_nat (length (buf (workCh j))) + 1) by lia.
      lia.
Qed.

(** X6.  Backpressure: with the queue of the owning jogger full,
    [dispatchReq] neither returns an error nor drops or requeues the
    request: the caller stays in the send, every queue is as before, and
    only the queue-length sample has been taken. *)
Theorem dispatchReq_full_queue req lom r l j :
  ecEnabled r = true →
  debug_ON = false ∨ Action req = ActRestore →
  getJoggers r !! lom_MountpathPath lom = Some (Some l) →
  heap r !! l = Some j →
  closed (workCh j) = false →
  (cap (workCh j) ≤ chan_len (workCh j))%Z →
  dispatchReq req lom r =
    Block (set_xstats {| st_queueLen := st_queueLen (xstats r) + chan_len (workCh j);
                         st_queueCnt := st_queueCnt (xstats r) + 1 |} r).
Proof.
  intros Hen Hdbg Hm Hj Hopen Hfull.
  unfold dispatchReq, ecRequestsEnabled, gets, mbind, M_bind. rewrite Hen. simpl.
  assert (debug_ON && negb (bool_decide (Action req = ActRestore)) = false) as Hassert.
  { destruct Hdbg as [->| ->]; [done|].
    rewrite bool_decide_eq_true_2 by done. apply andb_false_r. }
  unfold debug.Assert. rewrite Hassert. unfold mret, M_ret, get. rewrite Hm.
  unfold deref. rewrite Hj. unfold updateQueue, modify, chan_send. rewrite Hopen.
  rewrite bool_decide_eq_false_2 by lia. done.
Qed.

Lemma range_setJogger_cover ks r :
  pristine r →
  (∀ m p, getJoggers r !! m = Some p → ∃ l, p = Some l ∧ is_Some (heap r !! l)) →
  ∃ r', range ks setJogger r = Ret tt r' ∧
        (∀ m p, getJoggers r' !! m = Some p → ∃ l, p = Some l ∧ is_Some (heap r' !! l)) ∧
        ecEnabled r' = ecEnabled r.
Proof.
  revert r. induction ks as [|k ks IH]; intros r Hp Hc; simpl.
  - by exists r.
  - unfold mbind, M_bind. rewrite setJogger_eq.
    destruct (IH (set_getJoggers (<[k := Some (length (heap r))]> (getJoggers r))
                    (set_heap (heap r ++ [fresh_jogger r k]) r)))
      as (r' & Hrun & Hc' & He).
    { intros l j. simpl. intros [Hl|[_ Hl]]%lookup_app_Some.
      - exact (Hp l j Hl).
      - apply list_lookup_singleton_Some in Hl as [_ <-]. done. }
    { intros m p. simpl. intros [[<- <-]|[_ Hm]]%lookup_insert_Some.
      - eexists. split; [done|]. rewrite list_lookup_middle by done. by eexists.
      - destruct (Hc m p Hm) as (l & -> & [j Hj]). exists l. split; [done|].
        exists j. by apply lookup_app_l_Some. }
    by exists r'.
Qed.

(** X7.  A fresh engine takes a burst: right after construction, up to
    [max(getxBurstSize, EC.Burst)] requests dispatched to any mountpath that
    [fs.Get] reported, available or disabled, are all accepted without
    blocking and sit in that mountpath's queue in the order of the calls. *)
Theorem fresh_engine_takes_burst name conf avail disabled reqs lom :
  lom_MountpathPath lom ∈ dom avail ∪ dom disabled →
  debug_ON = false ∨ Forall (λ req, Action req = ActRestore) reqs →
  (Z.of_nat (length reqs) ≤ Z.max (Z.of_nat getxBurstSize) (EC_Burst conf))%Z →
  ∃ r' l j,
    dispatch_seq reqs lom (newGetXact name conf avail disabled)
      = Ret (replicate (length reqs) None) r' ∧
    getJoggers r' !! lom_MountpathPath lom = Some (Some l) ∧
    heap r' !! l = Some j ∧
    mpath j = lom_MountpathPath lom ∧
    buf (workCh j) = reqs.
Proof.
  intros Hin Hdbg Hn.
  destruct (newGetXact_table name conf avail disabled) as [Hdom Hok].
  destruct (newGetXact_pristine name conf avail disabled) as [Hp _].
  set (r0 := newGetXact name conf avail disabled) in *.
  rewrite <-Hdom in Hin. apply elem_of_dom in Hin as [p Hm].
  destruct (Hok _ p Hm) as (l & j & -> & Hj & Hmp).
  destruct (Hp l j Hj) as (Hw & _ & _).
  assert (config r0 = conf ∧ ecEnabled r0 = true) as [Hconf Hen].
  { unfold r0, newGetXact. simpl. unfold mbind, M_bind.
    destruct (range_setJogger_pristine (map_to_list avail).*1 (init name conf))
      as (r1 & Hr1 & Hp1 & _ & Hc1 & _).
    { intros ? ? Hl. simpl in Hl. by rewrite lookup_nil in Hl. }
    destruct (range_setJogger_cover (map_to_list avail).*1 (init name conf))
      as (r1' & Hr1' & Hc1' & He1).
    { intros ? ? Hl. simpl in Hl. by rewrite lookup_nil in Hl. }
    { intros ? ? Hl. simpl in Hl. by rewrite lookup_empty in Hl. }
    rewrite Hr1 in Hr1'. injection Hr1' as <-. rewrite Hr1.
    destruct (range_setJogger_pristine (map_to_list disabled).*1 r1 Hp1)
      as (r2 & Hr2 & _ & _ & Hc2 & _).
    destruct (range_setJogger_cover (map_to_list disabled).*1 r1 Hp1 Hc1')
      as (r2' & Hr2' & _ & He2).
    rewrite Hr2 in Hr2'. injection Hr2' as <-. rewrite Hr2. simpl.
    by rewrite Hc2, Hc1, He2, He1. }
  rewrite Hconf in Hw.
  destruct (dispatch_seq_room reqs lom r0 l j) as (r' & Hrun & Hh & Ht & _);
    [done|done|done|done|by rewrite Hw| |].
  { rewrite Hw. unfold chan_len. simpl. lia. }
  exists r', l, (queued reqs j). split_and!; [done|by rewrite Ht| |done|].
  - rewrite Hh. apply list_lookup_insert_eq. by eapply lookup_lt_Some.
  - simpl. by rewrite Hw.
Qed.

(** *** More on slice responses *)


(** X8.  [dispatchResp] never registers or unregisters a slice writer:
    whatever the response and however the call ends, the registration map
    has the same names as before and every writer but the one addressed by
    the response is unchanged. *)
Theorem dispatchResp_keeps_registrations iReq hdr bck reader r :
  dom (slices (final (dispatchResp iReq hdr bck reader r))) = dom (slices r) ∧
  ∀ n, n ≠ unique (SID hdr) bck (ObjName hdr) →
       slices (final (dispatchResp iReq hdr bck reader r)) !! n = slices r !! n.
Proof.
  destruct (decide (Opcode hdr = respPut)) as [Hop|Hop].
  - rewrite dispatchResp_respPut by done.
    assert (slices (traced hdr bck r) = slices r) as Htr.
    { unfold traced. by destruct (FastV4_EC (config r)). }
    destruct (slices r !! unique (SID hdr) bck (ObjName hdr)) as [w|] eqn:Hw.
    + destruct (_writerReceive w _ _ reader) as [w' res].
      assert (∀ r1 : XactGet,
                slices r1 = <[unique (SID hdr) bck (ObjName hdr) := w']> (slices r) →
                dom (slices r1) = dom (slices r) ∧
                ∀ n, n ≠ unique (SID hdr) bck (ObjName hdr) → slices r1 !! n = slices r !! n)
        as Hins.
      { intros r1 ->. split.
        - rewrite dom_insert_L. symmetry. apply union_absorb. apply elem_of_dom. by eexists.
        - intros n Hn. by rewrite lookup_insert_ne. }
      destruct res as [err|]; [|by apply Hins].
      simpl. destruct (_ || _); [|by apply Hins].
      set (r0 := set_errs _ _).
      destruct (Abort_frame (failed_to_read bck (ObjName hdr) err) r0)
        as (b & r' & HA & _ & _ & Hs & _).
      unfold mbind, M_bind. rewrite HA. simpl. apply Hins. by rewrite Hs.
    + unfold AddErr, modify. simpl. by rewrite Htr.
  - unfold dispatchResp. rewrite bool_decide_eq_false_2 by done.
    unfold debug.Assert, mbind, M_bind, panic, mret, M_ret, get, nlog, modify.
    by destruct (debug_ON && negb false).
Qed.


(** *** Attaching and detaching in sequence *)

(** X10.  Attaching a mountpath that is not in the table and detaching it
    again restores the mount table; what stays behind is one more jogger on
    the heap, started and stopped, and no abort. *)
Theorem attach_then_detach m r :
  getJoggers r !! m = None →
  ∃ r',
    (addMpath m ≫= λ _, removeMpath m) r = Ret tt r' ∧
    getJoggers r' = getJoggers r ∧
    heap r' = (heap r ++ [set_stopCh true (set_running true (fresh_jogger r m))])%list ∧
    abortErr r' = abortErr r ∧ errs r' = errs r ∧ finished r' = finished r.
Proof.
  intros Hm.
  erewrite bind_Ret; [|apply addMpath_new; intros l; by rewrite Hm].
  erewrite removeMpath_known; [| |].
  - eexists. split; [done|]. simpl. split_and!; try done.
    + rewrite delete_insert_eq. by apply delete_id.
    + rewrite insert_app_r_alt by done. by rewrite Nat.sub_diag.
  - simpl. apply lookup_insert_eq.
  - simpl. by apply list_lookup_middle.
Qed.

(** X11.  Detaching a mountpath and attaching it again never revives the
    stopped jogger: the entry then points to a new jogger at a fresh
    address, started and not stopped, with an empty queue, while the old
    one stays stopped with the requests it held. *)
Theorem detach_then_attach m r l j :
  getJoggers r !! m = Some (Some l) →
  heap r !! l = Some j →
  ∃ r',
    (removeMpath m ≫= λ _, addMpath m) r = Ret tt r' ∧
    getJoggers r' = <[m := Some (length (heap r))]> (getJoggers r) ∧
    length (heap r) ≠ l ∧
    heap r' !! l = Some (set_stopCh true j) ∧
    heap r' !! length (heap r) = Some (set_running true (fresh_jogger r m)) ∧
    abortErr r' = abortErr r ∧ errs r' = errs r.
Proof.
  intros Hm Hj.
  rewrite (bind_Ret _ _ _ _ _ (removeMpath_known m r l j Hm Hj)).
  rewrite addMpath_new by (intros l'; simpl; by rewrite lookup_delete_eq).
  pose proof (lookup_lt_Some _ _ _ Hj) as Hlt.
  eexists. split; [done|]. simpl. rewrite length_insert. split_and!; try done.
  - by rewrite insert_delete_eq.
  - lia.
  - rewrite lookup_app_l by (by rewrite length_insert).
    by apply list_lookup_insert_eq.
  - rewrite list_lookup_middle; [done|]. by rewrite length_insert.
Qed.

(** *** Decoding *)

Variable lom_Cname : LOM -> string.        (* lom.Cname() *)
Variable error_Error : error -> string.    (* err.Error() *)

(** The engine together with what [decode] touches around it: the decode
    counter of the stats object, the callbacks invoked (closure, object and
    error, in order) and the requests handed back to the pool.  The time
    stamps [decode] writes into the request are not part of [request]. *)
Record decoding : Type := {
  engine : XactGet;
  decodeCnt : Z;
  callbacks : list (nat * LOM * error);
  freed : list request
}.

Definition set_engine v d : decoding :=
  {| engine := v; decodeCnt := decodeCnt d; callbacks := callbacks d; freed := freed d |}.

(** A method of the engine, run on the engine of [d]. *)
Definition on_engine {A} (c : M XactGet A) : M decoding A := λ d,
  match c (engine d) with
  | Ret a r => Ret a (set_engine r d)
  | Panic msg r => Panic msg (set_engine r d)
  | Block r => Block (set_engine r d)
  end.

(** Modelled from the spec: [stats.updateDecode] is outside [src/]; it
    counts one decode. *)
Definition updateDecode : M decoding unit :=
  modify (λ d, {| engine := engine d; decodeCnt := decodeCnt d + 1;
                  callbacks := callbacks d; freed := freed d |}).

(** [req.Callback(lom, err)], the closure being opaque. *)
Definition call (f : nat) (lom : LOM) (err : error) : M decoding unit :=
  modify (λ d, {| engine := engine d; decodeCnt := decodeCnt d;
                  callbacks := callbacks d ++ [(f, lom, err)]; freed := freed d |}).

(** Modelled from the spec: [freeReq] is outside [src/]; the request goes
    back to the pool. *)
Definition freeReq (req : request) : M decoding unit :=
  modify (λ d, {| engine := engine d; decodeCnt := decodeCnt d;
                  callbacks := callbacks d; freed := freed d ++ [req] |}).

Definition decode (req : request) (lom : LOM) : M decoding unit :=
  updateDecode;;
  err ← on_engine (dispatchReq req lom);
  match err with
  | None => mret tt
  | Some err =>
      match Callback req with
      | Some f => call f lom err
      | None => mret tt
      end;;
      on_engine (nlog Error ("failed to restore " ++ lom_Cname lom ++ " err: " ++ error_Error err));;
      freeReq req
  end.

(** What a call of [dispatchReq] that returns has done: with nil, the
    request is at the tail of the queue of the object's mountpath; with an
    error, no queue has changed. *)
Lemma dispatchReq_returns req lom r :
  match dispatchReq req lom r with
  | Ret None r' =>
      log r' = log r ∧
      ∃ l j, getJoggers r !! lom_MountpathPath lom = Some (Some l) ∧
             heap r !! l = Some j ∧
             heap r' = <[l := queued [req] j]> (heap r)
  | Ret (Some err) r' =>
      log r' = log r ∧ heap r' = heap r ∧
      (err = ErrorECDisabled ∧ ecEnabled r = false ∨
       err = errLossMpath (xname r) lom ∧ getJoggers r !! lom_MountpathPath lom = None)
  | _ => True
  end.
Proof.
  unfold dispatchReq, ecRequestsEnabled, gets, mbind, M_bind.
  destruct (ecEnabled r) eqn:Hen; simpl.
  - unfold debug.Assert. destruct (debug_ON && _); [done|].
    unfold mret, M_ret, get.
    destruct (getJoggers r !! lom_MountpathPath lom) as [[l|]|] eqn:Hm; simpl.
    + destruct (heap r !! l) as [j|] eqn:Hj; [|done].
      unfold updateQueue, modify, chan_send.
      destruct (closed (workCh j)); [done|].
      case_bool_decide; [|done]. simpl. split; [done|]. by exists l, j.
    + done.
    + destruct (Abort_frame (errLossMpath (xname r) lom) r)
        as (b & r' & -> & _ & _ & _ & _ & Hh & _ & _ & _ & Hl & _).
      split_and!; [done..|]. by right.
  - destruct (ErrCh req) as [ch|]; [|by split_and!; [..|left]].
    unfold send_err, close_err. simpl.
    destruct (errChans r !! ch) as [c|]; [|done].
    destruct (chan_send ErrorECDisabled c) as [c'| |]; [|done..]. simpl.
    destruct (<[ch:=c']> (errChans r) !! ch) as [c''|]; [|done].
    destruct (chan_close c''); [|done]. simpl. split_and!; [done..|]. by left.
Qed.

(** X12.  [decode] counts the decode whatever follows.  When it returns,
    either the request is in the queue of the jogger of the object's
    mountpath, and then no callback was invoked, nothing was logged and
    the request was not freed; or dispatching failed, and then no queue
    holds the request, the callback (if the request has one) was invoked
    exactly once with that error, the failure was logged and the request
    was freed.  A call that panics or parks frees nothing and invokes no
    callback. *)
Theorem decode_frees_unless_queued req lom d :
  decodeCnt (final (decode req lom d)) = decodeCnt d + 1 ∧
  match decode req lom d with
  | Ret _ d' =>
      (freed d' = freed d ∧ callbacks d' = callbacks d ∧
       log (engine d') = log (engine d) ∧
       ∃ l j, getJoggers (engine d) !! lom_MountpathPath lom = Some (Some l) ∧
              heap (engine d) !! l = Some j ∧
              heap (engine d') = <[l := queued [req] j]> (heap (engine d)))
      ∨
      (∃ err,
         (err = ErrorECDisabled ∨ err = errLossMpath (xname (engine d)) lom) ∧
         freed d' = (freed d ++ [req])%list ∧
         heap (engine d') = heap (engine d) ∧
         callbacks d' = (callbacks d ++ match Callback req with
                                        | Some f => [(f, lom, err)]
                                        | None => []
                                        end)%list ∧
         log (engine d') =
           (log (engine d) ++
              [(Error, ("failed to restore " ++ lom_Cname lom ++ " err: " ++ error_Error err)%string)])%list)
  | o => freed (final o) = freed d ∧ callbacks (final o) = callbacks d
  end.
Proof.
  pose proof (dispatchReq_returns req lom (engine d)) as Hret.
  unfold decode, updateDecode, on_engine, modify, mbind, M_bind. simpl.
  destruct (dispatchReq req lom (engine d)) as [[err|] r'| |]; simpl; [| |done..].
  - destruct Hret as (Hl & Hh & Herr).
    split.
    + unfold call, freeReq, nlog, modify, mret, M_ret. by destruct (Callback req).
    + unfold call, freeReq, nlog, modify, mret, M_ret.
      destruct (Callback req) as [f|]; simpl; right; exists err;
        (split; [destruct Herr as [[? _]|[? _]]; auto|]);
        rewrite ?app_nil_r, Hl; by split_and!.
  - destruct Hret as (Hl & l & j & Hm & Hj & Hh).
    split; [done|]. left. split_and!; try done. by exists l, j.
Qed.

End Engine.

(** *** A concrete target: two mountpaths, one pending slice writer *)

Definition sample_Cname (b : Bck) (o : string) : string :=
  bck_Provider b ++ "://" ++ bck_Name b ++ "/" ++ o.

Definition sample_unique (sid : string) (b : Bck) (o : string) : string :=
  sid ++ "|" ++ sample_Cname b o.

Definition sample_Quote (m : string) : string := "'" ++ m ++ "'".

Definition sample_errLossMpath (name : string) (lom : LOM) : error :=
  fmt_Errorf (name ++ ": lost mountpath " ++ lom_MountpathPath lom).

Definition sample_ECStats_String (st : stats) : string :=
  if bool_decide (st_queueCnt st = 0) then "" else "queue-len: " ++ pretty (st_queueLen st).

(** Modelled from the spec: [_writerReceive] is outside [src/]; it streams
    the payload into the writer and reports how the stream ended, a
    truncated one as the incomplete read it is. *)
Definition sample_writerReceive (w : slice) (_ : bool) (attrs : ObjAttrs) (rd : Reader)
  : slice * option error :=
  ({| sl_data := sl_data w ++ rd_bytes rd;
      sl_n := Z.of_nat (length (rd_bytes rd));
      sl_cksum := attrs_Cksum attrs;
      sl_version := if bool_decide (sl_version w = "") then attrs_Version attrs else sl_version w;
      sl_twg := sl_twg w - 1 |},
   rd_end rd).

Definition sample_respPut : Z := 2.
Definition sample_bck : Bck := {| bck_Name := "b1"; bck_Provider := "ais" |}.

Definition sample_conf : Config :=
  {| Client_Timeout := 10; Net_HTTP_UseHTTPS := false; EC_Burst := 4;
     Periodic_StatsTime := 10; FastV4_EC := false |}.

Definition sample_avail : MPI := {[ "/mnt/a" := {| mp_Path := "/mnt/a"; mp_enabled := true |} ]}.
Definition sample_disabled : MPI := {[ "/mnt/b" := {| mp_Path := "/mnt/b"; mp_enabled := false |} ]}.

Definition sample_attrs : ObjAttrs :=
  {| attrs_Size := 10; attrs_Cksum := Some "xxhash:1f"; attrs_Version := "1" |}.

Definition sample_hdr (opcode : Z) (obj : string) : ObjHdr :=
  {| SID := "t2"; ObjName := obj; hdr_ObjAttrs := sample_attrs; Opcode := opcode |}.

Definition empty_slice : slice :=
  {| sl_data := []; sl_n := 0; sl_cksum := None; sl_version := ""; sl_twg := 1 |}.

(** Four of the ten expected bytes, then the stream ends. *)
Definition truncated : Reader :=
  {| rd_bytes := [1; 2; 3; 4]; rd_end := Some io_ErrUnexpectedEOF |}.

(** A fresh engine over both mountpaths (bursts of at least 2), waiting
    for object "o1" from target "t2", with one caller's error channel. *)
Definition sample_xact : XactGet :=
  set_errChans [make_chan 1]
    (set_slices {[ sample_unique "t2" sample_bck "o1" := empty_slice ]}
       (newGetXact 2 "ec-get[b1]" sample_conf sample_avail sample_disabled)).

Definition sample_lom (mp : string) : LOM :=
  {| lom_Bck := sample_bck; lom_ObjName := "o2"; lom_MountpathPath := mp |}.

Lemma sample_xact_ok : table_ok sample_xact.
Proof.
  apply (table_ok_ext (newGetXact 2 "ec-get[b1]" sample_conf sample_avail sample_disabled));
    [done..|]. exact (proj2 (newGetXact_table 2 _ _ _ _)).
Qed.

Lemma sample_xact_live : live sample_xact.
Proof. by split. Qed.

(** A run of the engine: attach a third mountpath, detach the first,
    then clear the requests. *)
Definition sample_run : outcome XactGet unit :=
  GoRunW false sample_Quote 2 "enable-requests" "clear-requests" "attach-mp" "detach-mp"
    sample_ECStats_String
    [EvMpath {| mp_action := "attach-mp"; mp_mpath := "/mnt/c" |};
     EvMpath {| mp_action := "detach-mp"; mp_mpath := "/mnt/a" |};
     ClearRequests "clear-requests"]
    (newGetXact 2 "ec-get[b1]" sample_conf sample_avail sample_disabled).

Example engine_run :
  returned sample_run = Some tt ∧
  getJoggers (final sample_run) = {[ "/mnt/b" := Some 1%nat; "/mnt/c" := Some 2%nat ]} ∧
  finished (final sample_run) = true ∧ ecEnabled (final sample_run) = false ∧
  abortErr (final sample_run) = None ∧
  mpath <$> heap (final sample_run) = ["/mnt/a"; "/mnt/b"; "/mnt/c"] ∧
  stopCh <$> heap (final sample_run) = [true; true; true].
Proof. split_and!; by vm_compute. Qed.

Lemma dispatchResp_truncated_aborts_witness :
  ∃ r',
    dispatchResp false "t1" sample_Cname sample_unique sample_respPut "invalid opcode"
      sample_writerReceive {| exists_ := true |} (sample_hdr 2 "o1") sample_bck truncated
      sample_xact = Ret tt r' ∧
    abortErr r' = Some (failed_to_read "t1" sample_Cname sample_bck "o1" io_ErrUnexpectedEOF) ∧
    ∃ r'',
      Run_loop false sample_Quote 2 "enable-requests" "clear-requests" "attach-mp" "detach-mp"
        sample_ECStats_String [EvAbort] r' = Ret tt r'' ∧
      finished r'' = true.
Proof.
  destruct (dispatchResp_truncated_aborts false "t1" sample_Cname sample_Quote sample_unique
              sample_respPut "invalid opcode" 2%nat "enable-requests" "clear-requests"
              "attach-mp" "detach-mp" sample_writerReceive
              sample_ECStats_String {| exists_ := true |} (sample_hdr 2 "o1") sample_bck
              truncated sample_xact) as [H _].
  destruct (H empty_slice (fst (sample_writerReceive empty_slice true sample_attrs truncated))
              io_ErrUnexpectedEOF)
    as (r0 & b & r' & Hrun & _ & _ & _ & _ & Hlive); [reflexivity..|].
  destruct (Hlive sample_xact_live) as [Hcause Hloop].
  destruct (Hloop sample_xact_ok []) as (r'' & Hr'' & Hfin & _).
  exists r'. split; [exact Hrun|]. split; [exact Hcause|].
  exists r''. split; [exact Hr''|exact Hfin].
Defined.

Lemma dispatchResp_no_writer_witness :
  ∃ r',
    dispatchResp false "t1" sample_Cname sample_unique sample_respPut "invalid opcode"
      sample_writerReceive {| exists_ := true |} (sample_hdr 2 "o9") sample_bck truncated
      sample_xact = Ret tt r' ∧
    errs r' = [no_slice_writer "t1" sample_Cname sample_bck "o9"] ∧
    slices r' = slices sample_xact.
Proof.
  destruct (dispatchResp_no_writer false "t1" sample_Cname sample_unique sample_respPut
              "invalid opcode" sample_writerReceive {| exists_ := true |}
              (sample_hdr 2 "o9") sample_bck truncated sample_xact)
    as (r' & Hrun & Herrs & Hsl & _); [reflexivity..|].
  exists r'. split; [exact Hrun|]. split; [exact Herrs|exact Hsl].
Defined.

Lemma unknown_mount_is_fatal_witness :
  (∃ r', dispatchReq false "restore" sample_errLossMpath
           {| Action := "restore"; ErrCh := Some 0%nat; Callback := None |}
           (sample_lom "/mnt/zz") sample_xact
         = Ret (Some (sample_errLossMpath "ec-get[b1]" (sample_lom "/mnt/zz"))) r' ∧
         abortErr r' = Some (sample_errLossMpath "ec-get[b1]" (sample_lom "/mnt/zz")) ∧
         heap r' = heap sample_xact) ∧
  (∃ r', removeMpath false sample_Quote "/mnt/zz" sample_xact = Ret tt r' ∧
         abortErr r' = Some (fmt_Errorf "ec-get[b1]: invalid or lost mountpath '/mnt/zz'") ∧
         getJoggers r' = getJoggers sample_xact).
Proof.
  destruct (unknown_mount_is_fatal false sample_Quote "restore" sample_errLossMpath sample_xact)
    as [Hd Hr].
  split.
  - destruct (Hd {| Action := "restore"; ErrCh := Some 0%nat; Callback := None |}
                (sample_lom "/mnt/zz"))
      as (b & r' & Hrun & _ & Hh & _ & _ & _ & Hl); [reflexivity|by left|reflexivity|].
    exists r'. split; [exact Hrun|]. split; [exact (Hl sample_xact_live)|exact Hh].
  - destruct (Hr "/mnt/zz") as (b & r' & Hrun & _ & _ & Ht & _ & _ & Hl); [reflexivity..|].
    exists r'. split; [exact Hrun|]. split; [exact (Hl sample_xact_live)|exact Ht].
Defined.

Lemma dispatchReq_disabled_witness :
  dispatchReq false "restore" sample_errLossMpath
    {| Action := "restore"; ErrCh := Some 0%nat; Callback := None |}
    (sample_lom "/mnt/a") (set_ecEnabled false sample_xact)
  = Ret (Some ErrorECDisabled)
      (set_errChans [Chan [ErrorECDisabled] 1 true] (set_ecEnabled false sample_xact)).
Proof.
  destruct (dispatchReq_disabled false "restore" sample_errLossMpath
              {| Action := "restore"; ErrCh := Some 0%nat; Callback := None |}
              (sample_lom "/mnt/a") (set_ecEnabled false sample_xact))
    as (_ & _ & H & _); [reflexivity|].
  exact (H 0%nat (make_chan 1) eq_refl eq_refl eq_refl eq_refl).
Defined.

(** C4, as stated, at a concrete request.  The engine has admission
    disabled.  The first dispatch of the request fails at once with
    [ErrorECDisabled] on its error channel, and closes that channel;
    dispatching the same request again panics at the send, so nothing is
    returned to the caller.  A request whose error channel is unbuffered,
    with no receiver parked on it, parks the caller at the send instead. *)
Lemma dispatchReq_disabled_not_every_request :
  ecEnabled (set_ecEnabled false sample_xact) = false ∧
  (∃ r1,
     dispatchReq false "restore" sample_errLossMpath
       {| Action := "restore"; ErrCh := Some 0%nat; Callback := None |}
       (sample_lom "/mnt/a") (set_ecEnabled false sample_xact)
     = Ret (Some ErrorECDisabled) r1 ∧
     ecEnabled r1 = false ∧
     dispatchReq false "restore" sample_errLossMpath
       {| Action := "restore"; ErrCh := Some 0%nat; Callback := None |}
       (sample_lom "/mnt/a") r1
     = Panic "send on closed channel" r1 ∧
     ¬ ∃ e r2,
         dispatchReq false "restore" sample_errLossMpath
           {| Action := "restore"; ErrCh := Some 0%nat; Callback := None |}
           (sample_lom "/mnt/a") r1
         = Ret e r2) ∧
  dispatchReq false "restore" sample_errLossMpath
    {| Action := "restore"; ErrCh := Some 0%nat; Callback := None |}
    (sample_lom "/mnt/a") (set_errChans [make_chan 0] (set_ecEnabled false sample_xact))
  = Block (set_errChans [make_chan 0] (set_ecEnabled false sample_xact)).
Proof.
  split; [reflexivity|]. split; [|reflexivity].
  eexists. split; [reflexivity|]. split; [reflexivity|]. split; [reflexivity|].
  intros (e & r2 & H). discriminate H.
Qed.

Lemma Run_loop_control_witness :
  ∃ r',
    Run_loop false sample_Quote 2 "enable-requests" "clear-requests" "attach-mp" "detach-mp"
      sample_ECStats_String
      [ClearRequests "clear-requests"; EnableRequests "enable-requests"] sample_xact
    = Ret tt r' ∧
    ecEnabled r' = false ∧ finished r' = true.
Proof.
  destruct (Run_loop_control false sample_Quote 2 "enable-requests" "clear-requests"
              "attach-mp" "detach-mp" sample_ECStats_String sample_xact [])
    as ((r' & Hrun & Hen & Hfin & _) & _); [exact sample_xact_ok|discriminate|].
  exists r'. split; [apply Hrun|]. split; [exact Hen|exact Hfin].
Defined.

Lemma one_jogger_per_mount_witness :
  dom (getJoggers sample_xact) = {[ "/mnt/a"; "/mnt/b" ]} ∧
  (∃ r', addMpath 2 "/mnt/c" sample_xact = Ret tt r' ∧
         dom (getJoggers r') = {[ "/mnt/c" ]} ∪ dom (getJoggers sample_xact) ∧
         table_ok r') ∧
  (∃ l j r', getJoggers sample_xact !! "/mnt/a" = Some (Some l) ∧
             removeMpath false sample_Quote "/mnt/a" sample_xact = Ret tt r' ∧
             getJoggers r' = delete "/mnt/a" (getJoggers sample_xact) ∧
             heap r' !! l = Some j ∧ stopCh j = true).
Proof.
  destruct (one_jogger_per_mount false "t1" sample_Cname sample_Quote sample_unique
              sample_respPut "invalid opcode" 2%nat "restore" "enable-requests"
              "clear-requests" "attach-mp" "detach-mp" sample_errLossMpath
              sample_writerReceive sample_ECStats_String
              "ec-get[b1]" sample_conf sample_avail sample_disabled)
    as ((Hdom & _ & _) & _ & Hadd & Hrem & _).
  split_and!.
  - change (getJoggers sample_xact)
      with (getJoggers (newGetXact 2 "ec-get[b1]" sample_conf sample_avail sample_disabled)).
    rewrite Hdom. unfold sample_avail, sample_disabled. by rewrite !dom_singleton_L.
  - destruct (Hadd sample_xact "/mnt/c" sample_xact_ok) as (r' & Hrun & Hok & Hd & _).
    exists r'. split_and!; [exact Hrun|exact Hd|exact Hok].
  - destruct (Hrem sample_xact "/mnt/a" sample_xact_ok) as (l & j & r' & Hl & Hj & Hrun & _ & Ht & Hh).
    { apply elem_of_dom. by eexists. }
    exists l, (set_stopCh true j), r'. split_and!; [exact Hl|exact Hrun|exact Ht| |done].
    rewrite Hh. apply list_lookup_insert_eq. by eapply lookup_lt_Some.
Defined.

Lemma addMpath_idempotent_witness :
  ∃ l r',
    getJoggers sample_xact !! "/mnt/a" = Some (Some l) ∧
    addMpath 2 "/mnt/a" sample_xact = Ret tt r' ∧
    getJoggers r' = getJoggers sample_xact ∧ heap r' = heap sample_xact ∧
    errs r' = errs sample_xact.
Proof.
  destruct (addMpath_idempotent 2 "/mnt/a" sample_xact) as [H _].
  destruct (H 0%nat eq_refl) as (r' & Hrun & Ht & Hh & He & _).
  exists 0%nat, r'. split_and!; [reflexivity|exact Hrun|exact Ht|exact Hh|exact He].
Defined.

(** *** The properties above on the concrete target *)

Definition sample_req : request :=
  {| Action := "restore"; ErrCh := None; Callback := Some 7%nat |}.

Definition sample_loop (evs : list event) : M XactGet unit :=
  Run_loop false sample_Quote 2 "enable-requests" "clear-requests" "attach-mp" "detach-mp"
    sample_ECStats_String evs.

Lemma Run_loop_returns_finished_witness :
  finished (final (sample_loop [EvTick; EvIdle] sample_xact)) = true ∧
  idleStopped (final (sample_loop [EvTick; EvIdle] sample_xact)) = true.
Proof.
  assert (sample_loop [EvTick; EvIdle] sample_xact
          = Ret tt (final (sample_loop [EvTick; EvIdle] sample_xact))) as Hrun
    by (vm_compute; reflexivity).
  destruct (Run_loop_returns_finished false sample_Quote 2 "enable-requests" "clear-requests"
              "attach-mp" "detach-mp" sample_ECStats_String [EvTick; EvIdle] sample_xact _
              sample_xact_ok Hrun) as (Hf & Hi & _).
  split; [exact Hf|exact Hi].
Defined.

Lemma Run_loop_goes_on_witness :
  (∃ r', sample_loop [EvTick; EnableRequests "enable-requests";
                      EvMpath {| mp_action := "attach-mp"; mp_mpath := "/mnt/c" |};
                      EvMpath {| mp_action := "detach-mp"; mp_mpath := "/mnt/a" |}]
           sample_xact = Block r' ∧ abortErr r' = None) ∧
  (∃ r', sample_loop [EvMpath {| mp_action := "detach-mp"; mp_mpath := "/mnt/zz" |}]
           sample_xact = Ret tt r' ∧
         finished r' = true ∧
         abortErr r' = Some (fmt_Errorf "ec-get[b1]: invalid or lost mountpath '/mnt/zz'")).
Proof.
  destruct (Run_loop_goes_on false sample_Quote 2 "enable-requests" "clear-requests"
              "attach-mp" "detach-mp" sample_ECStats_String sample_xact sample_xact_ok)
    as [Hon Hoff].
  split.
  - destruct (Hon [EvTick; EnableRequests "enable-requests";
                   EvMpath {| mp_action := "attach-mp"; mp_mpath := "/mnt/c" |};
                   EvMpath {| mp_action := "detach-mp"; mp_mpath := "/mnt/a" |}])
      as (r' & Hrun & Ha & _); [reflexivity|by vm_compute|].
    exists r'. split; [exact Hrun|exact Ha].
  - destruct (Hoff "/mnt/zz") as (r' & Hrun & Hf & _ & Ha);
      [reflexivity|exact sample_xact_live|reflexivity|discriminate|].
    exists r'. split_and!; [exact Hrun|exact Hf|exact Ha].
Defined.

Lemma engine_serves_witness :
  match GoRunW false sample_Quote 2 "enable-requests" "clear-requests" "attach-mp" "detach-mp"
          sample_ECStats_String
          [EvMpath {| mp_action := "attach-mp"; mp_mpath := "/mnt/c" |}; EvTick]
          (newGetXact 2 "ec-get[b1]" sample_conf sample_avail sample_disabled) with
  | Ret _ r' => finished r' = true ∧ all_stopped r'
  | Block r' => serving r'
  | Panic _ r' => False
  end.
Proof.
  pose proof (engine_serves false sample_Quote 2 "enable-requests" "clear-requests" "attach-mp"
                "detach-mp" sample_ECStats_String "ec-get[b1]" sample_conf sample_avail
                sample_disabled
                [EvMpath {| mp_action := "attach-mp"; mp_mpath := "/mnt/c" |}; EvTick] eq_refl)
    as H.
  destruct (GoRunW _ _ _ _ _ _ _ _ _ _) as [[] r'|msg r'|r'].
  - exact (proj2 H).
  - destruct H as [Hper _]. vm_compute in Hper. by destruct Hper.
  - exact (proj2 H).
Defined.

Lemma dispatch_seq_fifo_witness :
  ∃ r' j,
    dispatch_seq false "restore" sample_errLossMpath [sample_req; sample_req]
      (sample_lom "/mnt/a") sample_xact = Ret [None; None] r' ∧
    heap r' !! 0%nat = Some j ∧ buf (workCh j) = [sample_req; sample_req].
Proof.
  destruct (heap sample_xact !! 0%nat) as [j|] eqn:Hj; [|vm_compute in Hj; discriminate].
  destruct (dispatch_seq_fifo false "restore" sample_errLossMpath [sample_req; sample_req]
              (sample_lom "/mnt/a") sample_xact 0%nat j)
    as (r' & Hrun & Hh & _).
  - reflexivity.
  - by left.
  - reflexivity.
  - exact Hj.
  - vm_compute in Hj. by injection Hj as <-.
  - vm_compute in Hj. injection Hj as <-. by vm_compute.
  - exists r', (queued [sample_req; sample_req] j). split; [exact Hrun|].
    split.
    + rewrite Hh. apply list_lookup_insert_eq. by eapply lookup_lt_Some.
    + vm_compute in Hj. by injection Hj as <-.
Defined.

(** The engine with the queue of "/mnt/a" filled up. *)
Definition sample_full : XactGet :=
  Eval vm_compute in
    final (dispatch_seq false "restore" sample_errLossMpath (replicate 4 sample_req)
             (sample_lom "/mnt/a") sample_xact).

Lemma dispatchReq_full_queue_witness :
  ∃ r', dispatchReq false "restore" sample_errLossMpath sample_req (sample_lom "/mnt/a")
          sample_full = Block r' ∧
        heap r' = heap sample_full.
Proof.
  destruct (heap sample_full !! 0%nat) as [j|] eqn:Hj; [|discriminate].
  eexists. split.
  - apply (dispatchReq_full_queue false "restore" sample_errLossMpath sample_req
             (sample_lom "/mnt/a") sample_full 0%nat j).
    + reflexivity.
    + by left.
    + reflexivity.
    + exact Hj.
    + injection Hj as <-. reflexivity.
    + injection Hj as <-. by vm_compute.
  - reflexivity.
Defined.

Lemma fresh_engine_takes_burst_witness :
  ∃ r' l j,
    dispatch_seq false "restore" sample_errLossMpath (replicate 4 sample_req)
      (sample_lom "/mnt/b") (newGetXact 2 "ec-get[b1]" sample_conf sample_avail sample_disabled)
      = Ret (replicate 4 None) r' ∧
    getJoggers r' !! "/mnt/b" = Some (Some l) ∧
    heap r' !! l = Some j ∧ buf (workCh j) = replicate 4 sample_req.
Proof.
  destruct (fresh_engine_takes_burst false 2 "restore" sample_errLossMpath "ec-get[b1]"
              sample_conf sample_avail sample_disabled (replicate 4 sample_req)
              (sample_lom "/mnt/b"))
    as (r' & l & j & Hrun & Hm & Hj & _ & Hq).
  - unfold sample_avail, sample_disabled. rewrite !dom_singleton_L.
    apply elem_of_union_r. by apply elem_of_singleton.
  - by left.
  - by vm_compute.
  - exists r', l, j. split_and!; [exact Hrun|exact Hm|exact Hj|exact Hq].
Defined.



Lemma attach_then_detach_witness :
  ∃ r',
    (addMpath 2 "/mnt/c" ≫= λ _, removeMpath false sample_Quote "/mnt/c") sample_xact
      = Ret tt r' ∧
    getJoggers r' = getJoggers sample_xact ∧
    length (heap r') = S (length (heap sample_xact)).
Proof.
  destruct (attach_then_detach false sample_Quote 2 "/mnt/c" sample_xact)
    as (r' & Hrun & Ht & Hh & _).
  - reflexivity.
  - exists r'. split_and!; [exact Hrun|exact Ht|].
    rewrite Hh, length_app. simpl. lia.
Defined.

Lemma detach_then_attach_witness :
  ∃ r' j,
    (removeMpath false sample_Quote "/mnt/a" ≫= λ _, addMpath 2 "/mnt/a") sample_xact
      = Ret tt r' ∧
    getJoggers r' !! "/mnt/a" = Some (Some 2%nat) ∧
    heap r' !! 0%nat = Some j ∧ stopCh j = true.
Proof.
  destruct (heap sample_xact !! 0%nat) as [j|] eqn:Hj; [|vm_compute in Hj; discriminate].
  destruct (detach_then_attach false sample_Quote 2 "/mnt/a" sample_xact 0%nat j)
    as (r' & Hrun & Ht & _ & Hold & _).
  - reflexivity.
  - exact Hj.
  - exists r', (set_stopCh true j). split_and!; [exact Hrun| |exact Hold|reflexivity].
    rewrite Ht. apply lookup_insert_eq.
Defined.

End ec.

(** ** Package cli: starting blob downloads and waiting for them *)

Module cli.

Record Bck : Type := { Name : string; Provider : string; Props : option string }.

(** [apc.BlobMsg] *)
Record BlobMsg : Type := { ChunkSize : Z; NumWorkers : Z; LatestVer : bool }.

(** [xact.ArgsMsg] *)
Record ArgsMsg : Type := { ID : string; Kind : string; Timeout : Z }.

(** [cli.Context]: the first argument and the flags as given. *)
Record Context : Type := {
  Args0 : string;
  listFlag : option string;
  chunkSizeFlag : option string;
  numBlobWorkersFlag : option Z;
  latestVerFlag : bool;
  waitJobXactFinishedFlag : option Z;
  progressFlag : bool;
  waitFlag : bool;
  nonverboseFlag : bool
}.

(** What the command writes. *)
Inductive line : Type :=
| Fprintln (s : string)        (* fmt.Fprintln(c.App.Writer, s) *)
| actionDone (s : string)
| actionWarn (s : string).

(** Calls that reach the cluster, with what came back. *)
Inductive call : Type :=
| BlobDownload (objName : string) (xid : string) (err : option error)
| Xstop (args : ArgsMsg) (err : option error)
| WaitXactBlob (args : ArgsMsg) (err : option error).

(** A [go func(objName, xid, cname, timeout)] waiting on one download. *)
Record waiter : Type := {
  w_objName : string;
  w_xid : string;
  w_cname : string;
  w_timeout : Z
}.

Section Blob.

Set Default Proof Using "Type".

(** The cluster behind the API, and what the CLI takes from files
    outside [src/]. *)
Variable Cluster : Type.
Variable api_BlobDownload : Bck -> string -> BlobMsg -> Cluster -> string * option error * Cluster.
Variable api_xstop : ArgsMsg -> Cluster -> option error * Cluster.
Variable api_waitXactBlob : ArgsMsg -> Cluster -> option error * Cluster.
Variable api_headBucket : Bck -> bool -> Cluster -> option string * option error * Cluster.
Variable V : error -> error.
Variable Error : error -> string.               (* err.Error() *)
Variable ActBlobDl : string.
Variable fmtXactSucceeded : string.
Variable Cname : Bck -> string -> string.
Variable IsRemote : Bck -> bool.
Variable xact_Cname : string -> string -> string.
Variable fcyan : string -> string.
Variable toMonitorMsg : Context -> string -> string -> string.
Variable splitCsv : string -> list string.
Variable parseBckURI : Context -> string -> bool -> Bck * option error.
Variable parseBckObjURI : Context -> string -> bool -> Bck * string * option error.
Variable parseSizeFlag : string -> Z * option error.
Variable strings_Join : list string -> string -> string.

Record World : Type := {
  cluster : Cluster;
  calls : list call;
  out : list line
}.

(** The multi-object wait shares a wait group and an error channel
    between the handler and the goroutines it starts. *)
Record Waiting : Type := {
  world : World;
  wg : Z;
  errCh : chan error
}.

Definition write (l : line) : M World unit :=
  modify (λ w, {| cluster := cluster w; calls := calls w; out := out w ++ [l] |}).

Definition xstop (args : ArgsMsg) : M World (option error) := λ w,
  let '(err, cl) := api_xstop args (cluster w) in
  Ret err {| cluster := cl; calls := calls w ++ [Xstop args err]; out := out w |}.

Definition waitXactBlob (args : ArgsMsg) : M World (option error) := λ w,
  let '(err, cl) := api_waitXactBlob args (cluster w) in
  Ret err {| cluster := cl; calls := calls w ++ [WaitXactBlob args err]; out := out w |}.

Definition headBucket (bck : Bck) (add : bool) : M World (option string * option error) := λ w,
  let '(props, err, cl) := api_headBucket bck add (cluster w) in
  Ret (props, err) {| cluster := cl; calls := calls w; out := out w |}.

Definition api_BlobDownload_call (bck : Bck) (objName : string) (msg : BlobMsg)
  : M World (string * option error) := λ w,
  let '(xid, err, cl) := api_BlobDownload bck objName msg (cluster w) in
  Ret (xid, err)
    {| cluster := cl; calls := calls w ++ [BlobDownload objName xid err]; out := out w |}.

(** The loop of [blobStartAll], with [xids] and [cnt] as built so far.
    The result is [(xids, cnt, err)]; a [nil] slice is [None]. *)
Fixpoint blobStartAll_loop (c : Context) (bck : Bck) (objNames : list string) (msg : BlobMsg)
    (xids : list string) (cnt : Z) : M World (option (list string) * Z * option error) :=
  match objNames with
  | [] => mret (Some xids, cnt, None)
  | objName :: rest =>
      '(xid, err) ← api_BlobDownload_call bck objName msg;
      match err with
      | Some err =>
          range xids (λ xid,
            errN ← xstop {| ID := xid; Kind := ActBlobDl; Timeout := 0 |};
            match errN with
            | Some errN => write (actionWarn (Error errN))
            | None => mret tt
            end);;
          mret (None, 0, Some (V err))
      | None =>
          cnt' ← (if bool_decide (xid = "")
                  then write (actionDone (Cname bck objName ++ " already downloaded, nothing to do"));;
                       mret cnt
                  else mret (cnt + 1));
          blobStartAll_loop c bck rest msg (xids ++ [xid]) cnt'
      end
  end.

Definition blobStartAll (c : Context) (bck : Bck) (objNames : list string) (msg : BlobMsg)
  : M World (option (list string) * Z * option error) :=
  blobStartAll_loop c bck objNames msg [] 0.

Definition _blobWaitOne (c : Context) (xargs : ArgsMsg) (text : string)
  : M World (option error) :=
  write (Fprintln (text ++ " ..."));;
  waitXactBlob xargs.

(** The progress-bar path ([blobAllProgress]) is taken as given. *)
Variable blobAllProgress : Context -> Bck -> list string -> list string -> M World (option error).

(** The order in which the waiting goroutines run to completion.  Each
    one is taken to run in one piece once the handler sits in
    [wg.Wait()]. *)
Variable sched : list waiter -> list waiter.

Definition lift {A} (m : M World A) : M Waiting A := λ s,
  match m (world s) with
  | Ret a w => Ret a {| world := w; wg := wg s; errCh := errCh s |}
  | Panic msg w => Panic msg {| world := w; wg := wg s; errCh := errCh s |}
  | Block w => Block {| world := w; wg := wg s; errCh := errCh s |}
  end.

(** Runs a computation over the shared wait state and keeps the world. *)
Definition with_waiting {A} (n : Z) (m : M Waiting A) : M World A := λ w,
  match m {| world := w; wg := 0; errCh := make_chan n |} with
  | Ret a s => Ret a (world s)
  | Panic msg s => Panic msg (world s)
  | Block s => Block (world s)
  end.

(** [wg.Add(delta)] *)
Definition wg_Add (delta : Z) : M Waiting unit := λ s,
  if bool_decide (wg s + delta < 0) then Panic "sync: negative WaitGroup counter" s
  else Ret tt {| world := world s; wg := wg s + delta; errCh := errCh s |}.

Definition wg_Done : M Waiting unit := wg_Add (-1).

(** [wg.Wait()] once every goroutine that will ever call [Done] has
    run: it returns at counter zero and parks for good otherwise. *)
Definition wg_Wait : M Waiting unit := λ s,
  if bool_decide (wg s = 0) then Ret tt s else Block s.

(** [errCh <- err] *)
Definition errCh_send (err : error) : M Waiting unit := λ s,
  match chan_send err (errCh s) with
  | Sent ch => Ret tt {| world := world s; wg := wg s; errCh := ch |}
  | SendBlocks => Block s
  | SendPanics => Panic "send on closed channel" s
  end.

(** [select { case err = <-errCh: default: }] *)
Definition errCh_poll : M Waiting (option error) := λ s,
  match buf (errCh s) with
  | err :: rest =>
      Ret (Some err)
        {| world := world s; wg := wg s;
           errCh := Chan rest (cap (errCh s)) (closed (errCh s)) |}
  | [] => Ret None s
  end.

(** [close(errCh)] *)
Definition errCh_close : M Waiting unit := λ s,
  match chan_close (errCh s) with
  | Some ch => Ret tt {| world := world s; wg := wg s; errCh := ch |}
  | None => Panic "close of closed channel" s
  end.

(** The goroutine started for one download. *)
Definition wait_goroutine (c : Context) (bck : Bck) (g : waiter) : M Waiting unit :=
  let text := w_cname g ++ " " ++ Cname bck (w_objName g) in
  let xargs := {| ID := w_xid g; Kind := ActBlobDl; Timeout := w_timeout g |} in
  err ← lift (_blobWaitOne c xargs text);
  match err with
  | Some err => errCh_send err
  | None => mret tt
  end;;
  wg_Done.

(** [for i := range objNames { ... go func(...){...}(...) }]: the
    goroutines started, in order; [i] is the index of the first name. *)
Fixpoint start_waiters (objNames xids : list string) (i : nat) (timeout : Z)
  : M Waiting (list waiter) :=
  match objNames with
  | [] => mret []
  | objName :: rest =>
      match xids !! i with
      | None => panic "index out of range"
      | Some xid =>
          if bool_decide (xid = "") then
            start_waiters rest xids (S i) timeout        (* continue: nothing to do *)
          else
            let cname := xact_Cname ActBlobDl xid in
            lift (write (Fprintln (fcyan cname)));;
            gs ← start_waiters rest xids (S i) timeout;
            mret ({| w_objName := objName; w_xid := xid; w_cname := cname;
                     w_timeout := timeout |} :: gs)
      end
  end.

(** The "wait multiple (no progress)" part of [blobDownloadHandler]. *)
Definition wait_multiple (c : Context) (bck : Bck) (objNames xids : list string) (timeout : Z)
  : M World (option error) :=
  with_waiting (Z.of_nat (length objNames))
    (wg_Add (Z.of_nat (length objNames));;
     gs ← start_waiters objNames xids 0 timeout;
     range (sched gs) (wait_goroutine c bck);;
     wg_Wait;;
     err ← errCh_poll;
     errCh_close;;
     mret err).

Definition blobDownloadHandler (c : Context) : M World (option error) :=
  let uri := Args0 c in
  let '(objNames, bck, err) :=
    match listFlag c with
    | Some listObjs =>
        let '(bck, err) := parseBckURI c uri true in
        (splitCsv listObjs, bck, err)
    | None =>
        let '(bck, objName, err) := parseBckObjURI c uri false in
        ([objName], bck, err)
    end in
  match err with
  | Some err => mret (Some err)
  | None =>
  '(props, err) ← headBucket bck true;
  let bck := {| Name := Name bck; Provider := Provider bck; Props := props |} in
  match err with
  | Some err => mret (Some err)
  | None =>
  if negb (IsRemote bck) then
    mret (Some (fmt_Errorf ("expecting remote bucket (have " ++ Cname bck "" ++ ")")))
  else
  (* message *)
  let '(chunkSize, err) :=
    match chunkSizeFlag c with
    | Some v => parseSizeFlag v
    | None => (0, None)
    end in
  match err with
  | Some err => mret (Some err)
  | None =>
  let msg := {| ChunkSize := chunkSize;
                NumWorkers := default 0 (numBlobWorkersFlag c);
                LatestVer := latestVerFlag c |} in
  (* start *)
  '(xids, cnt, err) ← blobStartAll c bck objNames msg;
  if bool_decide (is_Some err) || bool_decide (cnt = 0) then mret err
  else
  let xids := default [] xids in
  let timeout := default 0 (waitJobXactFinishedFlag c) in
  (* show progress, wait, or simply return *)
  if progressFlag c then
    err ← blobAllProgress c bck objNames xids;
    match err with
    | None => write (actionDone fmtXactSucceeded)
    | Some _ => mret tt
    end;;
    mret err
  else if bool_decide (length objNames = 1%nat) then
    match xids, objNames with
    | xid :: _, objName :: _ =>
        let cname := xact_Cname ActBlobDl xid in
        let text := cname ++ " " ++ Cname bck objName in
        if negb (waitFlag c) && bool_decide (timeout = 0) then
          (if nonverboseFlag c then write (Fprintln xid)
           else write (actionDone (text ++ ". " ++ toMonitorMsg c xid "")));;
          mret None
        else
          let xargs := {| ID := xid; Kind := ActBlobDl; Timeout := timeout |} in
          err ← _blobWaitOne c xargs text;
          match err with
          | None => write (actionDone fmtXactSucceeded)
          | Some _ => mret tt
          end;;
          mret err
    | _, _ => panic "index out of range"
    end
  else
    if negb (waitFlag c) && bool_decide (timeout = 0) then
      (if nonverboseFlag c then write (Fprintln (strings_Join xids " "))
       else
         let text := ActBlobDl ++ "[" ++ strings_Join xids ", " ++ "]" in
         write (actionDone (text ++ ". " ++ toMonitorMsg c ActBlobDl "")));;
      mret None
    else
      (* wait multiple (no progress) *)
      err ← wait_multiple c bck objNames xids timeout;
      match err with
      | None => write (actionDone fmtXactSucceeded)
      | Some _ => mret tt
      end;;
      mret err
  end end end.

(** *** What the call log and the results are compared with *)

Definition stop_args (xid : string) : ArgsMsg :=
  {| ID := xid; Kind := ActBlobDl; Timeout := 0 |}.

(** Downloads started without error, and stop requests, as they show in
    the call log. *)
Definition started_calls (objNames xids : list string) : list call :=
  zip_with (λ o x, BlobDownload o x None) objNames xids.

Definition stop_calls (xids : list string) (errs : list (option error)) : list call :=
  zip_with (λ x e, Xstop (stop_args x) e) xids errs.

(** Number of jobs actually started: the non-empty ids. *)
Definition started (xids : list string) : Z :=
  Z.of_nat (length (filter (λ x : string, x ≠ "") xids)).

(** A batch in two phases, as the specification words it.  First the
    downloads are requested from the cluster one object after another,
    up to the first request that fails: the ids obtained, that failure
    (object, id and error) if there is one, and the cluster as the
    requests leave it. *)
Fixpoint start_each (bck : Bck) (msg : BlobMsg) (objNames : list string) (cl : Cluster)
  : list string * option (string * string * error) * Cluster :=
  match objNames with
  | [] => ([], None, cl)
  | objName :: rest =>
      match api_BlobDownload bck objName msg cl with
      | (xid, Some err, cl1) => ([], Some (objName, xid, err), cl1)
      | (xid, None, cl1) =>
          let '(xids, failure, cl2) := start_each bck msg rest cl1 in
          (xid :: xids, failure, cl2)
      end
  end.

(** Then a stop is requested for each id in turn: what each request
    answered, and the cluster as the requests leave it. *)
Fixpoint stop_each (xids : list string) (cl : Cluster) : list (option error) * Cluster :=
  match xids with
  | [] => ([], cl)
  | xid :: rest =>
      let '(errN, cl1) := api_xstop (stop_args xid) cl in
      let '(errs, cl2) := stop_each rest cl1 in
      (errN :: errs, cl2)
  end.

(** What either phase writes: a line for every object that needed no
    download, a warning for every stop request that failed. *)
Definition nothing_to_do (bck : Bck) (objNames xids : list string) : list line :=
  omap id (zip_with (λ o x : string,
                       if bool_decide (x = "")
                       then Some (actionDone (Cname bck o ++ " already downloaded, nothing to do"))
                       else None) objNames xids).

Definition stop_warnings (errs : list (option error)) : list line :=
  omap (λ errN : option error, (λ e, actionWarn (Error e)) <$> errN) errs.

(** One turn of the stop loop of [blobStartAll]. *)
Definition stop_one (xid : string) : M World unit :=
  errN ← xstop {| ID := xid; Kind := ActBlobDl; Timeout := 0 |};
  match errN with
  | Some errN => write (actionWarn (Error errN))
  | None => mret tt
  end.

Definition wait_args (g : waiter) : ArgsMsg :=
  {| ID := w_xid g; Kind := ActBlobDl; Timeout := w_timeout g |}.

(** The waits of a run of goroutines, as they show in the call log. *)
Definition wait_calls (gs : list waiter) (results : list (option error)) : list call :=
  zip_with (λ g e, WaitXactBlob (wait_args g) e) gs results.

Definition nonempty (xids : list string) : list string :=
  filter (λ x : string, x ≠ "") xids.

(** *** Starting a batch *)

Lemma stop_one_calls xid w :
  ∃ e w', stop_one xid w = Ret tt w' ∧
          calls w' = (calls w ++ [Xstop (stop_args xid) e])%list.
Proof.
  unfold stop_one, xstop, mbind, M_bind.
  destruct (api_xstop _ (cluster w)) as [[e|] cl]; eexists; eexists; split; done.
Qed.

Lemma range_stop_calls xids w :
  ∃ errs w', range xids stop_one w = Ret tt w' ∧
             length errs = length xids ∧
             calls w' = (calls w ++ stop_calls xids errs)%list.
Proof.
  revert w. induction xids as [|x xids IH]; intros w.
  - exists [], w. split_and!; [done..|]. by rewrite app_nil_r.
  - destruct (stop_one_calls x w) as (e & w1 & H1 & Hc1).
    destruct (IH w1) as (errs & w' & Hr & Hl & Hc).
    exists (e :: errs), w'. simpl. unfold mbind, M_bind. rewrite H1. fold (@mbind (M World) _).
    split_and!; [done|by rewrite Hl|].
    rewrite Hc, Hc1. by rewrite <-app_assoc.
Qed.

Lemma started_snoc xids x :
  started (xids ++ [x]) = if bool_decide (x = "") then started xids else started xids + 1.
Proof.
  unfold started. rewrite filter_app, length_app.
  case_bool_decide as Hx.
  - rewrite filter_cons_False, filter_nil by (by intros ?). simpl. lia.
  - rewrite filter_cons_True, filter_nil by done. simpl. lia.
Qed.

Lemma blobStartAll_loop_cons c bck o rest msg xids cnt w :
  blobStartAll_loop c bck (o :: rest) msg xids cnt w =
    let '(xid, err, cl) := api_BlobDownload bck o msg (cluster w) in
    let w1 := {| cluster := cl; calls := calls w ++ [BlobDownload o xid err]; out := out w |} in
    match err with
    | Some err => (range xids stop_one ≫= λ _, mret (None, 0, Some (V err))) w1
    | None =>
        ((if bool_decide (xid = "")
          then write (actionDone (Cname bck o ++ " already downloaded, nothing to do"))
                 ≫= λ _, mret cnt
          else mret (cnt + 1))
           ≫= λ cnt', blobStartAll_loop c bck rest msg (xids ++ [xid]) cnt') w1
    end.
Proof.
  cbn [blobStartAll_loop]. unfold api_BlobDownload_call.
  unfold mbind at 1, M_bind at 1.
  by destruct (api_BlobDownload bck o msg (cluster w)) as [[x [e|]] cl].
Qed.

Lemma count_step bck o x xids w1 :
  ∃ w2,
    (if bool_decide (x = "")
     then write (actionDone (Cname bck o ++ " already downloaded, nothing to do"))
            ≫= λ _, mret (started xids)
     else mret (started xids + 1)) w1 = Ret (started (xids ++ [x])) w2 ∧
    calls w2 = calls w1.
Proof. rewrite started_snoc. case_bool_decide; eexists; split; done. Qed.

(** The loop from any point: either every remaining download started,
    or the first failure stopped everything started so far. *)
Lemma blobStartAll_loop_spec c bck objNames msg xids w :
  ∃ res w',
    blobStartAll_loop c bck objNames msg xids (started xids) w = Ret res w' ∧
    ((∃ new,
        res = (Some (xids ++ new)%list, started (xids ++ new), None) ∧
        length new = length objNames ∧
        calls w' = (calls w ++ started_calls objNames new)%list)
     ∨
     (∃ p obj rest new x err stop_errs,
        objNames = (p ++ obj :: rest)%list ∧
        length new = length p ∧ length stop_errs = length (xids ++ new) ∧
        res = (None, 0, Some (V err)) ∧
        calls w' = (calls w ++ started_calls p new ++ [BlobDownload obj x (Some err)]
                      ++ stop_calls (xids ++ new) stop_errs)%list)).
Proof.
  revert xids w. induction objNames as [|o objNames IH]; intros xids w.
  - eexists. eexists. split; [done|]. left. exists [].
    rewrite !app_nil_r. done.
  - rewrite blobStartAll_loop_cons.
    destruct (api_BlobDownload bck o msg (cluster w)) as [[x [err|]] cl]; cbv zeta.
    + destruct (range_stop_calls xids
                  {| cluster := cl; calls := calls w ++ [BlobDownload o x (Some err)];
                     out := out w |}) as (errs & w' & Hr & Hl & Hc).
      rewrite (bind_Ret _ _ _ _ _ Hr).
      eexists. eexists. split; [done|]. right.
      exists [], o, objNames, [], x, err, errs. rewrite !app_nil_r. simpl.
      split_and!; [done..|]. rewrite Hc. simpl. by rewrite <-app_assoc.
    + destruct (count_step bck o x xids
                  {| cluster := cl; calls := calls w ++ [BlobDownload o x None];
                     out := out w |}) as (w2 & Hstep & Hc2).
      rewrite (bind_Ret _ _ _ _ _ Hstep).
      destruct (IH (xids ++ [x])%list w2) as (res & w' & -> & Hres).
      exists res, w'. split; [done|].
      destruct Hres as [(new & -> & Hl & Hc)|(p & obj & rest & new & x' & err & se & -> & Hl & Hs & -> & Hc)].
      * left. exists (x :: new). rewrite <-!app_assoc. simpl.
        split_and!; [done|by rewrite Hl|].
        rewrite Hc, Hc2. simpl. by rewrite <-app_assoc.
      * right. exists (o :: p), obj, rest, (x :: new), x', err, se.
        rewrite <-!app_assoc in *. simpl.
        split_and!; [done|by rewrite Hl|done|done|].
        rewrite Hc, Hc2. simpl. by rewrite <-!app_assoc.
Qed.

(** [blobStartAll] always returns: with one id per object, or with
    nothing after a stop request for every id obtained. *)
Lemma blobStartAll_returns c bck objNames msg w :
  ∃ res w',
    blobStartAll c bck objNames msg w = Ret res w' ∧
    ((∃ xids,
        res = (Some xids, started xids, None) ∧
        length xids = length objNames ∧
        calls w' = (calls w ++ started_calls objNames xids)%list)
     ∨
     (∃ p obj rest xids x err stop_errs,
        objNames = (p ++ obj :: rest)%list ∧
        length xids = length p ∧ length stop_errs = length xids ∧
        res = (None, 0, Some (V err)) ∧
        calls w' = (calls w ++ started_calls p xids ++ [BlobDownload obj x (Some err)]
                      ++ stop_calls xids stop_errs)%list)).
Proof.
  destruct (blobStartAll_loop_spec c bck objNames msg [] w) as (res & w' & Hrun & Hres).
  exists res, w'. split; [exact Hrun|]. exact Hres.
Qed.

Lemma start_each_length bck msg objNames cl :
  match start_each bck msg objNames cl with
  | (xids, None, _) => length xids = length objNames
  | (xids, Some (obj, _, _), _) => objNames !! length xids = Some obj
  end.
Proof.
  revert cl. induction objNames as [|o objNames IH]; intros cl; [done|].
  simpl. destruct (api_BlobDownload bck o msg cl) as [[x [err|]] cl1]; [done|].
  specialize (IH cl1).
  destruct (start_each bck msg objNames cl1) as [[xids [[[obj x'] err]|]] cl2]; simpl.
  - exact IH.
  - by rewrite IH.
Qed.

(** The stop loop is [stop_each] on the cluster, with a warning for
    every request that failed. *)
Lemma range_stop_one xids w :
  range xids stop_one w =
    let '(errs, cl) := stop_each xids (cluster w) in
    Ret tt {| cluster := cl; calls := calls w ++ stop_calls xids errs;
              out := out w ++ stop_warnings errs |}.
Proof.
  revert w. induction xids as [|x xids IH]; intros w.
  - simpl. destruct w. simpl. by rewrite !app_nil_r.
  - cbn [range stop_each]. unfold mbind at 1, M_bind at 1.
    unfold stop_one at 1, xstop, mbind, M_bind. fold (stop_args x).
    destruct (api_xstop (stop_args x) (cluster w)) as [errN cl1].
    assert (∀ w1 : World, cluster w1 = cl1 →
              calls w1 = (calls w ++ [Xstop (stop_args x) errN])%list →
              out w1 = (out w ++ stop_warnings [errN])%list →
              range xids stop_one w1 =
                (let '(errs, cl2) := stop_each xids cl1 in
                 Ret tt {| cluster := cl2;
                           calls := calls w ++ stop_calls (x :: xids) (errN :: errs);
                           out := out w ++ stop_warnings (errN :: errs) |})) as Hrest.
    { intros w1 Hcl Hcalls Hout. rewrite IH, Hcl, Hcalls, Hout.
      destruct (stop_each xids cl1) as [errs cl2].
      unfold stop_warnings, stop_calls. simpl.
      destruct errN; simpl; by rewrite <-!app_assoc. }
    destruct errN as [e|]; simpl;
      rewrite Hrest by (simpl; by rewrite ?app_nil_r);
      by destruct (stop_each xids cl1).
Qed.

(** The loop of [blobStartAll] from any point, in terms of the two
    phases. *)
Lemma blobStartAll_loop_runs c bck objNames msg xids0 w :
  blobStartAll_loop c bck objNames msg xids0 (started xids0) w =
    match start_each bck msg objNames (cluster w) with
    | (xids, None, cl) =>
        Ret (Some (xids0 ++ xids)%list, started (xids0 ++ xids), None)
            {| cluster := cl; calls := calls w ++ started_calls objNames xids;
               out := out w ++ nothing_to_do bck objNames xids |}
    | (xids, Some (obj, x, err), cl) =>
        let '(errs, cl') := stop_each (xids0 ++ xids) cl in
        Ret (None, 0, Some (V err))
            {| cluster := cl';
               calls := calls w ++ started_calls objNames xids
                          ++ [BlobDownload obj x (Some err)]
                          ++ stop_calls (xids0 ++ xids) errs;
               out := out w ++ nothing_to_do bck objNames xids ++ stop_warnings errs |}
    end.
Proof.
  revert xids0 w. induction objNames as [|o objNames IH]; intros xids0 w.
  - simpl. destruct w. simpl. by rewrite !app_nil_r.
  - rewrite blobStartAll_loop_cons. cbn [start_each].
    destruct (api_BlobDownload bck o msg (cluster w)) as [[x [err|]] cl1]; cbv zeta.
    + unfold mbind, M_bind. rewrite range_stop_one. simpl. rewrite app_nil_r.
      destruct (stop_each xids0 cl1) as [errs cl2]. simpl.
      by rewrite <-!app_assoc.
    + assert (∀ w2 : World, cluster w2 = cl1 →
                calls w2 = (calls w ++ [BlobDownload o x None])%list →
                out w2 = (out w ++ nothing_to_do bck [o] [x])%list →
                blobStartAll_loop c bck objNames msg (xids0 ++ [x]) (started (xids0 ++ [x])) w2 =
                  match (let '(xids, failure, cl2) := start_each bck msg objNames cl1 in
                         (x :: xids, failure, cl2)) with
                  | (xids, None, cl) =>
                      Ret (Some (xids0 ++ xids)%list, started (xids0 ++ xids), None)
                          {| cluster := cl; calls := calls w ++ started_calls (o :: objNames) xids;
                             out := out w ++ nothing_to_do bck (o :: objNames) xids |}
                  | (xids, Some (obj, x', err), cl) =>
                      let '(errs, cl') := stop_each (xids0 ++ xids) cl in
                      Ret (None, 0, Some (V err))
                          {| cluster := cl';
                             calls := calls w ++ started_calls (o :: objNames) xids
                                        ++ [BlobDownload obj x' (Some err)]
                                        ++ stop_calls (xids0 ++ xids) errs;
                             out := out w ++ nothing_to_do bck (o :: objNames) xids
                                      ++ stop_warnings errs |}
                  end) as Hrest.
      { intros w2 Hcl Hcalls Hout. rewrite IH, Hcl, Hcalls, Hout.
        assert (∀ xids, nothing_to_do bck (o :: objNames) (x :: xids)
                        = (nothing_to_do bck [o] [x] ++ nothing_to_do bck objNames xids)%list)
          as Hsplit.
        { intros xids. unfold nothing_to_do. simpl. by case_bool_decide. }
        destruct (start_each bck msg objNames cl1) as [[xids [[[obj x'] err]|]] cl2].
        - rewrite <-(app_assoc xids0 [x] xids). simpl.
          destruct (stop_each (xids0 ++ x :: xids) cl2) as [errs cl3].
          rewrite Hsplit. simpl. by rewrite <-!app_assoc.
        - rewrite <-(app_assoc xids0 [x] xids). simpl.
          rewrite Hsplit. simpl. by rewrite <-!app_assoc. }
      rewrite started_snoc in Hrest.
      unfold mbind at 1, M_bind at 1.
      case_bool_decide as Hx.
      * unfold mbind, M_bind, write, modify. simpl. apply Hrest; simpl; [done|done|].
        unfold nothing_to_do. simpl. by rewrite bool_decide_eq_true_2 by done.
      * simpl. apply Hrest; simpl; [done|done|].
        unfold nothing_to_do. simpl. rewrite bool_decide_eq_false_2 by done.
        simpl. by rewrite app_nil_r.
Qed.

(** C10.  [blobStartAll] always returns, and what it does to the cluster
    is [start_each] followed, on a failure, by [stop_each].  Success
    (every download request answered without error): one job id per
    object name in order, as the cluster gave them (an empty id for an
    object with nothing to do, which gets a line saying so), the count
    of non-empty ids, no error.  Failure at some object: a nil id list,
    count 0 and the error (as [V] renders it), so no caller ever sees
    part of a batch; before that one stop request went to the cluster
    for every id obtained for the earlier objects, in order, the empty
    ids included.  A stop request that fails is warned about and
    changes nothing else: the cluster is left as the requests left
    it. *)
Theorem blobStartAll_atomic c bck objNames msg w :
  match start_each bck msg objNames (cluster w) with
  | (xids, None, cl) =>
      length xids = length objNames ∧
      blobStartAll c bck objNames msg w =
        Ret (Some xids, started xids, None)
            {| cluster := cl; calls := calls w ++ started_calls objNames xids;
               out := out w ++ nothing_to_do bck objNames xids |}
  | (xids, Some (obj, x, err), cl) =>
      objNames !! length xids = Some obj ∧
      blobStartAll c bck objNames msg w =
        Ret (None, 0, Some (V err))
            {| cluster := (stop_each xids cl).2;
               calls := calls w ++ started_calls objNames xids
                          ++ [BlobDownload obj x (Some err)]
                          ++ stop_calls xids (stop_each xids cl).1;
               out := out w ++ nothing_to_do bck objNames xids
                        ++ stop_warnings (stop_each xids cl).1 |}
  end.
Proof.
  pose proof (start_each_length bck msg objNames (cluster w)) as Hlen.
  pose proof (blobStartAll_loop_runs c bck objNames msg [] w) as Hrun.
  change (started []) with 0 in Hrun. unfold blobStartAll.
  destruct (start_each bck msg objNames (cluster w)) as [[xids [[[obj x] err]|]] cl].
  - split; [exact Hlen|]. simpl in Hrun. rewrite Hrun.
    by destruct (stop_each xids cl) as [errs cl2].
  - split; [exact Hlen|]. exact Hrun.
Qed.

(** *** Waiting for a batch *)

Lemma start_waiters_spec objNames xids i timeout s :
  (length objNames ≤ length (drop i xids))%nat →
  ∃ gs s',
    start_waiters objNames xids i timeout s = Ret gs s' ∧
    wg s' = wg s ∧ errCh s' = errCh s ∧
    calls (world s') = calls (world s) ∧ cluster (world s') = cluster (world s) ∧
    w_xid <$> gs = nonempty (take (length objNames) (drop i xids)) ∧
    Forall (λ g, w_timeout g = timeout) gs.
Proof.
  revert i s. induction objNames as [|o objNames IH]; intros i s Hlen.
  - exists [], s. split_and!; done.
  - simpl in Hlen. destruct (drop i xids) as [|x rest] eqn:Hd; [simpl in Hlen; lia|].
    assert (xids !! i = Some x) as Hi.
    { rewrite <-(take_drop i xids) at 1.
      assert (length (take i xids) = i) as Ht.
      { rewrite length_take. apply (f_equal length) in Hd. rewrite length_drop in Hd.
        simpl in Hd. lia. }
      rewrite Hd. by apply list_lookup_middle. }
    assert (drop (S i) xids = rest) as Hd'.
    { by rewrite (drop_S _ _ _ Hi) in Hd; injection Hd. }
    cbn [start_waiters]. rewrite Hi. unfold nonempty. simpl.
    case_bool_decide as Hx.
    + destruct (IH (S i) s) as (gs & s' & -> & ? & ? & ? & ? & Hgs & Hto).
      { rewrite Hd'. simpl in Hlen. lia. }
      exists gs, s'. split_and!; try done.
      rewrite Hgs, Hd'. unfold nonempty. by rewrite filter_cons_False by (by intros ?).
    + set (s1 := {| world := {| cluster := cluster (world s); calls := calls (world s);
                                out := out (world s) ++ [Fprintln (fcyan (xact_Cname ActBlobDl x))] |};
                    wg := wg s; errCh := errCh s |}).
      destruct (IH (S i) s1) as (gs & s' & Hrun & ? & ? & ? & ? & Hgs & Hto).
      { rewrite Hd'. simpl in Hlen. lia. }
      eexists. exists s'. split.
      { unfold mbind, M_bind, lift, write, modify. simpl. fold s1. by rewrite Hrun. }
      split_and!; try done.
      * rewrite fmap_cons, Hgs, Hd'. unfold nonempty. simpl. by rewrite filter_cons_True by done.
      * by constructor.
Qed.

Lemma wait_goroutine_spec c bck g s b n :
  errCh s = Chan b n false → (1 ≤ wg s)%Z → (Z.of_nat (length b) + 1 ≤ n)%Z →
  ∃ e s',
    wait_goroutine c bck g s = Ret tt s' ∧
    wg s' = wg s - 1 ∧
    errCh s' = Chan (b ++ option_list e) n false ∧
    calls (world s') = (calls (world s) ++ [WaitXactBlob (wait_args g) e])%list.
Proof.
  intros Hch Hwg Hroom.
  unfold wait_goroutine, _blobWaitOne, waitXactBlob, lift, write, modify, mbind, M_bind.
  simpl. fold (wait_args g).
  destruct (api_waitXactBlob (wait_args g) (cluster (world s))) as [e cl].
  exists e. destruct e as [err|]; simpl.
  - unfold errCh_send, chan_send. simpl. rewrite Hch. simpl.
    rewrite bool_decide_eq_true_2 by (unfold chan_len; simpl; lia).
    unfold wg_Done, wg_Add. simpl.
    rewrite bool_decide_eq_false_2 by lia.
    eexists. split; [done|]. simpl. split_and!; [lia|done|done].
  - unfold wg_Done, wg_Add. simpl.
    rewrite bool_decide_eq_false_2 by lia.
    eexists. split; [done|]. simpl. rewrite app_nil_r. split_and!; [lia|done|done].
Qed.

Lemma run_goroutines c bck gs s b n :
  errCh s = Chan b n false →
  (Z.of_nat (length gs) ≤ wg s)%Z →
  (Z.of_nat (length b + length gs) ≤ n)%Z →
  ∃ results s',
    range gs (wait_goroutine c bck) s = Ret tt s' ∧
    length results = length gs ∧
    wg s' = wg s - Z.of_nat (length gs) ∧
    errCh s' = Chan (b ++ omap id results) n false ∧
    calls (world s') = (calls (world s) ++ wait_calls gs results)%list.
Proof.
  revert s b. induction gs as [|g gs IH]; intros s b Hch Hwg Hroom.
  - exists [], s. simpl. rewrite !app_nil_r, Z.sub_0_r. done.
  - simpl in Hwg, Hroom.
    destruct (wait_goroutine_spec c bck g s b n) as (e & s1 & H1 & Hwg1 & Hch1 & Hc1);
      [done|lia|lia|].
    destruct (IH s1 (b ++ option_list e)%list) as (results & s' & Hr & Hl & Hwg' & Hch' & Hc').
    { done. }
    { lia. }
    { rewrite length_app. destruct e; simpl; lia. }
    exists (e :: results), s'. simpl. rewrite (bind_Ret _ _ _ _ _ H1).
    split_and!; [done|by rewrite Hl|lia| |].
    + rewrite Hch'. rewrite <-app_assoc. by destruct e.
    + rewrite Hc', Hc1. by rewrite <-app_assoc.
Qed.

(** The wait group of the multi-object wait is raised by the number of
    object names but lowered once per started goroutine: with an empty
    job id in the batch, [wg.Wait()] never returns. *)
Lemma wait_multiple_hangs c bck objNames xids timeout w :
  length xids = length objNames →
  "" ∈ xids →
  (∀ gs, length (sched gs) = length gs) →
  ∃ w', wait_multiple c bck objNames xids timeout w = Block w'.
Proof.
  intros Hlen Hempty Hsched.
  unfold wait_multiple, with_waiting.
  set (n := Z.of_nat (length objNames)).
  set (s0 := {| world := w; wg := 0; errCh := make_chan n |}).
  assert (wg_Add n s0 = Ret tt {| world := w; wg := n; errCh := make_chan n |}) as Hadd.
  { unfold wg_Add. simpl. rewrite bool_decide_eq_false_2 by lia. by rewrite Z.add_0_l. }
  rewrite (bind_Ret _ _ _ _ _ Hadd).
  destruct (start_waiters_spec objNames xids 0 timeout
              {| world := w; wg := n; errCh := make_chan n |})
    as (gs & s1 & Hst & Hwg1 & Hch1 & _ & _ & Hgs & _).
  { rewrite drop_0. lia. }
  rewrite (bind_Ret _ _ _ _ _ Hst).
  assert (length gs < length objNames)%nat as Hfew.
  { rewrite <-(length_fmap w_xid), Hgs, drop_0, take_ge by lia.
    rewrite <-Hlen. by apply (length_filter_lt _ _ ""); [|intros ?]. }
  destruct (run_goroutines c bck (sched gs) s1 [] n) as (results & s2 & Hrun & _ & Hwg2 & _ & _).
  { by rewrite Hch1. }
  { rewrite Hsched, Hwg1. simpl. lia. }
  { rewrite Hsched. simpl. lia. }
  rewrite (bind_Ret _ _ _ _ _ Hrun).
  unfold mbind, M_bind, wg_Wait.
  rewrite bool_decide_eq_false_2; [by eexists|].
  rewrite Hwg2, Hsched, Hwg1. simpl. lia.
Qed.

(** With a job id for every object the wait returns once all goroutines
    are done: the first error the waits delivered, or no error. *)
Lemma wait_multiple_returns c bck objNames xids timeout w :
  length xids = length objNames →
  "" ∉ xids →
  (∀ gs, length (sched gs) = length gs) →
  ∃ gs results w',
    wait_multiple c bck objNames xids timeout w = Ret (head (omap id results)) w' ∧
    w_xid <$> gs = xids ∧ length results = length gs ∧
    calls w' = (calls w ++ wait_calls (sched gs) results)%list.
Proof.
  intros Hlen Hempty Hsched.
  unfold wait_multiple, with_waiting.
  set (n := Z.of_nat (length objNames)).
  set (s0 := {| world := w; wg := 0; errCh := make_chan n |}).
  assert (wg_Add n s0 = Ret tt {| world := w; wg := n; errCh := make_chan n |}) as Hadd.
  { unfold wg_Add. simpl. rewrite bool_decide_eq_false_2 by lia. by rewrite Z.add_0_l. }
  rewrite (bind_Ret _ _ _ _ _ Hadd).
  destruct (start_waiters_spec objNames xids 0 timeout
              {| world := w; wg := n; errCh := make_chan n |})
    as (gs & s1 & Hst & Hwg1 & Hch1 & Hc1 & _ & Hgs & _).
  { rewrite drop_0. lia. }
  rewrite (bind_Ret _ _ _ _ _ Hst).
  assert (w_xid <$> gs = xids) as Hall.
  { rewrite Hgs, drop_0, take_ge by lia. unfold nonempty.
    clear -Hempty. induction xids as [|x xids IH]; [done|].
    apply not_elem_of_cons in Hempty as [Hx Hrest].
    rewrite filter_cons_True by done. by rewrite IH. }
  assert (length gs = length objNames) as Hgl.
  { by rewrite <-(length_fmap w_xid), Hall. }
  destruct (run_goroutines c bck (sched gs) s1 [] n) as (results & s2 & Hrun & Hrl & Hwg2 & Hch2 & Hc2).
  { by rewrite Hch1. }
  { rewrite Hsched, Hwg1. simpl. lia. }
  { rewrite Hsched. simpl. lia. }
  rewrite (bind_Ret _ _ _ _ _ Hrun).
  assert (wg_Wait s2 = Ret tt s2) as Hwait.
  { unfold wg_Wait. rewrite bool_decide_eq_true_2; [done|].
    rewrite Hwg2, Hsched, Hwg1. simpl. lia. }
  rewrite (bind_Ret _ _ _ _ _ Hwait).
  exists gs, results. unfold mbind, M_bind, errCh_poll, errCh_close. rewrite Hch2. simpl.
  exists (world s2).
  split.
  - destruct (omap id results) as [|e rest]; simpl; [by rewrite Hch2|done].
  - split_and!; [done|by rewrite Hrl, Hsched|by rewrite Hc2, Hc1].
Qed.

(** *** The handler as a whole *)

(** What the command line names: the objects, the bucket, and the parse
    error if any. *)
Definition parsed (c : Context) : list string * Bck * option error :=
  match listFlag c with
  | Some listObjs =>
      let '(bck, err) := parseBckURI c (Args0 c) true in (splitCsv listObjs, bck, err)
  | None =>
      let '(bck, objName, err) := parseBckObjURI c (Args0 c) false in ([objName], bck, err)
  end.

Definition is_wait (cl : call) : bool :=
  match cl with WaitXactBlob _ _ => true | _ => false end.

Definition is_started (cl : call) : bool :=
  match cl with BlobDownload _ _ None => true | _ => false end.

(** Neither waiting nor a timeout was asked for. *)
Definition no_wait (c : Context) : bool :=
  negb (waitFlag c) && bool_decide (default 0 (waitJobXactFinishedFlag c) = 0).

Lemma started_calls_started objNames xids :
  forallb is_started (started_calls objNames xids) = true.
Proof.
  revert xids. induction objNames as [|o objNames IH]; intros [|x xids]; try done.
  simpl. apply IH.
Qed.

Lemma stop_calls_no_wait xids errs :
  forallb (λ cl, negb (is_wait cl)) (stop_calls xids errs) = true.
Proof.
  revert errs. induction xids as [|x xids IH]; intros [|e errs]; try done.
  simpl. apply IH.
Qed.

Lemma started_no_wait cls :
  forallb is_started cls = true → forallb (λ cl, negb (is_wait cl)) cls = true.
Proof.
  induction cls as [|[o x [e|]|a e|a e] cls IH]; simpl; try done.
Qed.

Lemma started_zero xids : started xids = 0 → nonempty xids = [].
Proof. unfold started, nonempty. intros H. apply nil_length_inv. lia. Qed.

(** X13.  The handler reaches the cluster with a download, stop or wait
    request only after the command line parsed, the bucket's properties
    were read, the bucket turned out remote, the chunk size (if given)
    parsed, and at least one object was named. *)
Theorem handler_calls_need_remote_bucket c w :
  calls (final (blobDownloadHandler c w)) ≠ calls w →
  ∃ objNames bck props cl,
    parsed c = (objNames, bck, None) ∧ objNames ≠ [] ∧
    api_headBucket bck true (cluster w) = (props, None, cl) ∧
    IsRemote {| Name := Name bck; Provider := Provider bck; Props := props |} = true ∧
    (∀ v, chunkSizeFlag c = Some v → (parseSizeFlag v).2 = None).
Proof.
  unfold blobDownloadHandler, parsed.
  set (p := match listFlag c with
            | Some listObjs =>
                let '(bck, err) := parseBckURI c (Args0 c) true in (splitCsv listObjs, bck, err)
            | None =>
                let '(bck, objName, err) := parseBckObjURI c (Args0 c) false in
                ([objName], bck, err)
            end).
  destruct p as [[objNames bck] [perr|]]; [done|].
  unfold mbind at 1, M_bind at 1, headBucket at 1.
  destruct (api_headBucket bck true (cluster w)) as [[props [herr|]] cl] eqn:Hhead; [done|].
  destruct (IsRemote _) eqn:Hrem; [|done]. simpl negb. cbv iota.
  intros Hcalls. exists objNames, bck, props, cl.
  assert (∀ v, chunkSizeFlag c = Some v → (parseSizeFlag v).2 = None) as Hchunk.
  { intros v Hv. rewrite Hv in Hcalls. by destruct (parseSizeFlag v) as [sz [cerr|]]. }
  split_and!; try done.
  intros ->. apply Hcalls. clear.
  destruct (match chunkSizeFlag c with Some v => parseSizeFlag v | None => (0, None) end)
    as [sz [cerr|]]; done.
Qed.

(** Runs the checks the handler makes before it starts anything; what
    is left are the goals of the rejected command lines and the goal of
    the accepted one, standing before [blobStartAll]. *)
Ltac after_parse c w :=
  unfold mbind at 1, M_bind at 1, headBucket at 1;
  destruct (api_headBucket _ true (cluster w)) as [[?props [?herr|]] ?cl];
  [|destruct (IsRemote _);
    [cbn [negb];
     destruct (match chunkSizeFlag c with Some _ => _ | None => _ end) as [?sz [?cerr|]]
    |cbn [negb]]].

Ltac prechecks c w :=
  unfold blobDownloadHandler;
  let p := fresh "p" in
  set (p := match listFlag c with Some _ => _ | None => _ end);
  destruct p as [[?objNames ?bck] [?perr|]];
  [|after_parse c w].

(** X14.  Without [--progress], [--wait] and a timeout the handler always
    returns, and never waits for a job: its requests are the downloads of
    the batch and, when one of them failed, the stop requests that follow.
    When it returns nil every download it asked for was started. *)
Theorem handler_fire_and_forget c w :
  progressFlag c = false → no_wait c = true →
  ∃ res w' new,
    blobDownloadHandler c w = Ret res w' ∧
    calls w' = (calls w ++ new)%list ∧
    forallb (λ cl, negb (is_wait cl)) new = true ∧
    (res = None → forallb is_started new = true).
Proof.
  intros Hprog Hnw. unfold no_wait in Hnw.
  prechecks c w;
    try (eexists _, _, []; rewrite app_nil_r; by split_and!).
  set (w1 := {| cluster := cl; calls := calls w; out := out w |}).
  set (msg := {| ChunkSize := sz; NumWorkers := _; LatestVer := _ |}).
  set (bck' := {| Name := Name bck; Provider := _; Props := _ |}).
  destruct (blobStartAll_returns c bck' objNames msg w1) as (res & w2 & Hrun & Hres).
  rewrite (bind_Ret _ _ _ _ _ Hrun).
  destruct Hres as [(xids & -> & Hlen & Hcalls)
                   |(p & obj & rest & xids & x & err & serrs & -> & Hlen & Hslen & -> & Hcalls)].
  - pose proof (started_calls_started objNames xids) as Hst.
    simpl. rewrite Hprog, Hnw.
    destruct (bool_decide (started xids = 0)).
    { exists None, w2, (started_calls objNames xids).
      split_and!; [done|done|by apply started_no_wait|done]. }
    destruct (bool_decide (length objNames = 1%nat)) eqn:Hone.
    + apply bool_decide_eq_true_1 in Hone.
      destruct objNames as [|o [|??]]; try done. destruct xids as [|x [|??]]; try done.
      destruct (nonverboseFlag c); eexists None, _, _;
        (split_and!; [done|exact Hcalls|by apply started_no_wait|done]).
    + destruct (nonverboseFlag c); eexists None, _, _;
        (split_and!; [done|exact Hcalls|by apply started_no_wait|done]).
  - simpl. eexists _, w2, _. split_and!; [done|exact Hcalls| |done].
    rewrite !forallb_app. simpl. rewrite stop_calls_no_wait.
    rewrite started_no_wait by apply started_calls_started. done.
Qed.

(** X15.  A single object with [--wait] or a timeout, and no progress
    bar: the handler always returns.  It is rejected before any request;
    or its download fails and that error comes back; or the object is in
    place already and nil comes back without a wait; or the job is waited
    for once, under its own id and the timeout given, and the handler
    returns what the wait returned, reporting success exactly when that is
    nil. *)
Theorem handler_single_wait c w :
  listFlag c = None → progressFlag c = false → no_wait c = false →
  ∃ res w' new,
    blobDownloadHandler c w = Ret res w' ∧
    calls w' = (calls w ++ new)%list ∧
    ((new = [] ∧ is_Some res ∧ out w' = out w)
     ∨ (∃ o x err, new = [BlobDownload o x (Some err)] ∧ res = Some (V err))
     ∨ (∃ o, new = [BlobDownload o "" None] ∧ res = None)
     ∨ (∃ o x e,
          x ≠ "" ∧
          new = [BlobDownload o x None;
                 WaitXactBlob {| ID := x; Kind := ActBlobDl;
                                 Timeout := default 0 (waitJobXactFinishedFlag c) |} e] ∧
          res = e ∧
          (last (out w') = Some (actionDone fmtXactSucceeded) ↔ e = None))).
Proof.
  intros Hlist Hprog Hnw. unfold no_wait in Hnw.
  unfold blobDownloadHandler. rewrite Hlist.
  destruct (parseBckObjURI c (Args0 c) false) as [[bck o] [perr|]]; [|after_parse c w];
    try (eexists _, _, []; rewrite app_nil_r; split_and!; [done..|left; by eauto]).
  unfold blobStartAll. unfold mbind at 1, M_bind at 1.
  rewrite blobStartAll_loop_cons.
  destruct (api_BlobDownload _ o _ _) as [[x [err|]] cl2]; cbv zeta.
  - eexists _, _, _. split_and!; [done|done|]. right; left. by eauto.
  - simpl. rewrite Hprog, Hnw.
    destruct (decide (x = "")) as [->|Hx].
    + eexists _, _, _. split_and!; [done|done|]. do 2 right; left. by eauto.
    + rewrite (bool_decide_eq_false_2 (x = "")) by done. simpl.
      unfold _blobWaitOne, waitXactBlob, write, modify, mbind, M_bind. simpl.
      destruct (api_waitXactBlob _ cl2) as [[e|] cl3]; simpl.
      * eexists _, _, _. split_and!; [done|by rewrite <-app_assoc|].
        do 3 right. exists o, x, (Some e). split_and!; [done..|].
        cbn [out]. rewrite last_snoc. split; [by intros [=]|done].
      * eexists _, _, _. split_and!; [done|by rewrite <-app_assoc|].
        do 3 right. exists o, x, None. split_and!; [done..|].
        cbn [out]. by rewrite last_snoc.
Qed.

(** A cluster that answers every successful download with a job id. *)
Definition always_starts : Prop :=
  ∀ bck o msg cl x cl', api_BlobDownload bck o msg cl = (x, None, cl') → x ≠ "".

Lemma blobStartAll_loop_ids c bck objNames msg xids0 cnt w xids cnt' w' :
  always_starts → "" ∉ xids0 →
  blobStartAll_loop c bck objNames msg xids0 cnt w = Ret (Some xids, cnt', None) w' →
  "" ∉ xids.
Proof.
  intros Hids. revert xids0 cnt w.
  induction objNames as [|o objNames IH]; intros xids0 cnt w Hne.
  - by intros [= <- _ _].
  - rewrite blobStartAll_loop_cons.
    destruct (api_BlobDownload bck o msg (cluster w)) as [[x [err|]] cl] eqn:Hapi; cbv zeta.
    + destruct (range_stop_calls xids0
                  {| cluster := cl; calls := calls w ++ [BlobDownload o x (Some err)];
                     out := out w |}) as (errs & w1 & Hr & _).
      rewrite (bind_Ret _ _ _ _ _ Hr). by intros [=].
    + pose proof (Hids _ _ _ _ _ _ Hapi) as Hx.
      rewrite (bool_decide_eq_false_2 (x = "")) by done.
      unfold mbind at 1, M_bind at 1, mret at 1, M_ret at 1.
      apply IH. rewrite not_elem_of_app. split; [done|].
      intros Hin%list_elem_of_singleton. by apply Hx.
Qed.

Lemma filter_is_wait_started objNames xids :
  filter (λ cl, is_wait cl = true) (started_calls objNames xids) = [].
Proof.
  revert xids. induction objNames as [|o objNames IH]; intros [|x xids]; try done.
  simpl. rewrite filter_cons_False by done. apply IH.
Qed.

Lemma filter_is_started_started objNames xids :
  filter (λ cl, is_started cl = true) (started_calls objNames xids) =
    started_calls objNames xids.
Proof.
  revert xids. induction objNames as [|o objNames IH]; intros [|x xids]; try done.
  simpl. rewrite filter_cons_True by done. by rewrite IH.
Qed.

Lemma filter_is_wait_waits gs results :
  filter (λ cl, is_wait cl = true) (wait_calls gs results) = wait_calls gs results.
Proof.
  revert results. induction gs as [|g gs IH]; intros [|e results]; try done.
  simpl. rewrite filter_cons_True by done. by rewrite IH.
Qed.

Lemma filter_is_started_waits gs results :
  filter (λ cl, is_started cl = true) (wait_calls gs results) = [].
Proof.
  revert results. induction gs as [|g gs IH]; intros [|e results]; try done.
  simpl. rewrite filter_cons_False by done. apply IH.
Qed.

(** X16.  Against a cluster that answers every successful download with
    a job id, the handler without a progress bar always returns, whatever
    the command line and however the waiting goroutines are scheduled.
    When it was asked to wait and returns nil, every download of the batch
    was started and each job was waited for: as many waits as downloads,
    and no other request. *)
Theorem handler_returns c w :
  always_starts →
  (∀ gs, length (sched gs) = length gs) →
  progressFlag c = false →
  ∃ res w' new,
    blobDownloadHandler c w = Ret res w' ∧
    calls w' = (calls w ++ new)%list ∧
    (no_wait c = false → res = None →
     forallb (λ cl, is_started cl || is_wait cl) new = true ∧
     length (filter (λ cl, is_wait cl = true) new) =
       length (filter (λ cl, is_started cl = true) new)).
Proof.
  intros Hids Hsched Hprog.
  unfold no_wait.
  prechecks c w;
    try (eexists _, _, []; rewrite app_nil_r; by split_and!).
  set (w1 := {| cluster := cl; calls := calls w; out := out w |}).
  set (msg := {| ChunkSize := sz; NumWorkers := _; LatestVer := _ |}).
  set (bck' := {| Name := Name bck; Provider := _; Props := _ |}).
  destruct (blobStartAll_returns c bck' objNames msg w1) as (res & w2 & Hrun & Hres).
  rewrite (bind_Ret _ _ _ _ _ Hrun).
  destruct Hres as [(xids & -> & Hlen & Hcalls)
                   |(p & obj & rest & xids & x & err & serrs & -> & Hlen & Hslen & -> & Hcalls)].
  - assert ("" ∉ xids) as Hne.
    { eapply blobStartAll_loop_ids; [done| |exact Hrun]. by intros ?%elem_of_nil. }
    simpl. rewrite Hprog.
    destruct (bool_decide (started xids = 0)) eqn:Hcnt.
    { apply bool_decide_eq_true_1, started_zero in Hcnt.
      exists None, w2, (started_calls objNames xids).
      assert (xids = []) as ->.
      { destruct xids as [|x xids]; [done|]. unfold nonempty in Hcnt.
        rewrite filter_cons_True in Hcnt; [done|].
        intros ->. apply Hne. by left. }
      destruct objNames; [|done]. by split_and!. }
    destruct (negb (waitFlag c) && _) eqn:Hnw.
    { destruct (bool_decide (length objNames = 1%nat)) eqn:Hone.
      - apply bool_decide_eq_true_1 in Hone.
        destruct objNames as [|o [|??]]; try done. destruct xids as [|x [|??]]; try done.
        destruct (nonverboseFlag c); eexists None, _, _; (split_and!; [done|exact Hcalls|done]).
      - destruct (nonverboseFlag c); eexists None, _, _; (split_and!; [done|exact Hcalls|done]). }
    destruct (bool_decide (length objNames = 1%nat)) eqn:Hone.
    + apply bool_decide_eq_true_1 in Hone.
      destruct objNames as [|o [|??]]; try done. destruct xids as [|x [|??]]; try done.
      unfold _blobWaitOne, waitXactBlob, write, modify, mbind, M_bind. simpl.
      destruct (api_waitXactBlob _ (cluster w2)) as [[e|] cl3]; simpl.
      * eexists _, _, _. split_and!; [done|by rewrite Hcalls, <-app_assoc|done].
      * eexists _, _, _. split_and!; [done|by rewrite Hcalls, <-app_assoc|done].
    + destruct (wait_multiple_returns c bck' objNames xids
                  (default 0 (waitJobXactFinishedFlag c)) w2 Hlen Hne Hsched)
        as (gs & results & w3 & Hw & Hgs & Hrl & Hc3).
      rewrite (bind_Ret _ _ _ _ _ Hw).
      exists (head (omap id results)).
      destruct (head (omap id results)) as [e|]; simpl.
      * eexists w3, _. split_and!; [done|by rewrite Hc3, Hcalls, <-app_assoc|done].
      * eexists _, _. split_and!; [done|simpl; by rewrite Hc3, Hcalls, <-app_assoc|].
        intros _ _. split.
        -- rewrite forallb_app. apply andb_true_iff. split.
           ++ clear. revert xids.
              induction objNames as [|o objNames IH]; intros [|x xids]; try done.
              simpl. apply IH.
           ++ clear. generalize (sched gs). intros gs'. revert results.
              induction gs' as [|g gs' IH]; intros [|r results]; try done.
              simpl. apply IH.
        -- rewrite !filter_app, !length_app.
           rewrite filter_is_wait_started, filter_is_started_started,
             filter_is_wait_waits, filter_is_started_waits. simpl.
           unfold wait_calls, started_calls. rewrite !length_zip_with.
           rewrite Hsched, Hrl, Hlen.
           apply (f_equal length) in Hgs. rewrite length_fmap in Hgs. lia.
  - simpl. eexists _, w2, _. split_and!; [done|exact Hcalls|done].
Qed.

End Blob.

Arguments Build_World {Cluster} _ _ _.
Arguments cluster {Cluster} _.
Arguments calls {Cluster} _.
Arguments out {Cluster} _.

(** ** Progress bars *)

(** [core.Snap], as far as the progress loop reads it. *)
Record Snap : Type := {
  snap_ID : string;
  snap_Finished : bool;      (* snap.Finished() *)
  snap_IsAborted : bool;     (* snap.IsAborted() *)
  AbortErr : string;
  InBytes : Z;               (* snap.Stats.InBytes *)
  Bytes : Z                  (* snap.Stats.Bytes *)
}.

(** What is done to an [mpb.Bar]. *)
Inductive barOp : Type :=
| SetTotal (total : Z) (complete : bool)
| IncrInt64 (n : Z)
| Abort (drop : bool).

Record barArgs : Type := { barType : Z; barText : string; total : Z }.

(** A [go _blobOneProgress(xid, bar, errCh, refreshRate)]; the bar is
    given by its address. *)
Record poller : Type := { p_xid : string; p_bar : nat }.

(** How the polling loop is left. *)
Inductive left_by : Type := Break | Return.

(** [int64] subtraction. *)
Definition wrap64 (z : Z) : Z := (z + 2 ^ 63) mod 2 ^ 64 - 2 ^ 63.
Definition sub64 (a b : Z) : Z := wrap64 (a - b).

(** A bar that [progress.Wait()] no longer waits for. *)
Definition ended (ops : list barOp) : bool :=
  existsb (λ op, match op with
                 | SetTotal _ true | Abort _ => true
                 | _ => false
                 end) ops.

Section Progress.

Set Default Proof Using "Type".

Variable Cluster : Type.
Variable debug_ON : bool.
(** [getAnyXactSnap(&xargs)], with [xargs.DaemonID] passed next to the
    other fields; the callee is taken not to write to [xargs]. *)
Variable getAnyXactSnap : ArgsMsg -> string -> Cluster -> string * Snap * option error * Cluster.
Variable ActBlobDl : string.
Variable sizeArg : Z.
Variable Cname : Bck -> string -> string.
Variable xact_Cname : string -> string -> string.
Variable fcyan : string -> string.
Variable _refreshRate : Context -> Z.
(** The order in which the polling goroutines still to run take their
    turn once the main goroutine is in [progress.Wait()]. *)
Variable sched : list poller -> list poller.

(** The handler's world, the bars of the progress container (each one the
    list of what was done to it) and the shared error channel. *)
Record Bars : Type := {
  b_world : World Cluster;
  b_bars : list (list barOp);
  b_errCh : chan error
}.

Definition in_world {A} (m : M (World Cluster) A) : M Bars A := λ s,
  match m (b_world s) with
  | Ret a w => Ret a {| b_world := w; b_bars := b_bars s; b_errCh := b_errCh s |}
  | Panic msg w => Panic msg {| b_world := w; b_bars := b_bars s; b_errCh := b_errCh s |}
  | Block w => Block {| b_world := w; b_bars := b_bars s; b_errCh := b_errCh s |}
  end.

(** Runs a computation with a fresh progress container and error channel
    and keeps the world. *)
Definition with_bars {A} (n : Z) (m : M Bars A) : M (World Cluster) A := λ w,
  match m {| b_world := w; b_bars := []; b_errCh := make_chan n |} with
  | Ret a s => Ret a (b_world s)
  | Panic msg s => Panic msg (b_world s)
  | Block s => Block (b_world s)
  end.

Definition poll_snap (xargs : ArgsMsg) (daemonID : string)
  : M Bars (string * Snap * option error) := λ s,
  let '(daemon, snap, errN, cl) := getAnyXactSnap xargs daemonID (cluster (b_world s)) in
  Ret (daemon, snap, errN)
    {| b_world := {| cluster := cl; calls := calls (b_world s); out := out (b_world s) |};
       b_bars := b_bars s; b_errCh := b_errCh s |}.

Definition bar_do (bar : nat) (op : barOp) : M Bars unit := λ s,
  match b_bars s !! bar with
  | None => Panic "invalid address" s
  | Some ops =>
      Ret tt {| b_world := b_world s; b_bars := <[bar := (ops ++ [op])%list]> (b_bars s);
                b_errCh := b_errCh s |}
  end.

(** [errCh <- err] *)
Definition bars_send (err : error) : M Bars unit := λ s,
  match chan_send err (b_errCh s) with
  | Sent ch => Ret tt {| b_world := b_world s; b_bars := b_bars s; b_errCh := ch |}
  | SendBlocks => Block s
  | SendPanics => Panic "send on closed channel" s
  end.

(** [select { case err = <-errCh: default: }] *)
Definition bars_poll : M Bars (option error) := λ s,
  match buf (b_errCh s) with
  | err :: rest =>
      Ret (Some err)
        {| b_world := b_world s; b_bars := b_bars s;
           b_errCh := Chan rest (cap (b_errCh s)) (closed (b_errCh s)) |}
  | [] => Ret None s
  end.

(** [close(errCh)] *)
Definition bars_close : M Bars unit := λ s,
  match chan_close (b_errCh s) with
  | Some ch => Ret tt {| b_world := b_world s; b_bars := b_bars s; b_errCh := ch |}
  | None => Panic "close of closed channel" s
  end.

(** [simpleBar(bargs...)] is outside [src/] and taken as given; the
    bars it returns are addresses in the container. *)
Variable simpleBar : list barArgs -> M Bars (list nat).

(** What its caller expects of [simpleBar]: one new bar per argument, in
    the order of the arguments, and nothing else touched. *)
Definition one_bar_each : Prop :=
  ∀ bargs s,
    simpleBar bargs s =
      Ret (seq (length (b_bars s)) (length bargs))
        {| b_world := b_world s;
           b_bars := (b_bars s ++ replicate (length bargs) [])%list;
           b_errCh := b_errCh s |}.

(** [progress.Wait()] is [mpb]'s: it returns once every bar of the
    container is completed or aborted, and keeps the caller parked
    otherwise. *)
Definition progress_Wait : M Bars unit := λ s,
  if forallb ended (b_bars s) then Ret tt s else Block s.

(** The loop of [_blobOneProgress], with its variables as arguments.
    [fuel] bounds the number of polls; a loop that is still polling when
    it runs out has not returned. *)
Fixpoint _blobOneProgress_loop (fuel : nat) (xid : string) (bar : nat) (sleep : Z)
    (daemonID : string) (currSize fullSize : Z) : M Bars left_by :=
  match fuel with
  | O => block
  | S fuel =>
      '(daemon, snap, errN) ←
        poll_snap {| ID := xid; Kind := ActBlobDl; Timeout := 0 |} daemonID;
      match errN with
      | Some errN => bars_send errN;; mret Break
      | None =>
          let done := snap_Finished snap in
          debug.Assert debug_ON (bool_decide (snap_ID snap = xid)) "snap.ID == xargs.ID";;
          let daemonID := if bool_decide (daemonID = "") then daemon else daemonID in
          fullSize ← (if bool_decide (fullSize < 0) && bool_decide (InBytes snap ≠ 0)
                      then bar_do bar (SetTotal (InBytes snap) false);; mret (InBytes snap)
                      else mret fullSize : M Bars Z);
          debug.Assert debug_ON (bool_decide (daemonID = daemon)) "xargs.DaemonID == daemonID";;
          '(currSize, done) ←
            (if bool_decide (Bytes snap ≠ 0)
             then bar_do bar (IncrInt64 (sub64 (Bytes snap) currSize));;
                  mret (Bytes snap, done || bool_decide (Bytes snap = fullSize))
             else mret (currSize, done) : M Bars (Z * bool));
          if snap_IsAborted snap && (bool_decide (0 < fullSize) && bool_decide (currSize < fullSize))
          then bars_send (errors_New (AbortErr snap));; mret Break
          else if (done : bool) then bar_do bar (SetTotal currSize true);; mret Return
          else (* time.Sleep(sleep) *)
            _blobOneProgress_loop fuel xid bar sleep daemonID currSize fullSize
      end
  end.

Definition _blobOneProgress (fuel : nat) (xid : string) (bar : nat) (sleep : Z) : M Bars unit :=
  how ← _blobOneProgress_loop fuel xid bar sleep "" 0 (-1);
  match how with
  | Break => bar_do bar (Abort true)
  | Return => mret tt
  end.

(** [for i := range xids { if xids[i] != "" { bargs = append(...) } }] *)
Fixpoint progress_bargs (bck : Bck) (objNames xids : list string) (i : nat)
  : M Bars (list barArgs) :=
  match xids with
  | [] => mret []
  | xid :: rest =>
      if bool_decide (xid ≠ "") then
        match objNames !! i with
        | None => panic "index out of range"
        | Some objName =>
            bargs ← progress_bargs bck objNames rest (S i);
            mret ({| barType := sizeArg; barText := Cname bck objName; total := 0 |} :: bargs)
        end
      else progress_bargs bck objNames rest (S i)
  end.

(** Which goroutines get to run while the main goroutine is still in its
    loop: of those started and not yet run, the ones that run before the
    next turn of the loop, in that order, and the ones left for later. *)
Variable sched_early : list poller -> list poller * list poller.

(** A goroutine next to the main one, run as far as it gets.  One that is
    still polling when its fuel is spent, or parked on the error channel,
    holds up nobody else; a panic in it ends the program. *)
Definition go_run (m : M Bars unit) : M Bars unit := λ s,
  match m s with
  | Ret _ s' => Ret tt s'
  | Block s' => Ret tt s'
  | Panic msg s' => Panic msg s'
  end.

(** [for i := range objNames { if xids[i] != "" { ... go _blobOneProgress(...) } }];
    [i] is the index of the first of [names], [pending] the goroutines
    started and not yet run.  After each [go] statement the scheduler may
    let some of them run; the result is those still to run when the loop is
    left. *)
Fixpoint start_pollers (fuel : nat) (sleep : Z) (names xids : list string) (bars : list nat)
    (i : nat) (pending : list poller) : M Bars (list poller) :=
  match names with
  | [] => mret pending
  | _ :: rest =>
      match xids !! i with
      | None => panic "index out of range"
      | Some xid =>
          if bool_decide (xid ≠ "") then
            match bars !! i with
            | None => panic "index out of range"
            | Some bar =>
                let cname := xact_Cname ActBlobDl xid in
                in_world (write Cluster (Fprintln (fcyan cname)));;
                let '(now, later) :=
                  sched_early (pending ++ [{| p_xid := xid; p_bar := bar |}])%list in
                range now (λ g, go_run (_blobOneProgress fuel (p_xid g) (p_bar g) sleep));;
                start_pollers fuel sleep rest xids bars (S i) later
            end
          else start_pollers fuel sleep rest xids bars (S i) pending
      end
  end.

Definition blobAllProgress (fuel : nat) (c : Context) (bck : Bck) (objNames xids : list string)
  : M (World Cluster) (option error) :=
  with_bars (Z.of_nat (length xids))
    (let refreshRate := _refreshRate c in
     debug.Assert debug_ON (bool_decide (length xids = length objNames))
       "len(xids) == len(objNames)";;
     bargs ← progress_bargs bck objNames xids 0;
     bars ← simpleBar bargs;
     gs ← start_pollers fuel refreshRate objNames xids bars 0 [];
     range (sched gs) (λ g, go_run (_blobOneProgress fuel (p_xid g) (p_bar g) refreshRate));;
     progress_Wait;;
     err ← bars_poll;
     (if bool_decide (length objNames = 1%nat) then bars_close else mret tt);;
     mret err).

(** The scheduler runs goroutines that were started, and no others. *)
Definition runs_started : Prop :=
  ∀ gs g, g ∈ ((sched_early gs).1 ++ (sched_early gs).2)%list → g ∈ gs.

(** *** Bars and job ids *)

Lemma progress_bargs_spec bck objNames xids i s :
  (length xids + i ≤ length objNames)%nat →
  ∃ bargs,
    progress_bargs bck objNames xids i s = Ret bargs s ∧
    length bargs = length (nonempty xids).
Proof.
  revert i. induction xids as [|x xids IH]; intros i Hlen.
  - by exists [].
  - simpl in Hlen. destruct (IH (S i)) as (bargs & Hrun & Hl); [lia|].
    cbn [progress_bargs]. unfold nonempty in *. case_bool_decide as Hx.
    + destruct (lookup_lt_is_Some_2 objNames i) as [o Ho]; [lia|].
      rewrite Ho. eexists. unfold mbind, M_bind. rewrite Hrun. split; [done|].
      rewrite filter_cons_True by done. simpl. by rewrite Hl.
    + exists bargs. split; [done|]. rewrite filter_cons_False; [done|]. by intros ?.
Qed.

Lemma last_nonempty (xids : list string) i x :
  xids !! i = Some x → x ≠ "" →
  ∃ j y, (i ≤ j)%nat ∧ xids !! j = Some y ∧ y ≠ "" ∧ Forall (λ z, z = "") (drop (S j) xids).
Proof.
  revert i x. induction xids as [|a xids IH] using rev_ind; intros i x Hi Hx; [done|].
  destruct (decide (a = "")) as [->|Ha].
  - assert (xids !! i = Some x) as Hi'.
    { apply lookup_app_Some in Hi as [Hi|[Hge Hi]]; [done|].
      destruct (i - length xids)%nat; [|done]. simpl in Hi. congruence. }
    destruct (IH i x Hi' Hx) as (j & y & Hij & Hj & Hy & Hall).
    exists j, y. split_and!; [done|by apply lookup_app_l_Some|done|].
    rewrite drop_app_le by (apply lookup_lt_Some in Hj; lia).
    apply Forall_app. split; [done|]. by constructor.
  - exists (length xids), a. split_and!.
    + apply lookup_lt_Some in Hi. rewrite length_app in Hi. simpl in Hi. lia.
    + by apply list_lookup_middle.
    + done.
    + rewrite drop_ge; [done|]. rewrite length_app. simpl. lia.
Qed.

Lemma count_nonempty_le (xids : list string) i j :
  xids !! i = Some "" → (i < j)%nat → Forall (λ z, z = "") (drop (S j) xids) →
  (length (nonempty xids) ≤ j)%nat.
Proof.
  intros Hi Hij Hall. rewrite <-(take_drop (S j) xids). unfold nonempty.
  rewrite filter_app, length_app.
  assert (filter (λ x : string, x ≠ "") (drop (S j) xids) = []) as ->.
  { induction Hall as [|z l Hz _ IH]; [done|]. by rewrite filter_cons_False by (by intros ?). }
  assert (length (filter (λ x : string, x ≠ "") (take (S j) xids)) < length (take (S j) xids))%nat.
  { apply (length_filter_lt _ _ ""); [|by intros ?].
    apply list_elem_of_lookup. exists i. rewrite lookup_take_lt by lia. done. }
  rewrite length_take in H. simpl. lia.
Qed.


(** *** One job behind its bar *)

(** What the increments of a bar add up to. *)
Definition incr_sum (ops : list barOp) : Z :=
  foldr (λ op acc, match op with IncrInt64 n => n + acc | _ => acc end) 0 ops.

Definition set_cluster (cl : Cluster) (s : Bars) : Bars :=
  {| b_world := {| cluster := cl; calls := calls (b_world s); out := out (b_world s) |};
     b_bars := b_bars s; b_errCh := b_errCh s |}.

Definition set_bar (bar : nat) (ops : list barOp) (s : Bars) : Bars :=
  {| b_world := b_world s; b_bars := <[bar := ops]> (b_bars s); b_errCh := b_errCh s |}.

Lemma wrap64_add_r a b : wrap64 (a + wrap64 b) = wrap64 (a + b).
Proof.
  unfold wrap64. f_equal.
  replace (a + ((b + 2 ^ 63) mod 2 ^ 64 - 2 ^ 63) + 2 ^ 63)
    with (a + (b + 2 ^ 63) mod 2 ^ 64) by lia.
  rewrite Zplus_mod_idemp_r. f_equal. lia.
Qed.

Lemma incr_sum_app ops1 ops2 : incr_sum (ops1 ++ ops2) = incr_sum ops1 + incr_sum ops2.
Proof.
  induction ops1 as [|[]]; simpl; lia.
Qed.

Lemma ended_app ops1 ops2 : ended (ops1 ++ ops2) = ended ops1 || ended ops2.
Proof. apply existsb_app. Qed.

Lemma bar_do_eq bar op s ops :
  b_bars s !! bar = Some ops →
  bar_do bar op s = Ret tt (set_bar bar (ops ++ [op]) s).
Proof. intros H. unfold bar_do. by rewrite H. Qed.

Lemma set_bar_id bar ops s : b_bars s !! bar = Some ops → set_bar bar ops s = s.
Proof. intros H. unfold set_bar. rewrite list_insert_id by done. by destruct s. Qed.

Lemma set_bar_lookup bar ops ops' s :
  b_bars s !! bar = Some ops → b_bars (set_bar bar ops' s) !! bar = Some ops'.
Proof. intros H. simpl. apply list_lookup_insert_eq. by apply lookup_lt_Some in H. Qed.

Lemma set_bar_set_bar bar ops ops' s : set_bar bar ops' (set_bar bar ops s) = set_bar bar ops' s.
Proof. unfold set_bar. simpl. by rewrite list_insert_insert_eq. Qed.

(** One turn of the loop, with the tests made and the state reached
    written out. *)
Lemma _blobOneProgress_loop_S fuel xid bar sleep d cs fs s ops :
  debug_ON = false → b_bars s !! bar = Some ops →
  _blobOneProgress_loop (S fuel) xid bar sleep d cs fs s =
    let '(daemon, snap, errN, cl) :=
      getAnyXactSnap {| ID := xid; Kind := ActBlobDl; Timeout := 0 |} d (cluster (b_world s)) in
    match errN with
    | Some errN => (bars_send errN ≫= λ _, mret Break) (set_cluster cl s)
    | None =>
        let d' := if bool_decide (d = "") then daemon else d in
        let sized := bool_decide (fs < 0) && bool_decide (InBytes snap ≠ 0) in
        let fs' := if sized then InBytes snap else fs in
        let moved := bool_decide (Bytes snap ≠ 0) in
        let cs' := if moved then Bytes snap else cs in
        let inc := ((if sized then [SetTotal (InBytes snap) false] else []) ++
                    (if moved then [IncrInt64 (sub64 (Bytes snap) cs)] else []))%list in
        let done := if moved then snap_Finished snap || bool_decide (Bytes snap = fs')
                    else snap_Finished snap in
        let s2 := set_bar bar (ops ++ inc) (set_cluster cl s) in
        if snap_IsAborted snap && (bool_decide (0 < fs') && bool_decide (cs' < fs'))
        then (bars_send (errors_New (AbortErr snap)) ≫= λ _, mret Break) s2
        else if done then (bar_do bar (SetTotal cs' true) ≫= λ _, mret Return) s2
        else _blobOneProgress_loop fuel xid bar sleep d' cs' fs' s2
    end.
Proof.
  intros Hdbg Hops. cbn [_blobOneProgress_loop].
  unfold mbind at 1, M_bind at 1, poll_snap.
  destruct (getAnyXactSnap _ d (cluster (b_world s))) as [[[daemon snap] [errN|]] cl]; [done|].
  fold (set_cluster cl s).
  assert (b_bars (set_cluster cl s) !! bar = Some ops) as Hops1 by done.
  unfold debug.Assert. rewrite Hdbg. cbn [andb].
  unfold mbind at 1, M_bind at 1, mret at 1, M_ret at 1.
  cbv zeta.
  destruct (bool_decide (fs < 0) && bool_decide (InBytes snap ≠ 0)) eqn:Hsized;
    destruct (bool_decide (Bytes snap ≠ 0)) eqn:Hmoved;
    unfold mbind, M_bind, mret, M_ret;
    rewrite ?(bar_do_eq _ _ _ _ Hops1); cbn [app];
    rewrite ?(bar_do_eq _ _ _ _ (set_bar_lookup _ _ _ _ Hops1)), ?set_bar_set_bar,
      ?app_nil_r, ?(set_bar_id _ _ _ Hops1);
    rewrite <-?app_assoc; cbn [app];
    (destruct (snap_IsAborted snap && _); [done|]);
    (match goal with |- (if ?b then _ else _) _ = _ => destruct b; [|done] end);
    rewrite ?(bar_do_eq _ _ _ _ Hops1),
      ?(bar_do_eq _ _ _ _ (set_bar_lookup _ _ _ _ Hops1)), ?set_bar_set_bar;
    rewrite <-?app_assoc; done.
Qed.

Lemma bars_send_room e s :
  closed (b_errCh s) = false → chan_len (b_errCh s) < cap (b_errCh s) →
  bars_send e s =
    Ret tt {| b_world := b_world s; b_bars := b_bars s;
              b_errCh := Chan (buf (b_errCh s) ++ [e]) (cap (b_errCh s)) false |}.
Proof.
  intros Hopen Hroom. unfold bars_send, chan_send. rewrite Hopen.
  by rewrite bool_decide_eq_true_2.
Qed.

Lemma _blobOneProgress_loop_spec fuel xid bar sleep d cs fs s ops :
  debug_ON = false → b_bars s !! bar = Some ops →
  closed (b_errCh s) = false → chan_len (b_errCh s) < cap (b_errCh s) →
  ∃ inc,
    ended inc = false ∧
    match _blobOneProgress_loop fuel xid bar sleep d cs fs s with
    | Ret Return s' =>
        ∃ n, wrap64 (cs + incr_sum inc) = wrap64 n ∧
             b_bars s' = <[bar := (ops ++ inc ++ [SetTotal n true])%list]> (b_bars s) ∧
             b_errCh s' = b_errCh s
    | Ret Break s' =>
        ∃ e, b_bars s' = <[bar := (ops ++ inc)%list]> (b_bars s) ∧
             b_errCh s' = Chan (buf (b_errCh s) ++ [e]) (cap (b_errCh s)) false
    | Block s' =>
        b_bars s' = <[bar := (ops ++ inc)%list]> (b_bars s) ∧ b_errCh s' = b_errCh s
    | Panic _ _ => False
    end.
Proof.
  intros Hdbg. revert d cs fs s ops.
  induction fuel as [|fuel IH]; intros d cs fs s ops Hops Hopen Hroom.
  { exists []. split; [done|]. simpl. rewrite app_nil_r. by rewrite list_insert_id. }
  rewrite (_blobOneProgress_loop_S _ _ _ _ _ _ _ _ ops) by done.
  destruct (getAnyXactSnap _ d (cluster (b_world s))) as [[[daemon snap] [errN|]] cl].
  { exists []. split; [done|]. unfold mbind, M_bind.
    rewrite bars_send_room by done. simpl. exists errN.
    rewrite app_nil_r. by rewrite list_insert_id. }
  cbv zeta.
  set (sized := bool_decide (fs < 0) && bool_decide (InBytes snap ≠ 0)).
  set (fs' := if sized then InBytes snap else fs).
  set (moved := bool_decide (Bytes snap ≠ 0)).
  set (cs' := if moved then Bytes snap else cs).
  set (inc := ((if sized then [SetTotal (InBytes snap) false] else []) ++
               (if moved then [IncrInt64 (sub64 (Bytes snap) cs)] else []))%list).
  set (done := if moved then snap_Finished snap || bool_decide (Bytes snap = fs')
               else snap_Finished snap).
  set (s2 := set_bar bar (ops ++ inc) (set_cluster cl s)).
  assert (ended inc = false) as Hinc.
  { unfold inc. by destruct sized, moved. }
  assert (wrap64 (cs + incr_sum inc) = wrap64 cs') as Hsum.
  { unfold inc, cs', sub64. destruct sized, moved; simpl; rewrite ?Z.add_0_r; try done;
      rewrite wrap64_add_r; f_equal; lia. }
  assert (b_bars s2 !! bar = Some (ops ++ inc)%list) as Hops2.
  { by apply (set_bar_lookup _ ops). }
  destruct (snap_IsAborted snap && _).
  { exists inc. split; [done|]. unfold mbind, M_bind.
    rewrite bars_send_room by done. simpl. by eexists. }
  destruct done.
  { exists inc. split; [done|]. unfold mbind, M_bind.
    rewrite (bar_do_eq _ _ _ _ Hops2). simpl. exists cs'.
    split_and!; [done| |done]. by rewrite list_insert_insert_eq, <-app_assoc. }
  destruct (IH (if bool_decide (d = "") then daemon else d) cs' fs' s2 (ops ++ inc)%list)
    as (inc' & Hinc' & Hrun); [done..|].
  exists (inc ++ inc')%list. split.
  { rewrite ended_app, Hinc, Hinc'. done. }
  destruct (_blobOneProgress_loop fuel _ _ _ _ _ _ s2) as [[] s'|?|s'].
  - destruct Hrun as (e & Hb & He). exists e. split; [|done].
    rewrite Hb. simpl. by rewrite list_insert_insert_eq, <-app_assoc.
  - destruct Hrun as (n & Hn & Hb & He). exists n. split_and!; [| |done].
    + rewrite <-Hn, incr_sum_app.
      replace (cs + (incr_sum inc + incr_sum inc')) with (incr_sum inc' + (cs + incr_sum inc))
        by lia.
      rewrite <-wrap64_add_r, Hsum, wrap64_add_r. f_equal. lia.
    + rewrite Hb. simpl. by rewrite list_insert_insert_eq, <-!app_assoc.
  - done.
  - destruct Hrun as [Hb He]. split; [|done].
    rewrite Hb. simpl. by rewrite list_insert_insert_eq, <-app_assoc.
Qed.

(** X18.  One polling goroutine, built without the debug tag, on a bar of
    the container and an open error channel with room for one value.  It
    never panics and never parks on the channel.  When it returns it has
    either completed its bar, at the job's byte count, which is what the
    increments of the bar add up to ([int64] arithmetic), with nothing sent
    on the channel; or sent exactly one error and aborted the bar.  Until
    then the bar is neither completed nor aborted. *)
Theorem _blobOneProgress_ends fuel xid bar sleep s ops :
  debug_ON = false → b_bars s !! bar = Some ops →
  closed (b_errCh s) = false → chan_len (b_errCh s) < cap (b_errCh s) →
  ∃ inc,
    ended inc = false ∧
    match _blobOneProgress fuel xid bar sleep s with
    | Ret _ s' =>
        (∃ n, wrap64 (incr_sum inc) = wrap64 n ∧
              b_bars s' = <[bar := (ops ++ inc ++ [SetTotal n true])%list]> (b_bars s) ∧
              b_errCh s' = b_errCh s)
        ∨
        (∃ e, b_bars s' = <[bar := (ops ++ inc ++ [Abort true])%list]> (b_bars s) ∧
              b_errCh s' = Chan (buf (b_errCh s) ++ [e]) (cap (b_errCh s)) false)
    | Block s' =>
        b_bars s' = <[bar := (ops ++ inc)%list]> (b_bars s) ∧ b_errCh s' = b_errCh s
    | Panic _ _ => False
    end.
Proof.
  intros Hdbg Hops Hopen Hroom.
  destruct (_blobOneProgress_loop_spec fuel xid bar sleep "" 0 (-1) s ops Hdbg Hops Hopen Hroom)
    as (inc & Hinc & Hrun).
  exists inc. split; [done|]. unfold _blobOneProgress, mbind, M_bind.
  destruct (_blobOneProgress_loop fuel xid bar sleep "" 0 (-1) s) as [[] s'|?|s']; [| |done..].
  - destruct Hrun as (e & Hb & He).
    assert (b_bars s' !! bar = Some (ops ++ inc)%list) as Hops'.
    { rewrite Hb. apply list_lookup_insert_eq. by apply lookup_lt_Some in Hops. }
    rewrite (bar_do_eq _ _ _ _ Hops'). right. exists e. simpl.
    split; [|done]. by rewrite Hb, list_insert_insert_eq, <-app_assoc.
  - destruct Hrun as (n & Hn & Hb & He). left. exists n. by rewrite Z.add_0_l in Hn.
Qed.


(** *** The batch behind its bars *)

(** A computation that neither logs a request nor prints. *)
Definition quiet {A} (m : M Bars A) : Prop :=
  ∀ s, calls (b_world (final (m s))) = calls (b_world s) ∧
       out (b_world (final (m s))) = out (b_world s).

Lemma quiet_bind {A B} (m : M Bars A) (k : A → M Bars B) :
  quiet m → (∀ a, quiet (k a)) → quiet (m ≫= k).
Proof.
  intros Hm Hk s. unfold mbind, M_bind. specialize (Hm s).
  destruct (m s) as [a s1| |]; [|done..].
  destruct (Hk a s1) as [? ?]. simpl in Hm. destruct Hm. split; congruence.
Qed.

Lemma quiet_ret {A} (a : A) : quiet (mret a).
Proof. by intros s. Qed.

Lemma quiet_poll_snap xargs d : quiet (poll_snap xargs d).
Proof.
  intros s. unfold poll_snap.
  by destruct (getAnyXactSnap xargs d (cluster (b_world s))) as [[[? ?] ?] ?].
Qed.

Lemma quiet_bars_send e : quiet (bars_send e).
Proof. intros s. unfold bars_send. by destruct (chan_send e (b_errCh s)). Qed.

Lemma quiet_bar_do bar op : quiet (bar_do bar op).
Proof. intros s. unfold bar_do. by destruct (b_bars s !! bar). Qed.

Lemma quiet_Assert cond msg : quiet (debug.Assert debug_ON cond msg).
Proof. intros s. unfold debug.Assert. by destruct (debug_ON && negb cond). Qed.

Lemma quiet_loop fuel xid bar sleep d cs fs :
  quiet (_blobOneProgress_loop fuel xid bar sleep d cs fs).
Proof.
  revert d cs fs. induction fuel as [|fuel IH]; intros d cs fs; [by intros s|].
  cbn [_blobOneProgress_loop].
  apply quiet_bind; [apply quiet_poll_snap|]. intros [[daemon snap] [errN|]].
  { apply quiet_bind; [apply quiet_bars_send|]. intros _. apply quiet_ret. }
  apply quiet_bind; [apply quiet_Assert|]. intros _.
  apply quiet_bind.
  { destruct (_ && _); [|apply quiet_ret].
    apply quiet_bind; [apply quiet_bar_do|]. intros _. apply quiet_ret. }
  intros fs'. apply quiet_bind; [apply quiet_Assert|]. intros _.
  apply quiet_bind.
  { destruct (bool_decide (Bytes snap ≠ 0)); [|apply quiet_ret].
    apply quiet_bind; [apply quiet_bar_do|]. intros _. apply quiet_ret. }
  intros [cs' done].
  destruct (_ && _).
  { apply quiet_bind; [apply quiet_bars_send|]. intros _. apply quiet_ret. }
  destruct done; [|apply IH].
  apply quiet_bind; [apply quiet_bar_do|]. intros _. apply quiet_ret.
Qed.

Lemma quiet_blobOneProgress fuel xid bar sleep : quiet (_blobOneProgress fuel xid bar sleep).
Proof.
  apply quiet_bind; [apply quiet_loop|]. intros []; [apply quiet_bar_do|apply quiet_ret].
Qed.

Lemma quiet_range {A} (xs : list A) (body : A → M Bars unit) :
  (∀ x, quiet (body x)) → quiet (range xs body).
Proof.
  intros Hb. induction xs as [|x xs IH]; [apply quiet_ret|].
  simpl. apply quiet_bind; [apply Hb|]. by intros _.
Qed.

(** An outcome that is no panic, with the container as large and the
    error channel as open as in [s]. *)
Definition steady {A} (s : Bars) (o : outcome Bars A) : Prop :=
  match o with
  | Panic _ _ => False
  | _ => length (b_bars (final o)) = length (b_bars s) ∧ closed (b_errCh (final o)) = false
  end.

Lemma steady_bind {A B} (m : M Bars A) (k : A → M Bars B) s :
  steady s (m s) →
  (∀ a s1, m s = Ret a s1 → length (b_bars s1) = length (b_bars s) →
           closed (b_errCh s1) = false → steady s1 (k a s1)) →
  steady s ((m ≫= k) s).
Proof.
  intros Hm Hk. unfold mbind, M_bind. destruct (m s) as [a s1| |] eqn:E; [|done..].
  destruct Hm as [Hl Hc]. simpl in Hl, Hc. specialize (Hk a s1 eq_refl Hl Hc).
  destruct (k a s1); [|done|]; destruct Hk as [Hl' Hc']; split; simpl in *; congruence.
Qed.

Lemma steady_bars_send e s : closed (b_errCh s) = false → steady s (bars_send e s).
Proof.
  intros Hopen. unfold bars_send, chan_send. rewrite Hopen.
  by case_bool_decide.
Qed.

(** A polling goroutine without the debug tag never panics, whether or
    not the error channel has room. *)
Lemma _blobOneProgress_loop_steady fuel xid bar sleep d cs fs s :
  debug_ON = false → (bar < length (b_bars s))%nat → closed (b_errCh s) = false →
  steady s (_blobOneProgress_loop fuel xid bar sleep d cs fs s).
Proof.
  intros Hdbg. revert d cs fs s.
  induction fuel as [|fuel IH]; intros d cs fs s Hbar Hopen; [done|].
  destruct (lookup_lt_is_Some_2 _ _ Hbar) as [ops Hops].
  rewrite (_blobOneProgress_loop_S _ _ _ _ _ _ _ _ ops) by done.
  destruct (getAnyXactSnap _ d (cluster (b_world s))) as [[[daemon snap] [errN|]] cl].
  { apply (steady_bind _ _ (set_cluster cl s)); [by apply steady_bars_send|].
    by intros [] s1 _ ? ?. }
  cbv zeta.
  set (inc := ((if bool_decide (fs < 0) && bool_decide (InBytes snap ≠ 0) then _ else _) ++
               (if bool_decide (Bytes snap ≠ 0) then _ else _))%list).
  set (s2 := set_bar bar (ops ++ inc) (set_cluster cl s)).
  assert (∀ A (o : outcome Bars A), steady s2 o → steady s o) as Hback.
  { intros A o. unfold steady, s2. simpl. by rewrite length_insert. }
  apply Hback.
  assert (bar < length (b_bars s2))%nat as Hbar2 by (simpl; by rewrite length_insert).
  assert (b_bars s2 !! bar = Some (ops ++ inc)%list) as Hops2
    by (by apply (set_bar_lookup _ ops)).
  destruct (snap_IsAborted snap && _).
  { apply steady_bind; [by apply steady_bars_send|]. by intros [] s1 _ ? ?. }
  set (done := if bool_decide (Bytes snap ≠ 0) then snap_Finished snap || _
               else snap_Finished snap).
  destruct done.
  - unfold mbind, M_bind. rewrite (bar_do_eq _ _ _ _ Hops2).
    split; simpl; [by rewrite !length_insert|done].
  - by apply IH.
Qed.

Lemma go_poller fuel sleep g s :
  debug_ON = false → (p_bar g < length (b_bars s))%nat → closed (b_errCh s) = false →
  ∃ s',
    go_run (_blobOneProgress fuel (p_xid g) (p_bar g) sleep) s = Ret tt s' ∧
    length (b_bars s') = length (b_bars s) ∧ closed (b_errCh s') = false ∧
    calls (b_world s') = calls (b_world s) ∧ out (b_world s') = out (b_world s).
Proof.
  intros Hdbg Hbar Hopen.
  pose proof (quiet_blobOneProgress fuel (p_xid g) (p_bar g) sleep s) as [Hc Ho].
  assert (steady s (_blobOneProgress fuel (p_xid g) (p_bar g) sleep s)) as Hst.
  { apply steady_bind; [by apply _blobOneProgress_loop_steady|].
    intros [] s1 Hrun Hl1 Hc1; [|done].
    destruct (lookup_lt_is_Some_2 (b_bars s1) (p_bar g)) as [ops Hops]; [lia|].
    rewrite (bar_do_eq _ _ _ _ Hops). simpl. by rewrite length_insert. }
  unfold go_run.
  destruct (_blobOneProgress fuel (p_xid g) (p_bar g) sleep s) as [[] s'| |s']; [|done|];
    destruct Hst; by exists s'.
Qed.

(** Goroutines of the batch, one after the other. *)
Lemma run_pollers fuel sleep gs s :
  debug_ON = false →
  Forall (λ g, p_bar g < length (b_bars s))%nat gs →
  closed (b_errCh s) = false →
  ∃ s',
    range gs (λ g, go_run (_blobOneProgress fuel (p_xid g) (p_bar g) sleep)) s = Ret tt s' ∧
    length (b_bars s') = length (b_bars s) ∧ closed (b_errCh s') = false ∧
    calls (b_world s') = calls (b_world s) ∧ out (b_world s') = out (b_world s).
Proof.
  intros Hdbg. revert s. induction gs as [|g gs IH]; intros s Hbars Hopen.
  { by exists s. }
  apply Forall_cons in Hbars as [Hg Hbars].
  destruct (go_poller fuel sleep g s Hdbg Hg Hopen) as (s1 & H1 & Hl1 & Hc1 & Hca1 & Ho1).
  destruct (IH s1) as (s' & Hrun & Hl & Hc & Hca & Ho).
  { eapply Forall_impl; [exact Hbars|]. intros g' Hg'. simpl in Hg'. by rewrite Hl1. }
  { done. }
  exists s'. simpl. rewrite (bind_Ret _ _ _ _ _ H1).
  split_and!; [done|congruence..].
Qed.

Definition cyan_lines (ids : list string) : list line :=
  (λ x, Fprintln (fcyan (xact_Cname ActBlobDl x))) <$> ids.

(** One turn of the start loop that starts a goroutine, up to the next
    turn. *)
Lemma start_turn fuel sleep xid bar pending s :
  debug_ON = false → runs_started →
  (bar < length (b_bars s))%nat →
  Forall (λ g, p_bar g < length (b_bars s))%nat pending →
  closed (b_errCh s) = false →
  ∃ s1,
    (in_world (write Cluster (Fprintln (fcyan (xact_Cname ActBlobDl xid)))) ≫= λ _,
     range (sched_early (pending ++ [{| p_xid := xid; p_bar := bar |}])).1
       (λ g, go_run (_blobOneProgress fuel (p_xid g) (p_bar g) sleep))) s = Ret tt s1 ∧
    Forall (λ g, p_bar g < length (b_bars s1))%nat
      (sched_early (pending ++ [{| p_xid := xid; p_bar := bar |}])).2 ∧
    length (b_bars s1) = length (b_bars s) ∧ closed (b_errCh s1) = false ∧
    calls (b_world s1) = calls (b_world s) ∧
    out (b_world s1) = (out (b_world s) ++ [Fprintln (fcyan (xact_Cname ActBlobDl xid))])%list.
Proof.
  intros Hdbg Hsched Hbar Hpend Hopen.
  set (gs := (pending ++ [{| p_xid := xid; p_bar := bar |}])%list).
  assert (∀ g, g ∈ ((sched_early gs).1 ++ (sched_early gs).2)%list →
               (p_bar g < length (b_bars s))%nat) as Hvalid.
  { intros g Hg. apply Hsched in Hg. unfold gs in Hg.
    apply elem_of_app in Hg as [Hg|Hg%list_elem_of_singleton].
    - by apply (proj1 (Forall_forall _ _) Hpend).
    - by subst g. }
  unfold mbind at 1, M_bind at 1, in_world, write, modify. simpl.
  match goal with
  | |- ∃ _, range _ _ ?s0 = _ ∧ _ =>
      destruct (run_pollers fuel sleep (sched_early gs).1 s0 Hdbg)
        as (s1 & Hrun & Hl & Hc & Hca & Ho)
  end.
  { apply Forall_forall. intros g Hg. simpl. apply Hvalid, elem_of_app. by left. }
  { done. }
  exists s1. split_and!; try done.
  apply Forall_forall. intros g Hg. rewrite Hl. simpl. apply Hvalid, elem_of_app. by right.
Qed.

Lemma start_pollers_cons fuel sleep n names xids bars i pending xid bar s :
  xids !! i = Some xid → xid ≠ "" → bars !! i = Some bar →
  start_pollers fuel sleep (n :: names) xids bars i pending s =
    ((in_world (write Cluster (Fprintln (fcyan (xact_Cname ActBlobDl xid)))) ≫= λ _,
      range (sched_early (pending ++ [{| p_xid := xid; p_bar := bar |}])).1
        (λ g, go_run (_blobOneProgress fuel (p_xid g) (p_bar g) sleep))) ≫= λ _,
     start_pollers fuel sleep names xids bars (S i)
       (sched_early (pending ++ [{| p_xid := xid; p_bar := bar |}])).2) s.
Proof.
  intros Hx Hne Hb. cbn [start_pollers]. rewrite Hx, Hb.
  rewrite bool_decide_eq_true_2 by done.
  destruct (sched_early _) as [now later]. simpl.
  unfold mbind, M_bind. destruct (in_world _ s) as [[] s0| |]; [|done..].
  by destruct (range now _ s0) as [[] ?| |].
Qed.

Lemma start_pollers_panics fuel sleep names xids bars i j x pending s :
  debug_ON = false → runs_started →
  (i ≤ j)%nat → (j < i + length names)%nat →
  xids !! j = Some x → x ≠ "" → bars !! j = None →
  Forall (λ b, b < length (b_bars s))%nat bars →
  Forall (λ g, p_bar g < length (b_bars s))%nat pending →
  closed (b_errCh s) = false →
  ∃ s',
    start_pollers fuel sleep names xids bars i pending s = Panic "index out of range" s' ∧
    calls (b_world s') = calls (b_world s).
Proof.
  intros Hdbg Hsched Hij Hj Hx Hne Hbar. revert i pending s Hij Hj.
  induction names as [|n names IH]; intros i pending s Hij Hj Hbars Hpend Hopen;
    [simpl in Hj; lia|].
  destruct (lookup_lt_is_Some_2 xids i) as [xi Hxi].
  { apply lookup_lt_Some in Hx. lia. }
  destruct (decide (i = j)) as [->|Hneq].
  { cbn [start_pollers]. rewrite Hxi. assert (xi = x) as -> by congruence.
    rewrite bool_decide_eq_true_2 by done. rewrite Hbar. by exists s. }
  simpl in Hj. destruct (decide (xi = "")) as [->|Hxi'].
  { cbn [start_pollers]. rewrite Hxi. rewrite bool_decide_eq_false_2 by (by intros ?).
    apply IH; [lia|lia|done..]. }
  destruct (bars !! i) as [b|] eqn:Hb.
  2:{ cbn [start_pollers]. rewrite Hxi, Hb. rewrite bool_decide_eq_true_2 by done.
      by exists s. }
  rewrite (start_pollers_cons _ _ _ _ _ _ _ _ xi b) by done.
  destruct (start_turn fuel sleep xi b pending s Hdbg Hsched)
    as (s1 & H1 & Hlater & Hl1 & Hc1 & Hca1 & _).
  { by apply (proj1 (Forall_lookup _ _) Hbars i b). }
  { done. }
  { done. }
  rewrite (bind_Ret _ _ _ _ _ H1).
  destruct (IH (S i) (sched_early (pending ++ [{| p_xid := xi; p_bar := b |}])).2 s1)
    as (s' & Hrun & Hca); [lia|lia|by rewrite Hl1|done|done|].
  exists s'. split; [done|]. congruence.
Qed.

Lemma start_pollers_prefix fuel sleep names ids m bars i pending s :
  debug_ON = false → runs_started →
  "" ∉ ids →
  (i + length names = length ids + m)%nat →
  (∀ l, (l < length ids)%nat → bars !! l = Some l) →
  (length ids ≤ length (b_bars s))%nat →
  Forall (λ g, p_bar g < length (b_bars s))%nat pending →
  closed (b_errCh s) = false →
  ∃ gs s',
    start_pollers fuel sleep names (ids ++ replicate m "") bars i pending s = Ret gs s' ∧
    Forall (λ g, p_bar g < length (b_bars s'))%nat gs ∧
    length (b_bars s') = length (b_bars s) ∧ closed (b_errCh s') = false ∧
    calls (b_world s') = calls (b_world s) ∧
    out (b_world s') = (out (b_world s) ++ cyan_lines (drop i ids))%list.
Proof.
  intros Hdbg Hsched Hne. revert i pending s.
  induction names as [|n names IH]; intros i pending s Hlen Hbars Hk Hpend Hopen.
  - simpl in Hlen. rewrite drop_ge by lia. exists pending, s. simpl.
    by rewrite app_nil_r.
  - simpl in Hlen. destruct (decide (i < length ids)%nat) as [Hi|Hi].
    + destruct (lookup_lt_is_Some_2 ids i Hi) as [x Hx].
      assert (x ≠ "") as Hx'.
      { intros ->. apply Hne. by eapply list_elem_of_lookup_2. }
      rewrite (start_pollers_cons _ _ _ _ _ _ _ _ x i);
        [|by rewrite lookup_app_l|done|by apply Hbars].
      destruct (start_turn fuel sleep x i pending s Hdbg Hsched)
        as (s1 & H1 & Hlater & Hl1 & Hc1 & Hca1 & Ho1); [lia|done|done|].
      rewrite (bind_Ret _ _ _ _ _ H1).
      destruct (IH (S i) (sched_early (pending ++ [{| p_xid := x; p_bar := i |}])).2 s1)
        as (gs & s' & Hrun & Hgs & Hl & Hc & Hca & Ho); [lia|done|by rewrite Hl1|done|done|].
      exists gs, s'. split_and!; [done|done|congruence|done|congruence|].
      rewrite Ho, Ho1, (drop_S _ _ _ Hx). simpl. by rewrite <-app_assoc.
    + cbn [start_pollers]. rewrite lookup_app_r by lia.
      rewrite lookup_replicate_2 by lia.
      rewrite bool_decide_eq_false_2 by (by intros ?).
      destruct (IH (S i) pending s) as (gs & s' & Hrun & ?); [lia|done..|].
      rewrite (drop_ge ids i) by lia. rewrite (drop_ge ids (S i)) in H by lia.
      by exists gs, s'.
Qed.

Lemma nonempty_prefix (ids : list string) m :
  "" ∉ ids → nonempty (ids ++ replicate m "") = ids.
Proof.
  intros Hne. unfold nonempty. rewrite filter_app.
  assert (filter (λ x : string, x ≠ "") (replicate m "") = []) as ->.
  { induction m as [|m' IH]; [done|]. simpl. by rewrite filter_cons_False by (by intros ?). }
  rewrite app_nil_r. induction ids as [|x ids IH]; [done|].
  apply not_elem_of_cons in Hne as [Hx Hne]. rewrite filter_cons_True by done.
  by rewrite IH.
Qed.

(** X17.  [blobAllProgress] makes one bar per non-empty job id but takes
    the bar of a job at the job's own index.  Once an object with nothing
    to do (empty id) stands before one that is being downloaded, the call
    panics with an index out of range (build without the debug tag,
    [simpleBar] returning one bar per argument), however the goroutines
    already started are scheduled: the jobs before the faulty index may
    have been polled by then, but no download, stop or wait request has
    been made. *)
Theorem blobAllProgress_index_panic fuel c bck objNames xids i j x w :
  debug_ON = false →
  length xids = length objNames →
  one_bar_each → runs_started →
  (i < j)%nat → xids !! i = Some "" → xids !! j = Some x → x ≠ "" →
  ∃ w',
    blobAllProgress fuel c bck objNames xids w = Panic "index out of range" w' ∧
    calls w' = calls w.
Proof.
  intros Hdbg Hlen Hbars Hsched Hij Hi Hj Hx.
  destruct (last_nonempty xids j x Hj Hx) as (k & y & Hjk & Hk & Hy & Hall).
  pose proof (count_nonempty_le xids i k Hi ltac:(lia) Hall) as Hcount.
  unfold blobAllProgress, with_bars.
  set (s0 := {| b_world := w; b_bars := []; b_errCh := _ |}).
  unfold debug.Assert.
  rewrite (bool_decide_eq_true_2 (length xids = length objNames)) by done.
  rewrite andb_false_r.
  unfold mbind at 1, M_bind at 1, mret at 1, M_ret at 1.
  destruct (progress_bargs_spec bck objNames xids 0 s0) as (bargs & Hb & Hbl); [lia|].
  unfold mbind at 1, M_bind at 1. rewrite Hb.
  unfold mbind at 1, M_bind at 1. rewrite Hbars.
  match goal with
  | |- ∃ _, match (start_pollers _ _ objNames xids ?bars 0 [] ≫= _) ?s1 with _ => _ end = _ ∧ _ =>
      destruct (start_pollers_panics fuel (_refreshRate c) objNames xids bars 0 k y [] s1)
        as (s' & Hrun & Hc)
  end; try done.
  - lia.
  - apply lookup_lt_Some in Hk. lia.
  - apply lookup_seq_ge. lia.
  - simpl. rewrite length_replicate. apply Forall_forall.
    intros b [_ Hb']%elem_of_seq. lia.
  - unfold mbind, M_bind. rewrite Hrun. by exists (b_world s').
Qed.

(** X19.  With the objects that have nothing to do (empty id) last,
    [blobAllProgress], built without the debug tag, never panics:
    whether it returns or still waits for its bars, it has printed one
    line per job in the order of the objects and made no download, stop
    or wait request. *)
Theorem blobAllProgress_no_panic fuel c bck objNames ids m w :
  debug_ON = false →
  (length ids + m = length objNames)%nat →
  "" ∉ ids →
  one_bar_each → runs_started →
  (∀ gs, length (sched gs) = length gs ∧ ∀ g, g ∈ sched gs → g ∈ gs) →
  match blobAllProgress fuel c bck objNames (ids ++ replicate m "") w with
  | Panic _ _ => False
  | o => calls (final o) = calls w ∧
         out (final o) = (out w ++ cyan_lines ids)%list
  end.
Proof.
  intros Hdbg Hlen Hne Hbars Hearly Hsched.
  assert (length (ids ++ replicate m "") = length objNames) as Hlen'.
  { by rewrite length_app, length_replicate. }
  pose proof (nonempty_prefix ids m Hne) as Hids.
  unfold blobAllProgress, with_bars.
  set (s0 := {| b_world := w; b_bars := []; b_errCh := _ |}).
  unfold debug.Assert. rewrite Hdbg. cbn [andb].
  unfold mbind at 1, M_bind at 1, mret at 1, M_ret at 1.
  destruct (progress_bargs_spec bck objNames (ids ++ replicate m "") 0 s0)
    as (bargs & Hb & Hbl); [lia|].
  unfold mbind at 1, M_bind at 1. rewrite Hb.
  unfold mbind at 1, M_bind at 1. rewrite Hbars, Hbl, Hids.
  match goal with
  | |- match match (start_pollers _ _ objNames _ ?bars 0 [] ≫= _) ?s1 with _ => _ end
       with _ => _ end =>
      destruct (start_pollers_prefix fuel (_refreshRate c) objNames ids m bars 0 [] s1)
        as (gs & s2 & Hst & Hgs & Hb2 & He2 & Hc2 & Ho2); try done
  end.
  { intros l Hl. by apply lookup_seq_lt. }
  { simpl. by rewrite length_replicate. }
  unfold mbind at 1, M_bind at 1. rewrite Hst. rewrite drop_0 in *.
  destruct (run_pollers fuel (_refreshRate c) (sched gs) s2 Hdbg)
    as (s3 & Hrun & Hb3 & He3 & Hc3 & Ho3); [|done|].
  { apply Forall_forall. intros g Hg. apply Hsched in Hg.
    by apply (proj1 (Forall_forall _ _) Hgs). }
  unfold mbind at 1, M_bind at 1. rewrite Hrun.
  simpl in Hc2, Ho2.
  unfold mbind, M_bind, progress_Wait.
  destruct (forallb ended (b_bars s3)); [|simpl; split; congruence].
  unfold bars_poll, bars_close, chan_close, mret, M_ret.
  destruct (bool_decide (length objNames = 1%nat));
    destruct (buf (b_errCh s3)) as [|e rest]; simpl; rewrite ?He3; simpl; split; congruence.
Qed.

End Progress.

Arguments Build_Bars {Cluster} _ _ _.
Arguments b_world {Cluster} _.
Arguments b_bars {Cluster} _.
Arguments b_errCh {Cluster} _.

(** *** A concrete cluster: remote bucket, object "a" already present *)

Fixpoint split_on (sep : Ascii.ascii) (s acc : string) : list string :=
  match s with
  | EmptyString => [acc]
  | String ch rest =>
      if Ascii.eqb ch sep then acc :: split_on sep rest ""
      else split_on sep rest (acc ++ String ch "")
  end.

Definition sample_splitCsv (s : string) : list string := split_on ","%char s "".

(** The cluster is the list of running job ids.  Downloading "a" finds
    it in place (empty job id); any other object starts a job. *)
Definition sample_BlobDownload (_ : Bck) (objName : string) (_ : BlobMsg) (cl : list string)
  : string * option error * list string :=
  if bool_decide (objName = "a") then ("", None, cl)
  else let xid := "job-" ++ objName in (xid, None, (cl ++ [xid])%list).

Definition sample_end_job (args : ArgsMsg) (cl : list string) : option error * list string :=
  (None, filter (λ x, x ≠ ID args) cl).

Definition sample_headBucket (_ : Bck) (_ : bool) (cl : list string)
  : option string * option error * list string :=
  (Some "props", None, cl).

Definition sample_Cname (b : Bck) (o : string) : string :=
  Provider b ++ "://" ++ Name b ++ "/" ++ o.

Definition sample_parseBckURI (_ : Context) (_ : string) (_ : bool) : Bck * option error :=
  ({| Name := "bucket"; Provider := "s3"; Props := None |}, None).

Definition sample_parseBckObjURI (_ : Context) (_ : string) (_ : bool)
  : Bck * string * option error :=
  ({| Name := "bucket"; Provider := "s3"; Props := None |}, "b", None).

Definition sample_handler (c : Context) : M (World (list string)) (option error) :=
  blobDownloadHandler (list string) sample_BlobDownload sample_end_job sample_end_job
    sample_headBucket (λ e, e) (λ _, "error") "blob-download" "Done." sample_Cname
    (λ b, bool_decide (Provider b ≠ "ais")) (λ k id, k ++ "[" ++ id ++ "]") (λ t, t)
    (λ _ _ _, "") sample_splitCsv sample_parseBckURI sample_parseBckObjURI
    (λ _, (0, None)) (λ l sep, foldr (λ x acc, x ++ sep ++ acc) "" l)
    (λ _ _ _ _, mret None) (λ gs, gs) c.

(** [ais blob-download s3://bucket --list a,b --wait] *)
Definition wait_for_a_and_b : Context :=
  {| Args0 := "s3://bucket"; listFlag := Some "a,b"; chunkSizeFlag := None;
     numBlobWorkersFlag := None; latestVerFlag := false; waitJobXactFinishedFlag := None;
     progressFlag := false; waitFlag := true; nonverboseFlag := false |}.

(** [ais blob-download s3://bucket --list b,c --wait] *)
Definition wait_for_b_and_c : Context :=
  {| Args0 := "s3://bucket"; listFlag := Some "b,c"; chunkSizeFlag := None;
     numBlobWorkersFlag := None; latestVerFlag := false; waitJobXactFinishedFlag := None;
     progressFlag := false; waitFlag := true; nonverboseFlag := false |}.

Definition idle_cluster : World (list string) := {| cluster := []; calls := []; out := [] |}.

(** C9.  Waiting for two objects of which "a" needs no download: the
    batch starts one job, the wait group was raised by two, the single
    goroutine lowers it once, and the handler stays in [wg.Wait()] for
    good, after the one download it waited for has finished. *)
Theorem blobDownloadHandler_hangs_on_skipped_object :
  ∃ w',
    sample_handler wait_for_a_and_b idle_cluster = Block w' ∧
    calls w' =
      [BlobDownload "a" "" None; BlobDownload "b" "job-b" None;
       WaitXactBlob {| ID := "job-b"; Kind := "blob-download"; Timeout := 0 |} None] ∧
    cluster w' = [].
Proof. eexists. split_and!; [lazy; reflexivity|reflexivity..]. Qed.

(** *** A cluster on which a job does not stop on request *)

(** Object "d" is not in the bucket; any other object starts a job. *)
Definition stubborn_BlobDownload (_ : Bck) (objName : string) (_ : BlobMsg) (cl : list string)
  : string * option error * list string :=
  if bool_decide (objName = "d") then ("", Some (errors_New "d: not found"), cl)
  else let xid := "job-" ++ objName in (xid, None, (cl ++ [xid])%list).

(** Job "job-b" refuses to stop; any other job ends when asked to. *)
Definition stubborn_xstop (args : ArgsMsg) (cl : list string) : option error * list string :=
  if bool_decide (ID args = "job-b") then (Some (errors_New "job-b: cannot stop"), cl)
  else (None, filter (λ x, x ≠ ID args) cl).

(** [err.Error()] *)
Definition sample_Error (err : error) : string :=
  match err with
  | io_EOF => "EOF"
  | io_ErrUnexpectedEOF => "unexpected EOF"
  | ErrorECDisabled => "EC is disabled"
  | errors_New msg | fmt_Errorf msg | fmt_ErrorfW msg _ => msg
  end.

(** C10, as stated, at a concrete batch.  Of the objects "b", "c" and
    "d" the first two start a download and the third fails.  The caller
    gets the nil list, count 0 and the error, and a stop went out for
    both jobs; but the stop of "job-b" failed, which [blobStartAll] only
    warns about, so the download started for "b" is still running when
    the function has returned: not every download already started is
    stopped. *)
Lemma blobStartAll_failed_stop_keeps_running :
  ∃ w',
    blobStartAll (list string) stubborn_BlobDownload stubborn_xstop (λ e, e) sample_Error
      "blob-download" sample_Cname wait_for_a_and_b
      {| Name := "bucket"; Provider := "s3"; Props := Some "props" |} ["b"; "c"; "d"]
      {| ChunkSize := 0; NumWorkers := 0; LatestVer := false |} idle_cluster
    = Ret (None, 0, Some (errors_New "d: not found")) w' ∧
    calls w' =
      [BlobDownload "b" "job-b" None; BlobDownload "c" "job-c" None;
       BlobDownload "d" "" (Some (errors_New "d: not found"));
       Xstop {| ID := "job-b"; Kind := "blob-download"; Timeout := 0 |}
             (Some (errors_New "job-b: cannot stop"));
       Xstop {| ID := "job-c"; Kind := "blob-download"; Timeout := 0 |} None] ∧
    out w' = [actionWarn "job-b: cannot stop"] ∧
    cluster w' = ["job-b"] ∧
    ¬ (∀ xid, xid ∈ ["job-b"; "job-c"] → xid ∉ cluster w').
Proof.
  eexists. split_and!; [lazy; reflexivity|reflexivity..|].
  intros H. apply (H "job-b"); simpl; apply list_elem_of_here.
Qed.

(** With a job for each object the same command returns success. *)
Example blobDownloadHandler_returns_when_all_started :
  ∃ w',
    sample_handler wait_for_b_and_c idle_cluster = Ret None w' ∧
    last (out w') = Some (actionDone "Done.").
Proof. eexists. split; [lazy; reflexivity|reflexivity]. Qed.

(** *** The handler and the progress bars on concrete clusters *)

(** [ais blob-download s3://bucket --list b,c] *)
Definition start_b_and_c : Context :=
  {| Args0 := "s3://bucket"; listFlag := Some "b,c"; chunkSizeFlag := None;
     numBlobWorkersFlag := None; latestVerFlag := false; waitJobXactFinishedFlag := None;
     progressFlag := false; waitFlag := false; nonverboseFlag := true |}.

(** [ais blob-download s3://bucket/b --wait] *)
Definition wait_for_b : Context :=
  {| Args0 := "s3://bucket/b"; listFlag := None; chunkSizeFlag := None;
     numBlobWorkersFlag := None; latestVerFlag := false; waitJobXactFinishedFlag := Some 30;
     progressFlag := false; waitFlag := true; nonverboseFlag := false |}.

(** A cluster on which every download starts a job. *)
Definition eager_BlobDownload (_ : Bck) (objName : string) (_ : BlobMsg) (cl : list string)
  : string * option error * list string :=
  let xid := "job-" ++ objName in (xid, None, (cl ++ [xid])%list).

Definition eager_handler (c : Context) : M (World (list string)) (option error) :=
  blobDownloadHandler (list string) eager_BlobDownload sample_end_job sample_end_job
    sample_headBucket (λ e, e) (λ _, "error") "blob-download" "Done." sample_Cname
    (λ b, bool_decide (Provider b ≠ "ais")) (λ k id, k ++ "[" ++ id ++ "]") (λ t, t)
    (λ _ _ _, "") sample_splitCsv sample_parseBckURI sample_parseBckObjURI
    (λ _, (0, None)) (λ l sep, foldr (λ x acc, x ++ sep ++ acc) "" l)
    (λ _ _ _ _, mret None) (λ gs, gs) c.

Lemma handler_calls_need_remote_bucket_witness :
  ∃ objNames bck,
    parsed sample_splitCsv sample_parseBckURI sample_parseBckObjURI wait_for_b_and_c
      = (objNames, bck, None) ∧
    objNames ≠ [] ∧ Provider bck ≠ "ais".
Proof.
  destruct (handler_calls_need_remote_bucket (list string) sample_BlobDownload sample_end_job
              sample_end_job sample_headBucket (λ e, e) (λ _, "error") "blob-download" "Done."
              sample_Cname (λ b, bool_decide (Provider b ≠ "ais"))
              (λ k id, k ++ "[" ++ id ++ "]") (λ t, t) (λ _ _ _, "") sample_splitCsv
              sample_parseBckURI sample_parseBckObjURI (λ _, (0, None))
              (λ l sep, foldr (λ x acc, x ++ sep ++ acc) "" l) (λ _ _ _ _, mret None)
              (λ gs, gs) wait_for_b_and_c idle_cluster)
    as (objNames & bck & props & cl & Hp & Hne & _ & Hrem & _).
  - vm_compute. discriminate.
  - exists objNames, bck. split_and!; [exact Hp|exact Hne|].
    by apply bool_decide_eq_true_1 in Hrem.
Defined.

Lemma handler_fire_and_forget_witness :
  ∃ res w',
    sample_handler start_b_and_c idle_cluster = Ret res w' ∧
    forallb (λ cl, negb (is_wait cl)) (calls w') = true.
Proof.
  destruct (handler_fire_and_forget (list string) sample_BlobDownload sample_end_job
              sample_end_job sample_headBucket (λ e, e) (λ _, "error") "blob-download" "Done."
              sample_Cname (λ b, bool_decide (Provider b ≠ "ais"))
              (λ k id, k ++ "[" ++ id ++ "]") (λ t, t) (λ _ _ _, "") sample_splitCsv
              sample_parseBckURI sample_parseBckObjURI (λ _, (0, None))
              (λ l sep, foldr (λ x acc, x ++ sep ++ acc) "" l) (λ _ _ _ _, mret None)
              (λ gs, gs) start_b_and_c idle_cluster)
    as (res & w' & new & Hrun & Hc & Hnw & _).
  - reflexivity.
  - reflexivity.
  - exists res, w'. split; [exact Hrun|]. rewrite Hc. exact Hnw.
Defined.

Lemma handler_single_wait_witness :
  ∃ res w' new,
    sample_handler wait_for_b idle_cluster = Ret res w' ∧ calls w' = new ∧
    (length new ≤ 2)%nat.
Proof.
  destruct (handler_single_wait (list string) sample_BlobDownload sample_end_job
              sample_end_job sample_headBucket (λ e, e) (λ _, "error") "blob-download" "Done."
              sample_Cname (λ b, bool_decide (Provider b ≠ "ais"))
              (λ k id, k ++ "[" ++ id ++ "]") (λ t, t) (λ _ _ _, "") sample_splitCsv
              sample_parseBckURI sample_parseBckObjURI (λ _, (0, None))
              (λ l sep, foldr (λ x acc, x ++ sep ++ acc) "" l) (λ _ _ _ _, mret None)
              (λ gs, gs) wait_for_b idle_cluster)
    as (res & w' & new & Hrun & Hc & Hcases).
  - reflexivity.
  - reflexivity.
  - reflexivity.
  - exists res, w', new. split_and!; [exact Hrun|exact Hc|].
    destruct Hcases as [(-> & _)|[(o & x & e & -> & _)|[(o & -> & _)|(o & x & e & _ & -> & _)]]];
      simpl; lia.
Defined.

Lemma eager_always_starts : always_starts (list string) eager_BlobDownload.
Proof. intros bck o msg cl x cl' [= <- _]. discriminate. Qed.

Lemma handler_returns_witness :
  ∃ res w', eager_handler wait_for_b_and_c idle_cluster = Ret res w'.
Proof.
  destruct (handler_returns (list string) eager_BlobDownload sample_end_job
              sample_end_job sample_headBucket (λ e, e) (λ _, "error") "blob-download" "Done."
              sample_Cname (λ b, bool_decide (Provider b ≠ "ais"))
              (λ k id, k ++ "[" ++ id ++ "]") (λ t, t) (λ _ _ _, "") sample_splitCsv
              sample_parseBckURI sample_parseBckObjURI (λ _, (0, None))
              (λ l sep, foldr (λ x acc, x ++ sep ++ acc) "" l) (λ _ _ _ _, mret None)
              (λ gs, gs) wait_for_b_and_c idle_cluster)
    as (res & w' & new & Hrun & _).
  - exact eager_always_starts.
  - reflexivity.
  - reflexivity.
  - exists res, w'. exact Hrun.
Defined.

(** Job "job-c" was aborted at 4 of 10 bytes; any other job has finished
    with its 10 bytes. *)
Definition sample_getAnyXactSnap (args : ArgsMsg) (_ : string) (cl : list string)
  : string * Snap * option error * list string :=
  if bool_decide (ID args = "job-c")
  then ("t1", {| snap_ID := ID args; snap_Finished := true; snap_IsAborted := true;
                 AbortErr := "out of space"; InBytes := 10; Bytes := 4 |}, None, cl)
  else ("t1", {| snap_ID := ID args; snap_Finished := true; snap_IsAborted := false;
                 AbortErr := ""; InBytes := 10; Bytes := 10 |}, None, cl).

Definition sample_simpleBar (bargs : list barArgs) : M (Bars (list string)) (list nat) := λ s,
  Ret (seq (length (b_bars s)) (length bargs))
    {| b_world := b_world s;
       b_bars := (b_bars s ++ replicate (length bargs) [])%list;
       b_errCh := b_errCh s |}.

(** Every goroutine runs as soon as it is started. *)
Definition at_once (gs : list poller) : list poller * list poller := (gs, []).

Definition sample_progress (objNames xids : list string)
  : M (World (list string)) (option error) :=
  blobAllProgress (list string) false sample_getAnyXactSnap "blob-download" 0 sample_Cname
    (λ k id, k ++ "[" ++ id ++ "]") (λ t, t) (λ _, 1) (λ gs, gs) sample_simpleBar at_once 5
    wait_for_a_and_b {| Name := "bucket"; Provider := "s3"; Props := Some "props" |}
    objNames xids.

Lemma blobAllProgress_index_panic_witness :
  ∃ w', sample_progress ["a"; "b"; "c"] [""; "job-b"; "job-c"] idle_cluster
          = Panic "index out of range" w'.
Proof.
  destruct (blobAllProgress_index_panic (list string) false sample_getAnyXactSnap
              "blob-download" 0 sample_Cname (λ k id, k ++ "[" ++ id ++ "]") (λ t, t)
              (λ _, 1) (λ gs, gs) sample_simpleBar at_once 5 wait_for_a_and_b
              {| Name := "bucket"; Provider := "s3"; Props := Some "props" |}
              ["a"; "b"; "c"] [""; "job-b"; "job-c"] 0 1 "job-b" idle_cluster)
    as (w' & Hrun & _).
  - reflexivity.
  - reflexivity.
  - intros bargs s. reflexivity.
  - intros gs g. simpl. by rewrite app_nil_r.
  - lia.
  - reflexivity.
  - reflexivity.
  - discriminate.
  - exists w'. exact Hrun.
Defined.

Lemma blobAllProgress_no_panic_witness :
  match sample_progress ["b"; "a"] ["job-b"; ""] idle_cluster with
  | Panic _ _ => False
  | o => out (final o) = [Fprintln "blob-download[job-b]"]
  end.
Proof.
  pose proof (blobAllProgress_no_panic (list string) false sample_getAnyXactSnap
                "blob-download" 0 sample_Cname (λ k id, k ++ "[" ++ id ++ "]") (λ t, t)
                (λ _, 1) (λ gs, gs) sample_simpleBar at_once 5 wait_for_a_and_b
                {| Name := "bucket"; Provider := "s3"; Props := Some "props" |}
                ["b"; "a"] ["job-b"] 1 idle_cluster) as H.
  unfold sample_progress.
  change ["job-b"; ""] with (["job-b"] ++ replicate 1 "")%list.
  destruct (blobAllProgress _ _ _ _ _ _ _ _ _ _ _ _ _ _ _ _ _ _).
  - apply H; [reflexivity|reflexivity| |intros ? ?; reflexivity|
              intros gs g; simpl; by rewrite app_nil_r|done].
    by intros [=]%list_elem_of_singleton.
  - apply H; [reflexivity|reflexivity| |intros ? ?; reflexivity|
              intros gs g; simpl; by rewrite app_nil_r|done].
    by intros [=]%list_elem_of_singleton.
  - apply H; [reflexivity|reflexivity| |intros ? ?; reflexivity|
              intros gs g; simpl; by rewrite app_nil_r|done].
    by intros [=]%list_elem_of_singleton.
Defined.

Lemma _blobOneProgress_ends_witness :
  ∃ inc,
    ended inc = false ∧
    match _blobOneProgress (list string) false sample_getAnyXactSnap "blob-download" 5
            "job-c" 0 1 {| b_world := idle_cluster; b_bars := [[]]; b_errCh := make_chan 1 |} with
    | Ret _ s' =>
        (∃ n, wrap64 (incr_sum inc) = wrap64 n ∧
              b_bars s' = [inc ++ [SetTotal n true]]%list)
        ∨ (∃ e, b_bars s' = [inc ++ [Abort true]]%list ∧ buf (b_errCh s') = [e])
    | _ => False
    end.
Proof.
  destruct (_blobOneProgress_ends (list string) false sample_getAnyXactSnap "blob-download" 5
              "job-c" 0 1 {| b_world := idle_cluster; b_bars := [[]]; b_errCh := make_chan 1 |}
              [] eq_refl eq_refl eq_refl eq_refl) as (inc & Hinc & Hrun).
  exists inc. split; [exact Hinc|].
  destruct (_blobOneProgress _ _ _ _ _ _ _ _ _) as [[] s'|?|s'] eqn:Hout.
  - destruct Hrun as [(n & Hn & Hb & _)|(e & Hb & He)].
    + left. exists n. split; [exact Hn|]. rewrite Hb. reflexivity.
    + right. exists e. split; [rewrite Hb; reflexivity|rewrite He; reflexivity].
  - exact Hrun.
  - vm_compute in Hout. discriminate.
Defined.

End cli.

(** ** Admission policies of the two factories *)

(** C7.  The answer of each factory is a constant of its kind.  The
    inline-ETL factory answers keep-and-start-new and the EC-GET factory
    (assertions compiled out) answers use-previous, with no error, whatever
    the factory holds and whichever previous instance is passed; in any
    build two calls on the EC-GET factory end alike. *)
Theorem WhenPrevIsRunning_is_constant :
  (∀ (e : xs.etlFactory) (xprev : xreg.Renewable),
     xs.etlFactory_WhenPrevIsRunning xprev e = Ret (xreg.WprKeepAndStartNew, None) e) ∧
  (∀ (p : ec.getFactory) (xprev : xreg.Renewable),
     ec.getFactory_WhenPrevIsRunning false xprev p = Ret (xreg.WprUse, None) p) ∧
  (∀ (dbg : bool) (p p' : ec.getFactory) (xprev xprev' : xreg.Renewable),
     returned (ec.getFactory_WhenPrevIsRunning dbg xprev p) =
     returned (ec.getFactory_WhenPrevIsRunning dbg xprev' p')).
Proof.
  split_and!.
  - done.
  - done.
  - intros dbg p p' xprev xprev'. by destruct dbg.
Qed.
